(** * DistributedTaskQueue: the dispatch engine, its stores and its HTTP surface

    A shallow embedding of [task.go], [storage.go], [metrics.go], [queue.go]
    and [server.go].  Go's [int] is a 64-bit integer carried by [Z] with the
    wrap-around written out, Go strings are [string], a [*time.Time] is an
    [option], an [error] is an [option string] holding [err.Error()].

    Conventions of the model:
    - a [time.Time] is the instant it denotes, in nanoseconds since the Unix
      epoch (zone and monotonic reading are not kept);
    - strings are valid UTF-8 text;
    - goroutines are not modelled: the functions below are the sequential
      bodies of [Submit], [processTask], [pollPendingTasks] and of the
      handlers, run one after the other on an explicit state. *)

From Stdlib Require Import ZArith Ascii String List SpecFloat DecimalString DecimalPos DecimalZ.
From stdpp Require Import gmap strings list sorting.

Set Warnings "-register-all".

Local Open Scope string_scope.
Local Open Scope Z_scope.

(** ** Machine integers *)

Definition wrap64 (z : Z) : Z := (z + 2 ^ 63) mod 2 ^ 64 - 2 ^ 63.

Definition minInt64 : Z := - 2 ^ 63.
Definition maxInt64 : Z := 2 ^ 63 - 1.

Definition isInt64 (z : Z) : bool := (minInt64 <=? z) && (z <=? maxInt64).

(** [fmt.Sprintf("%d", z)] *)
Definition Sprintf_d (z : Z) : string := NilZero.string_of_int (Z.to_int z).

(** ** Dynamic Go values and JSON documents

    [map[string]interface{}] holds values of any dynamic type.  The model
    covers the types a payload is built from in this repository: untyped
    nil, bool, int, float64, string, and non-nil [[]interface{}] and
    [map[string]interface{}].  A map is the list of its bindings. *)

Abbreviation float64 := spec_float.

Definition float64_of_int (z : Z) : float64 := binary_normalize 53 1024 z 0 false.

Definition float64_finite (f : float64) : bool :=
  match f with
  | S754_zero _ | S754_finite _ _ _ => true
  | S754_infinity _ | S754_nan => false
  end.

Inductive GoValue : Type :=
  | VNil
  | VBool (b : bool)
  | VInt (z : Z)
  | VFloat (f : float64)
  | VString (s : string)
  | VSlice (l : list GoValue)
  | VMap (m : list (string * GoValue)).

(** A JSON number literal is kept as the Go number it was printed from:
    [strconv] prints an [int] in decimal and a [float64] with the shortest
    decimal that parses back to the same [float64]. *)
Inductive JSON : Type :=
  | JNull
  | JBool (b : bool)
  | JInt (z : Z)
  | JFloat (f : float64)
  | JString (s : string)
  | JArray (l : list JSON)
  | JObject (m : list (string * JSON)).

Definition sequence {A} (l : list (option A)) : option (list A) :=
  foldr (λ o acc, match o, acc with
                  | Some x, Some xs => Some (x :: xs)
                  | _, _ => None
                  end) (Some []) l.

(** [json.Marshal] of an [interface{}] value: NaN and infinities are an
    [UnsupportedValueError]. *)
Fixpoint marshalValue (v : GoValue) : option JSON :=
  match v with
  | VNil => Some JNull
  | VBool b => Some (JBool b)
  | VInt z => Some (JInt z)
  | VFloat f => if float64_finite f then Some (JFloat f) else None
  | VString s => Some (JString s)
  | VSlice l => JArray <$> sequence (map marshalValue l)
  | VMap m =>
      JObject <$> sequence (map (λ kv, pair (fst kv) <$> marshalValue (snd kv)) m)
  end.

(** [json.Unmarshal] into an [interface{}]: every number becomes a
    [float64], arrays become [[]interface{}], objects
    [map[string]interface{}]. *)
Fixpoint unmarshalValue (j : JSON) : GoValue :=
  match j with
  | JNull => VNil
  | JBool b => VBool b
  | JInt z => VFloat (float64_of_int z)
  | JFloat f => VFloat f
  | JString s => VString s
  | JArray l => VSlice (map unmarshalValue l)
  | JObject m => VMap (map (λ kv, (fst kv, unmarshalValue (snd kv))) m)
  end.

Definition marshalMap (m : list (string * GoValue)) : option (list (string * JSON)) :=
  sequence (map (λ kv, pair (fst kv) <$> marshalValue (snd kv)) m).

Definition unmarshalMap (m : list (string * JSON)) : list (string * GoValue) :=
  map (λ kv, (fst kv, unmarshalValue (snd kv))) m.

(** The values [json.Unmarshal] itself produces: the JSON-native ones. *)
Fixpoint jsonNative (v : GoValue) : bool :=
  match v with
  | VNil | VBool _ | VString _ => true
  | VInt _ => false
  | VFloat f => float64_finite f
  | VSlice l => forallb jsonNative l
  | VMap m => forallb (λ kv, jsonNative (snd kv)) m
  end.

(** ** task.go *)

Module task.

Abbreviation Time := Z.

(** [Time.MarshalJSON] refuses years outside 0..9999:
    0000-01-01T00:00:00Z is -62167219200 s, 10000-01-01T00:00:00Z is
    253402300800 s. *)
Definition timeMarshalable (t : Time) : bool :=
  (-62167219200 * 10 ^ 9 <=? t) && (t <? 253402300800 * 10 ^ 9).

(** The zero [time.Time] is 0001-01-01T00:00:00Z. *)
Definition zeroTime : Time := -62135596800 * 10 ^ 9.

Definition Unix (t : Time) : Z := t / 10 ^ 9.

Abbreviation Priority_t := Z.

Definition PriorityLow : Priority_t := 0.
Definition PriorityMedium : Priority_t := 1.
Definition PriorityHigh : Priority_t := 2.
Definition PriorityCritical : Priority_t := 3.

Abbreviation Status_t := string.

Definition StatusPending : Status_t := "pending".
Definition StatusProcessing : Status_t := "processing".
Definition StatusCompleted : Status_t := "completed".
Definition StatusFailed : Status_t := "failed".
Definition StatusRetrying : Status_t := "retrying".

Record Task : Type := mkTask {
  ID : string;
  Type_ : string;
  Priority : Priority_t;
  Status : Status_t;
  Payload : option (list (string * GoValue));
  MaxRetries : Z;
  RetryCount : Z;
  CreatedAt : Time;
  StartedAt : option Time;
  CompletedAt : option Time;
  Error : string;
  WorkerID : string
}.

(** The zero value of the struct, what [var task Task] holds. *)
Definition zeroTask : Task :=
  mkTask "" "" 0 "" None 0 0 zeroTime None None "" "".

(** [uuid.New().String()] and [time.Now()] are inputs of the model. *)
Definition NewTask (uuid : string) (now : Time) (taskType : string)
    (priority : Priority_t) (payload : option (list (string * GoValue))) : Task :=
  {| ID := uuid;
     Type_ := taskType;
     Priority := priority;
     Status := StatusPending;
     Payload := payload;
     MaxRetries := 3;
     RetryCount := 0;
     CreatedAt := now;
     StartedAt := None;
     CompletedAt := None;
     Error := "";
     WorkerID := "" |}.

(** The JSON object [json.Marshal] writes for a [Task], member by member.
    A member tagged [omitempty] is [None] when it is absent. *)
Record Wire : Type := mkWire {
  w_id : string;
  w_type : string;
  w_priority : Z;
  w_status : string;
  w_payload : option (list (string * JSON));
  w_max_retries : Z;
  w_retry_count : Z;
  w_created_at : Z;
  w_started_at : option Z;
  w_completed_at : option Z;
  w_error : option string;
  w_worker_id : option string
}.

Definition omitempty (s : string) : option string :=
  if String.eqb s "" then None else Some s.

Definition marshalPayload (p : option (list (string * GoValue)))
    : option (option (list (string * JSON))) :=
  match p with
  | None => Some None
  | Some m => Some <$> marshalMap m
  end.

Definition marshalTimePtr (p : option Time) : option (option Z) :=
  match p with
  | None => Some None
  | Some t => if timeMarshalable t then Some (Some t) else None
  end.

Definition ToJSON (t : Task) : option Wire :=
  match marshalPayload (Payload t), timeMarshalable (CreatedAt t),
        marshalTimePtr (StartedAt t), marshalTimePtr (CompletedAt t) with
  | Some p, true, Some st, Some ct =>
      Some {| w_id := ID t;
              w_type := Type_ t;
              w_priority := Priority t;
              w_status := Status t;
              w_payload := p;
              w_max_retries := MaxRetries t;
              w_retry_count := RetryCount t;
              w_created_at := CreatedAt t;
              w_started_at := st;
              w_completed_at := ct;
              w_error := omitempty (Error t);
              w_worker_id := omitempty (WorkerID t) |}
  | _, _, _, _ => None
  end.

Definition FromJSON (data : Wire) : option Task :=
  Some {| ID := w_id data;
          Type_ := w_type data;
          Priority := w_priority data;
          Status := w_status data;
          Payload := unmarshalMap <$> w_payload data;
          MaxRetries := w_max_retries data;
          RetryCount := w_retry_count data;
          CreatedAt := w_created_at data;
          StartedAt := w_started_at data;
          CompletedAt := w_completed_at data;
          Error := default "" (w_error data);
          WorkerID := default "" (w_worker_id data) |}.

Definition CanRetry (t : Task) : bool := RetryCount t <? MaxRetries t.

Definition MarkStarted (now : Time) (workerID : string) (t : Task) : Task :=
  {| ID := ID t; Type_ := Type_ t; Priority := Priority t;
     Status := StatusProcessing;
     Payload := Payload t; MaxRetries := MaxRetries t;
     RetryCount := RetryCount t; CreatedAt := CreatedAt t;
     StartedAt := Some now;
     CompletedAt := CompletedAt t; Error := Error t;
     WorkerID := workerID |}.

Definition MarkCompleted (now : Time) (t : Task) : Task :=
  {| ID := ID t; Type_ := Type_ t; Priority := Priority t;
     Status := StatusCompleted;
     Payload := Payload t; MaxRetries := MaxRetries t;
     RetryCount := RetryCount t; CreatedAt := CreatedAt t;
     StartedAt := StartedAt t;
     CompletedAt := Some now;
     Error := Error t; WorkerID := WorkerID t |}.

(** [err] is the text of the Go error, [err.Error()]. *)
Definition MarkFailed (now : Time) (err : string) (t : Task) : Task :=
  {| ID := ID t; Type_ := Type_ t; Priority := Priority t;
     Status := StatusFailed;
     Payload := Payload t; MaxRetries := MaxRetries t;
     RetryCount := RetryCount t; CreatedAt := CreatedAt t;
     StartedAt := StartedAt t;
     CompletedAt := Some now;
     Error := err; WorkerID := WorkerID t |}.

Definition MarkRetrying (t : Task) : Task :=
  {| ID := ID t; Type_ := Type_ t; Priority := Priority t;
     Status := StatusRetrying;
     Payload := Payload t; MaxRetries := MaxRetries t;
     RetryCount := wrap64 (RetryCount t + 1);
     CreatedAt := CreatedAt t; StartedAt := StartedAt t;
     CompletedAt := CompletedAt t; Error := Error t;
     WorkerID := WorkerID t |}.

(** The copy both [MemoryStorage.SaveTask] and [MemoryStorage.GetTask] make:
    [data, _ := json.Marshal(t); json.Unmarshal(data, &taskCopy)], both
    errors dropped.  When [Marshal] fails [data] is nil, [Unmarshal] fails
    on it and [taskCopy] keeps its zero value. *)
Definition jsonCopy (t : Task) : Task :=
  match ToJSON t with
  | Some data => default zeroTask (FromJSON data)
  | None => zeroTask
  end.

End task.

(** ** The Redis commands [storage.go] issues

    One keyspace of string values and one of sorted sets.  The two key
    families of the storage, ["task:<id>"] and ["tasks:status:<status>"],
    differ at their fifth character, so a key never changes kind.  The
    24 h expiry of the string keys and connection failures are not
    modelled: every command succeeds.  A score is a double in Redis; the
    scores written here are integers, kept in [Z] (exact while they stay
    below 2^53 in magnitude). *)

Module redis.

Record Client : Type := mkClient {
  strings : gmap string task.Wire;
  zsets : gmap string (gmap string Z)
}.

Definition empty : Client := mkClient ∅ ∅.

Definition Set_ (key : string) (value : task.Wire) (c : Client) : Client :=
  mkClient (<[key := value]> (strings c)) (zsets c).

(** [None] is [redis.Nil]. *)
Definition Get (key : string) (c : Client) : option task.Wire :=
  strings c !! key.

Definition Del (key : string) (c : Client) : Client :=
  mkClient (delete key (strings c)) (delete key (zsets c)).

Definition ZAdd (key : string) (score : Z) (member : string) (c : Client) : Client :=
  mkClient (strings c)
           (<[key := <[member := score]> (default ∅ (zsets c !! key))]> (zsets c)).

(** A sorted set that loses its last member is removed. *)
Definition ZRem (key : string) (member : string) (c : Client) : Client :=
  match zsets c !! key with
  | None => c
  | Some z =>
      let z' := delete member z in
      mkClient (strings c)
               (if decide (z' = ∅) then delete key (zsets c)
                else <[key := z']> (zsets c))
  end.

(** The order of [ZREVRANGE]: higher score first, equal scores in
    descending lexicographic order of the members. *)
Definition zrev (a b : string * Z) : Prop :=
  snd b < snd a ∨ (snd a = snd b ∧ String.le (fst b) (fst a)).

#[global] Instance zrev_dec : RelDecision zrev.
Proof. intros a b. unfold zrev. apply _. Defined.

(** [ZREVRANGE key 0 stop]: a negative [stop] counts from the end. *)
Definition ZRevRange (key : string) (stop : Z) (c : Client) : list string :=
  let members := merge_sort zrev (map_to_list (default ∅ (zsets c !! key))) in
  let llen := Z.of_nat (length members) in
  let stop := if stop <? 0 then llen + stop else stop in
  if stop <? 0 then [] else (take (Z.to_nat (stop + 1)) members).*1.

End redis.

(** ** storage.go *)

Module storage.
Import task.

(** A Go [error], by its text; [None] is [nil]. *)
Abbreviation error := (option string).

(** [type Storage interface] (without [Close]), over an explicit state. *)
Class Storage (S : Type) : Type := {
  SaveTask : S → Task → S * error;
  GetTask : S → string → Task + string;
  UpdateTask : S → Task → S * error;
  DeleteTask : S → string → S * error;
  GetTasksByStatus : S → Status_t → Z → list Task + string
}.

(** *** RedisStorage *)

Record RedisStorage : Type := mkRedisStorage { client : redis.Client }.

Definition taskKey (id : string) : string := "task:" ++ id.
Definition statusKey (status : Status_t) : string := "tasks:status:" ++ status.

(** [float64(t.Priority)*1000000 + float64(t.CreatedAt.Unix())], on the
    integers. *)
Definition score (t : Task) : Z := Priority t * 1000000 + Unix (CreatedAt t).

(** The text [json.Marshal] adds to "failed to serialize task" is not
    reproduced. *)
Definition RedisStorage_SaveTask (r : RedisStorage) (t : Task) : RedisStorage * error :=
  match ToJSON t with
  | None => (r, Some "failed to serialize task")
  | Some data =>
      let c := redis.Set_ (taskKey (ID t)) data (client r) in
      let c := redis.ZAdd (statusKey (Status t)) (score t) (ID t) c in
      (mkRedisStorage c, None)
  end.

Definition RedisStorage_GetTask (r : RedisStorage) (id : string) : Task + string :=
  match redis.Get (taskKey id) (client r) with
  | None => inr ("task not found: " ++ id)
  | Some data =>
      match FromJSON data with
      | Some t => inl t
      | None => inr "invalid task record"
      end
  end.

Definition RedisStorage_UpdateTask (r : RedisStorage) (t : Task) : RedisStorage * error :=
  match RedisStorage_GetTask r (ID t) with
  | inr err => (r, Some err)
  | inl oldTask =>
      let r :=
        if negb (String.eqb (Status oldTask) (Status t))
        then mkRedisStorage (redis.ZRem (statusKey (Status oldTask)) (ID t) (client r))
        else r in
      RedisStorage_SaveTask r t
  end.

Definition RedisStorage_DeleteTask (r : RedisStorage) (id : string) : RedisStorage * error :=
  match RedisStorage_GetTask r id with
  | inr err => (r, Some err)
  | inl t =>
      let c := redis.Del (taskKey id) (client r) in
      let c := redis.ZRem (statusKey (Status t)) id c in
      (mkRedisStorage c, None)
  end.

(** The loop over the ids: a task that cannot be retrieved is skipped. *)
Fixpoint RedisStorage_collect (r : RedisStorage) (ids : list string) : list Task :=
  match ids with
  | [] => []
  | id :: ids =>
      match RedisStorage_GetTask r id with
      | inr _ => RedisStorage_collect r ids
      | inl t => t :: RedisStorage_collect r ids
      end
  end.

Definition RedisStorage_GetTasksByStatus (r : RedisStorage) (status : Status_t)
    (limit : Z) : list Task + string :=
  let ids := redis.ZRevRange (statusKey status) (wrap64 (limit - 1)) (client r) in
  inl (RedisStorage_collect r ids).

#[global] Instance RedisStorage_Storage : Storage RedisStorage := {|
  SaveTask := RedisStorage_SaveTask;
  GetTask := RedisStorage_GetTask;
  UpdateTask := RedisStorage_UpdateTask;
  DeleteTask := RedisStorage_DeleteTask;
  GetTasksByStatus := RedisStorage_GetTasksByStatus
|}.

(** *** MemoryStorage

    [tasks] is the Go map [map[string]*task.Task], kept as the list of its
    bindings in the order a [range] over it visits them.  Go leaves that
    order unspecified, so every list with distinct keys is a possible
    map; an assignment to a new key is placed last here. *)

Record MemoryStorage : Type := mkMemoryStorage { tasks : list (string * Task) }.

Definition NewMemoryStorage : MemoryStorage := mkMemoryStorage [].

Fixpoint mapAssign (k : string) (v : Task) (m : list (string * Task))
    : list (string * Task) :=
  match m with
  | [] => [(k, v)]
  | (k', v') :: m' =>
      if String.eqb k k' then (k, v) :: m' else (k', v') :: mapAssign k v m'
  end.

Fixpoint mapIndex (k : string) (m : list (string * Task)) : option Task :=
  match m with
  | [] => None
  | (k', v') :: m' => if String.eqb k k' then Some v' else mapIndex k m'
  end.

Definition mapDelete (k : string) (m : list (string * Task)) : list (string * Task) :=
  filter (λ kv, fst kv ≠ k) m.

Definition MemoryStorage_SaveTask (m : MemoryStorage) (t : Task) : MemoryStorage * error :=
  (mkMemoryStorage (mapAssign (ID t) (jsonCopy t) (tasks m)), None).

Definition MemoryStorage_GetTask (m : MemoryStorage) (id : string) : Task + string :=
  match mapIndex id (tasks m) with
  | None => inr ("task not found: " ++ id)
  | Some t => inl (jsonCopy t)
  end.

Definition MemoryStorage_UpdateTask (m : MemoryStorage) (t : Task) : MemoryStorage * error :=
  MemoryStorage_SaveTask m t.

Definition MemoryStorage_DeleteTask (m : MemoryStorage) (id : string) : MemoryStorage * error :=
  (mkMemoryStorage (mapDelete id (tasks m)), None).

(** The [range] loop, [acc] being the slice [tasks] built so far.  The
    stored tasks themselves are returned, not copies. *)
Fixpoint MemoryStorage_range (status : Status_t) (limit : Z)
    (m : list (string * Task)) (acc : list Task) : list Task :=
  match m with
  | [] => acc
  | (_, t) :: m' =>
      if String.eqb (Status t) status then
        let acc := (acc ++ [t])%list in
        if limit <=? Z.of_nat (length acc) then acc
        else MemoryStorage_range status limit m' acc
      else MemoryStorage_range status limit m' acc
  end.

Definition MemoryStorage_GetTasksByStatus (m : MemoryStorage) (status : Status_t)
    (limit : Z) : list Task + string :=
  inl (MemoryStorage_range status limit (tasks m) []).

#[global] Instance MemoryStorage_Storage : Storage MemoryStorage := {|
  SaveTask := MemoryStorage_SaveTask;
  GetTask := MemoryStorage_GetTask;
  UpdateTask := MemoryStorage_UpdateTask;
  DeleteTask := MemoryStorage_DeleteTask;
  GetTasksByStatus := MemoryStorage_GetTasksByStatus
|}.

End storage.

(** ** metrics.go

    The Prometheus collectors, each label vector a map from its label
    values to the current value (an absent child reads 0).  The
    histogram keeps the observed durations, in nanoseconds. *)

Module metrics.

Record Registry : Type := mkRegistry {
  TasksSubmitted : gmap (string * string) Z;
  TasksProcessed : gmap (string * string) Z;
  TaskDuration : gmap string (list Z);
  QueueSize : gmap string Z;
  WorkersActive : Z;
  TaskRetries : gmap string Z
}.

Definition empty : Registry := mkRegistry ∅ ∅ ∅ ∅ 0 ∅.

Definition value {K} `{Countable K} (labels : K) (vec : gmap K Z) : Z :=
  default 0 (vec !! labels).

Definition Inc {K} `{Countable K} (labels : K) (vec : gmap K Z) : gmap K Z :=
  <[labels := value labels vec + 1]> vec.

Definition Dec {K} `{Countable K} (labels : K) (vec : gmap K Z) : gmap K Z :=
  <[labels := value labels vec - 1]> vec.

Definition Observe (label : string) (v : Z) (vec : gmap string (list Z))
    : gmap string (list Z) :=
  <[label := (default [] (vec !! label) ++ [v])%list]> vec.

End metrics.

(** ** queue.go *)

Module queue.
Import task storage.

(** A handler is a Go closure: beside the task it sees its own captured
    state, here the number of times the handler of that task type has
    been invoked before.  It returns [nil] or an error, given by its
    text.  Handlers do not write to the task. *)
Abbreviation TaskHandler := (nat → Task → error).

(** The buffered channels are made with capacity 100. *)
Definition channelCapacity : nat := 100.

Section Queue.
Context {S : Type} `{Storage S}.

(** [Queue], followed by the process state its methods reach: the
    metrics registry, the wall clock and the handlers' invocation
    counts. *)
Record Queue : Type := mkQueue {
  storage : S;
  handlers : gmap string TaskHandler;
  taskChannels : gmap Z (list Task);
  registry : metrics.Registry;
  clock : Time;
  invocations : gmap string nat
}.

Definition withStorage (s : S) (q : Queue) : Queue :=
  mkQueue s (handlers q) (taskChannels q) (registry q) (clock q) (invocations q).

Definition withHandlers (h : gmap string TaskHandler) (q : Queue) : Queue :=
  mkQueue (storage q) h (taskChannels q) (registry q) (clock q) (invocations q).

Definition withChannels (c : gmap Z (list Task)) (q : Queue) : Queue :=
  mkQueue (storage q) (handlers q) c (registry q) (clock q) (invocations q).

Definition withRegistry (r : metrics.Registry) (q : Queue) : Queue :=
  mkQueue (storage q) (handlers q) (taskChannels q) r (clock q) (invocations q).

Definition withClock (now : Time) (q : Queue) : Queue :=
  mkQueue (storage q) (handlers q) (taskChannels q) (registry q) now (invocations q).

Definition withInvocations (n : gmap string nat) (q : Queue) : Queue :=
  mkQueue (storage q) (handlers q) (taskChannels q) (registry q) (clock q) n.

(** [registry], [now] stand for the process state at the time of the call. *)
Definition NewQueue (store : S) (registry : metrics.Registry) (now : Time) : Queue :=
  {| storage := store;
     handlers := ∅;
     taskChannels :=
       <[PriorityCritical := []]> (<[PriorityHigh := []]>
         (<[PriorityMedium := []]> (<[PriorityLow := []]> ∅)));
     registry := registry;
     clock := now;
     invocations := ∅ |}.

Definition RegisterHandler (taskType : string) (handler : TaskHandler) (q : Queue) : Queue :=
  withHandlers (<[taskType := handler]> (handlers q)) q.

(** [select { case ch <- t: default: }] on [q.taskChannels[t.Priority]]:
    the send happens when the buffer has room; a priority without a
    channel indexes a nil channel, which is never ready. *)
Definition trySend (chans : gmap Z (list Task)) (t : Task) : option (gmap Z (list Task)) :=
  match chans !! Priority t with
  | Some buf =>
      if (length buf <? channelCapacity)%nat
      then Some (<[Priority t := (buf ++ [t])%list]> chans)
      else None
  | None => None
  end.

Definition Submit (q : Queue) (t : Task) : Queue * error :=
  match SaveTask (storage q) t with
  | (s, Some err) => (withStorage s q, Some ("failed to save task: " ++ err))
  | (s, None) =>
      let q := withStorage s q in
      let r := registry q in
      let r := metrics.mkRegistry
                 (metrics.Inc (Type_ t, Sprintf_d (Priority t)) (metrics.TasksSubmitted r))
                 (metrics.TasksProcessed r) (metrics.TaskDuration r)
                 (metrics.Inc (Sprintf_d (Priority t)) (metrics.QueueSize r))
                 (metrics.WorkersActive r) (metrics.TaskRetries r) in
      let q := withRegistry r q in
      match trySend (taskChannels q) t with
      | Some chans => (withChannels chans q, None)
      | None => (q, None)
      end
  end.

Definition Queue_GetTask (q : Queue) (id : string) : Task + string :=
  GetTask (storage q) id.

(** [q.storage.UpdateTask(ctx, t)] with the error logged or dropped. *)
Definition updateTask (t : Task) (q : Queue) : Queue :=
  withStorage (fst (UpdateTask (storage q) t)) q.

Definition incProcessed (taskType status : string) (q : Queue) : Queue :=
  let r := registry q in
  withRegistry
    (metrics.mkRegistry (metrics.TasksSubmitted r)
       (metrics.Inc (taskType, status) (metrics.TasksProcessed r))
       (metrics.TaskDuration r) (metrics.QueueSize r)
       (metrics.WorkersActive r) (metrics.TaskRetries r)) q.

Definition incRetries (taskType : string) (q : Queue) : Queue :=
  let r := registry q in
  withRegistry
    (metrics.mkRegistry (metrics.TasksSubmitted r) (metrics.TasksProcessed r)
       (metrics.TaskDuration r) (metrics.QueueSize r)
       (metrics.WorkersActive r) (metrics.Inc taskType (metrics.TaskRetries r))) q.

(** The two updates after the handler returns:
    [TaskDuration.Observe] and [QueueSize.Dec]. *)
Definition afterHandler (t : Task) (duration : Z) (q : Queue) : Queue :=
  let r := registry q in
  withRegistry
    (metrics.mkRegistry (metrics.TasksSubmitted r) (metrics.TasksProcessed r)
       (metrics.Observe (Type_ t) duration (metrics.TaskDuration r))
       (metrics.Dec (Sprintf_d (Priority t)) (metrics.QueueSize r))
       (metrics.WorkersActive r) (metrics.TaskRetries r)) q.

(** [time.Sleep(d)], [d] in nanoseconds: returns at once when [d <= 0]. *)
Definition Sleep (d : Z) (q : Queue) : Queue :=
  withClock (clock q + Z.max 0 d) q.

(** How a call of [processTask] ends: it returns, or it stays blocked in
    [q.taskChannels[t.Priority] <- t] because the buffer is full (or the
    channel nil) and nothing else runs in this model. *)
Inductive outcome : Type :=
  | Returned (q : Queue) (t : Task)
  | Blocked (q : Queue) (t : Task).

Definition processTask (q : Queue) (t : Task) (workerID : string) : outcome :=
  let startTime := clock q in
  let t := MarkStarted (clock q) workerID t in
  let q := updateTask t q in
  match handlers q !! Type_ t with
  | None =>
      let t := MarkFailed (clock q) ("no handler for task type: " ++ Type_ t) t in
      let q := updateTask t q in
      let q := incProcessed (Type_ t) "failed" q in
      Returned q t
  | Some handler =>
      let calls := default 0%nat (invocations q !! Type_ t) in
      let err := handler calls t in
      let q := withInvocations (<[Type_ t := Datatypes.S calls]> (invocations q)) q in
      let duration := clock q - startTime in
      let q := afterHandler t duration q in
      match err with
      | Some msg =>
          if CanRetry t then
            let t := MarkRetrying t in
            let q := updateTask t q in
            let q := incRetries (Type_ t) q in
            let backoff := wrap64 (wrap64 (RetryCount t * RetryCount t) * 10 ^ 9) in
            let q := Sleep backoff q in
            match trySend (taskChannels q) t with
            | Some chans => Returned (withChannels chans q) t
            | None => Blocked q t
            end
          else
            let t := MarkFailed (clock q) msg t in
            let q := updateTask t q in
            let q := incProcessed (Type_ t) "failed" q in
            Returned q t
      | None =>
          let t := MarkCompleted (clock q) t in
          let q := updateTask t q in
          let q := incProcessed (Type_ t) "completed" q in
          Returned q t
      end
  end.

Definition workerName (priority : Priority_t) (workerID : Z) : string :=
  "worker-" ++ Sprintf_d priority ++ "-" ++ Sprintf_d workerID.

(** Where a worker stands when it is looked at. *)
Inductive workerState : Type :=
  | Waiting   (* in the select, its channel empty *)
  | Running   (* tasks left in its channel *)
  | Stuck.    (* blocked in the re-enqueue of a retry *)

(** The [for]/[select] loop of [worker] while neither [stopChan] nor
    [ctx.Done()] fires: it receives from the channel of its priority and
    calls [processTask].  [rounds] bounds the number of receives; the
    result holds the tasks as [processTask] left them, in order. *)
Fixpoint worker (rounds : nat) (q : Queue) (priority : Priority_t) (name : string)
    : Queue * list Task * workerState :=
  match taskChannels q !! priority with
  | Some (t :: buf) =>
      match rounds with
      | O => (q, [], Running)
      | Datatypes.S rounds =>
          match processTask (withChannels (<[priority := buf]> (taskChannels q)) q) t name with
          | Returned q t =>
              let '(q, done, st) := worker rounds q priority name in
              (q, t :: done, st)
          | Blocked q t => (q, [t], Stuck)
          end
      end
  | _ => (q, [], Waiting)
  end.

(** The loops of [pollPendingTasks]: one non-blocking send per task. *)
Fixpoint pollLoop (chans : gmap Z (list Task)) (tasks : list Task) : gmap Z (list Task) :=
  match tasks with
  | [] => chans
  | t :: tasks =>
      match trySend chans t with
      | Some chans => pollLoop chans tasks
      | None => pollLoop chans tasks
      end
  end.

Definition pollPendingTasks (q : Queue) : Queue :=
  match GetTasksByStatus (storage q) StatusPending 50 with
  | inr _ => q
  | inl tasks =>
      let q := withChannels (pollLoop (taskChannels q) tasks) q in
      match GetTasksByStatus (storage q) StatusRetrying 20 with
      | inl retryingTasks => withChannels (pollLoop (taskChannels q) retryingTasks) q
      | inr _ => q
      end
  end.

End Queue.

Arguments Queue S : clear implicits.

End queue.

(** ** server.go *)

Module api.
Import task storage queue.

(** The request body of [POST /api/v1/tasks] once decoded; an absent
    member holds the zero value of its type. *)
Record SubmitRequest : Type := mkSubmitRequest {
  req_Type : string;
  req_Priority : Z;
  req_Payload : option (list (string * GoValue));
  req_MaxRetries : Z
}.

(** What [respondJSON] writes: the status code and a JSON object of
    strings. *)
Record Response : Type := mkResponse {
  code : Z;
  body : list (string * string)
}.

Definition StatusCreated : Z := 201.
Definition StatusBadRequest : Z := 400.
Definition StatusInternalServerError : Z := 500.

Definition respondJSON (status : Z) (data : list (string * string)) : Response :=
  mkResponse status data.

Definition respondError (status : Z) (message : string) : Response :=
  respondJSON status [("error", message)].

Definition setMaxRetries (n : Z) (t : Task) : Task :=
  {| ID := ID t; Type_ := Type_ t; Priority := Priority t; Status := Status t;
     Payload := Payload t; MaxRetries := n; RetryCount := RetryCount t;
     CreatedAt := CreatedAt t; StartedAt := StartedAt t;
     CompletedAt := CompletedAt t; Error := Error t; WorkerID := WorkerID t |}.

(** The task the handler builds from a request that passed the checks. *)
Definition requestTask (uuid : string) (now : Time) (req : SubmitRequest) : Task :=
  let priority := req_Priority req in
  let priority :=
    if (priority <? PriorityLow) || (PriorityCritical <? priority)
    then PriorityMedium else priority in
  let t := NewTask uuid now (req_Type req) priority (req_Payload req) in
  if 0 <? req_MaxRetries req then setMaxRetries (req_MaxRetries req) t else t.

(** [decoded] is [None] when [json.NewDecoder(r.Body).Decode(&req)]
    fails; [uuid] is the identifier [uuid.New()] draws. *)
Definition handleSubmitTask {S} `{Storage S} (q : Queue S) (uuid : string)
    (decoded : option SubmitRequest) : Queue S * Response :=
  match decoded with
  | None => (q, respondError StatusBadRequest "invalid request body")
  | Some req =>
      if String.eqb (req_Type req) ""
      then (q, respondError StatusBadRequest "task type is required")
      else
        let t := requestTask uuid (clock q) req in
        match Submit q t with
        | (q, Some _) => (q, respondError StatusInternalServerError "failed to submit task")
        | (q, None) =>
            (q, respondJSON StatusCreated [("task_id", ID t); ("status", "submitted")])
        end
  end.

End api.

(** ** Trajectories and predicates the statements use *)

Module props.
Import task storage queue api.

(** The states a task object goes through: it is made by [NewTask], or
    by the HTTP handler from a decoded request (whose [max_retries] is a
    Go [int]), and then only the four lifecycle operations touch it,
    [MarkRetrying] under the [CanRetry] test as in [processTask]. *)
Inductive lifecycle : Task → Prop :=
  | lc_NewTask uuid now taskType priority payload :
      lifecycle (NewTask uuid now taskType priority payload)
  | lc_request uuid now req :
      isInt64 (req_MaxRetries req) = true →
      lifecycle (requestTask uuid now req)
  | lc_MarkStarted now workerID t :
      lifecycle t → lifecycle (MarkStarted now workerID t)
  | lc_MarkCompleted now t :
      lifecycle t → lifecycle (MarkCompleted now t)
  | lc_MarkFailed now err t :
      lifecycle t → lifecycle (MarkFailed now err t)
  | lc_MarkRetrying t :
      lifecycle t → CanRetry t = true → lifecycle (MarkRetrying t).

Definition terminal (t : Task) : Prop :=
  Status t = StatusCompleted ∨ Status t = StatusFailed.

(** A payload [json.Unmarshal] could have produced. *)
Definition nativePayload (p : option (list (string * GoValue))) : bool :=
  match p with
  | None => true
  | Some m => forallb (λ kv, jsonNative (snd kv)) m
  end.

Definition timesMarshalable (t : Task) : bool :=
  timeMarshalable (CreatedAt t)
  && from_option timeMarshalable true (StartedAt t)
  && from_option timeMarshalable true (CompletedAt t).

(** [member] is in the Redis sorted set at [key] with score [sc]. *)
Definition entry (c : redis.Client) (key member : string) (sc : Z) : Prop :=
  ∃ z, redis.zsets c !! key = Some z ∧ z !! member = Some sc.

(** The status index of a [RedisStorage] agrees with its records: every
    member of a sorted set is the id of a stored task, filed under the
    key of that task's status with that task's score. *)
Definition indexed (r : RedisStorage) : Prop :=
  ∀ key id sc, entry (client r) key id sc →
    ∃ t, RedisStorage_GetTask r id = inl t ∧
         key = statusKey (Status t) ∧ sc = score t.

(** Ordered by descending scheduling score, the score being
    [priority * 10^6 + created_at_unix]. *)
Definition descending (ts : list Task) : Prop :=
  StronglySorted (λ a b, score b <= score a) ts.

(** What [ZREVRANGE key 0 stop WITHSCORES] would return. *)
Definition ZRevRangeWithScores (key : string) (stop : Z) (c : redis.Client)
    : list (string * Z) :=
  let members :=
    merge_sort redis.zrev (map_to_list (default ∅ (redis.zsets c !! key))) in
  let llen := Z.of_nat (length members) in
  let stop := if stop <? 0 then llen + stop else stop in
  if stop <? 0 then [] else take (Z.to_nat (stop + 1)) members.

End props.


(** ** Concrete tasks, stores and queues the statements are checked on *)

Module examples.
Import task storage queue api.

Definition t0 : Time := 1700000000 * 10 ^ 9.

Definition lowTask : Task := NewTask "low-1" t0 "test_task" PriorityLow None.
Definition highTask : Task := NewTask "high-1" t0 "test_task" PriorityHigh None.

(** A task of the benchmark: its payload holds a Go [int]. *)
Definition benchTask : Task :=
  NewTask "b7" t0 "benchmark_task" PriorityMedium
    (Some [("key1", VString "value1"); ("key2", VInt 12345)]).

(** A task as a worker sees it after one attempt, with a payload as the
    HTTP surface decodes it. *)
Definition startedTask : Task :=
  MarkStarted (t0 + 10 ^ 9) "worker-1-0"
    (NewTask "b8" t0 "send_email" PriorityMedium
       (Some [("recipient", VString "user@example.com");
              ("tags", VSlice [VBool true; VNil])])).

Definition retriedTask : Task :=
  MarkRetrying (MarkStarted (t0 + 10 ^ 9) "worker-2-0" highTask).


(** As in the test of exhausted retries: [testTask.MaxRetries = 2]. *)
Definition twoRetriesTask : Task := setMaxRetries 2 highTask.

Definition emptyTypeTask : Task := NewTask "e-1" t0 "" PriorityMedium None.

(** Both tasks saved, the low-priority one first. *)
Definition twoInMemory : MemoryStorage :=
  fst (SaveTask (fst (SaveTask NewMemoryStorage lowTask)) highTask).

Definition twoInRedis : RedisStorage :=
  fst (SaveTask (fst (SaveTask (mkRedisStorage redis.empty) lowTask)) highTask).

(** Both tasks saved, the high-priority one first. *)
Definition highFirst : MemoryStorage :=
  fst (SaveTask (fst (SaveTask NewMemoryStorage highTask)) lowTask).

Definition freshQueue : Queue MemoryStorage :=
  NewQueue NewMemoryStorage metrics.empty t0.

(** The handlers of the tests. *)
Definition succeeds : TaskHandler := λ _ _, None.
Definition failsOnce : TaskHandler :=
  λ calls _, if (calls =? 0)%nat then Some "temporary failure" else None.
Definition alwaysFails : TaskHandler := λ _ _, Some "permanent failure".

Definition succeedingQueue : Queue MemoryStorage :=
  RegisterHandler "test_task" succeeds freshQueue.

(** A queue over [highFirst] whose High channel is full. *)
Definition highChannelFull : Queue MemoryStorage :=
  let q := NewQueue highFirst metrics.empty t0 in
  withChannels (<[PriorityHigh := replicate 100 highTask]> (taskChannels q)) q.

(** Requests of the HTTP surface. *)
Definition outOfRangeRequest : SubmitRequest :=
  mkSubmitRequest "send_email" 7 None (-1).
Definition plainRequest : SubmitRequest :=
  mkSubmitRequest "send_email" 2 None 5.

End examples.

(** ** queue.go: GetStats *)

Module stats.
Import task storage queue.

(** The keys of the map literal [GetStats] ranges over. *)
Definition reported : list Status_t :=
  [StatusPending; StatusProcessing; StatusCompleted; StatusFailed].

Section Stats.
Context {S : Type} `{Storage S}.

(** The [range] loop, [order] being the keys still to visit and [stats]
    the map built so far; the first failing query ends it. *)
Fixpoint statsLoop (store : S) (order : list Status_t) (stats : gmap string Z)
    : gmap string Z + string :=
  match order with
  | [] => inl stats
  | status :: order =>
      match GetTasksByStatus store status 1000 with
      | inr err => inr err
      | inl tasks =>
          statsLoop store order (<[status := Z.of_nat (length tasks)]> stats)
      end
  end.

(** [order] is the order in which the [range] visits the four keys of
    the literal; Go leaves it unspecified. *)
Definition GetStats (order : list Status_t) (q : Queue S) : gmap string Z + string :=
  statsLoop (storage q) order ∅.

End Stats.
End stats.

(** ** server.go: the read handlers *)

Module api_read.
Import task storage queue api stats.

(** What [respondJSON] encodes: an object of strings, a task (nothing is
    written when the encoder fails), the statistics, or the listing. *)
Inductive Body : Type :=
  | BodyObject (m : list (string * string))
  | BodyTask (data : option Wire)
  | BodyStats (m : gmap string Z)
  | BodyList (tasks : list Task) (total : Z) (limit : Z) (status : Status_t).

Record Reply : Type := mkReply {
  reply_code : Z;
  reply_body : Body
}.

Definition StatusOK : Z := 200.
Definition StatusNotFound : Z := 404.

Definition replyError (status : Z) (message : string) : Reply :=
  mkReply status (BodyObject [("error", message)]).

(** [id] is [chi.URLParam(r, "id")]. *)
Definition handleGetTask {S} `{Storage S} (q : Queue S) (id : string) : Reply :=
  if String.eqb id "" then replyError StatusBadRequest "task ID is required"
  else
    match Queue_GetTask q id with
    | inr _ => replyError StatusNotFound "task not found"
    | inl t => mkReply StatusOK (BodyTask (ToJSON t))
    end.

(** [strconv.Atoi]: an optional sign, then one or more decimal digits,
    the value within the range of [int]; [None] is an error. *)
Definition Atoi (s : string) : option Z :=
  let parsed :=
    match s with
    | String "+"%char rest => option_map Decimal.Pos (NilZero.uint_of_string rest)
    | _ => NilZero.int_of_string s
    end in
  match parsed with
  | Some d => if isInt64 (Z.of_int d) then Some (Z.of_int d) else None
  | None => None
  end.

(** [statusParam] and [limitParam] are the query parameters, empty when
    absent. *)
Definition handleListTasks (statusParam limitParam : string) : Reply :=
  let limit :=
    if String.eqb limitParam "" then 10
    else
      match Atoi limitParam with
      | Some l => if (0 <? l) && (l <=? 100) then l else 10
      | None => 10
      end in
  let status := if String.eqb statusParam "" then StatusPending else statusParam in
  mkReply StatusOK (BodyList [] 0 limit status).

Definition handleGetStats {S} `{Storage S} (order : list Status_t) (q : Queue S)
    : Reply :=
  match GetStats order q with
  | inr _ => replyError StatusInternalServerError "failed to get stats"
  | inl stats => mkReply StatusOK (BodyStats stats)
  end.

Definition handleHealth : Reply :=
  mkReply StatusOK (BodyObject [("status", "healthy")]).

End api_read.

(** ** Further inputs the statements are checked on *)

Module examples_more.
Import task storage queue api examples.

(** A payload [json.Marshal] refuses: it holds a NaN. *)
Definition nanTask : Task :=
  NewTask "nan-1" t0 "test_task" PriorityMedium (Some [("ratio", VFloat S754_nan)]).

(** [highTask] as a worker leaves it when its handler succeeded. *)
Definition highCompleted : Task :=
  MarkCompleted t0 (MarkStarted t0 "worker-2-0" highTask).

(** A queue whose handler for the tests' type always fails. *)
Definition failingQueue : Queue MemoryStorage :=
  RegisterHandler "test_task" alwaysFails freshQueue.

(** Two tasks waiting on the High channel of [succeedingQueue]. *)
Definition twoQueued : Queue MemoryStorage :=
  withChannels (<[PriorityHigh := [highTask; twoRetriesTask]]>
                  (taskChannels succeedingQueue)) succeedingQueue.

(** Queues over the stores that hold [lowTask] and [highTask]. *)
Definition storedQueue : Queue MemoryStorage :=
  NewQueue twoInMemory metrics.empty t0.
Definition redisQueue : Queue RedisStorage :=
  NewQueue twoInRedis metrics.empty t0.

Definition fiveRetriesTask : Task := setMaxRetries 5 lowTask.

End examples_more.
(** ** queue.go: the poller beside a worker

    [Start] launches the workers and the poller together.  A worker
    keeps a task it retries for the time of the back-off and sends it
    back when the sleep is over; a tick of the poller that falls into
    the sleep finds the record retrying in the store and sends it to the
    channel as well.  The runs on these definitions take such ticks
    after the round that contains the sleep: the channel then holds the
    worker's task and the poller's copies, which are equal tasks when
    the record is its own JSON copy, so that their order in the channel
    does not matter.

    What [MemoryStorage] hands to the poller is in Go a pointer to the
    stored object, the same one at every tick.  A round that settles a
    task (completed, or failed with no retry left) overwrites exactly
    the fields an earlier such round wrote (status, start and completion
    time, worker, error), so that processing the object again leaves the
    task that processing an equal value leaves. *)

Module ticker.
Import task storage queue.

Section Ticker.
Context {S : Type} `{Storage S}.

(** The [for]/[select] loop of [poller] while neither [stopChan] nor
    [ctx.Done()] fires: every firing of its one-second ticker runs
    [pollPendingTasks].  [ticks] is the number of firings. *)
Fixpoint poller (ticks : nat) (q : Queue S) : Queue S :=
  match ticks with
  | O => q
  | Datatypes.S ticks => poller ticks (pollPendingTasks q)
  end.

(** The queue after the next receive of the worker of [priority]: one
    call of [processTask], with its back-off when the task is retried. *)
Definition round (q : Queue S) (priority : Priority_t) (name : string) : Queue S :=
  fst (fst (worker 1 q priority name)).

End Ticker.
End ticker.

(** ** Queues of the retry tests *)

Module examples_ticks.
Import task storage queue api examples.

(** The queue of the test of exhausted retries: the handler of
    ["test_task"] always fails. *)
Definition exhaustingQueue : Queue MemoryStorage :=
  RegisterHandler "test_task" alwaysFails freshQueue.

(** The same over an empty [RedisStorage]. *)
Definition exhaustingRedisQueue : Queue RedisStorage :=
  RegisterHandler "test_task" alwaysFails
    (NewQueue (mkRedisStorage redis.empty) metrics.empty t0).

End examples_ticks.

(** * Proofs *)

Lemma wrap64_id z : minInt64 <= z <= maxInt64 → wrap64 z = z.
Proof.
  unfold wrap64, minInt64, maxInt64. intros Hz.
  rewrite Z.mod_small; lia.
Qed.

(** ** JSON values *)

Lemma GoValue_nested_ind (P : GoValue → Prop) :
  P VNil → (∀ b, P (VBool b)) → (∀ z, P (VInt z)) → (∀ f, P (VFloat f)) →
  (∀ s, P (VString s)) →
  (∀ l, Forall P l → P (VSlice l)) →
  (∀ m, Forall (λ kv, P (snd kv)) m → P (VMap m)) →
  ∀ v, P v.
Proof.
  intros Hnil Hbool Hint Hfloat Hstring Hslice Hmap.
  fix IH 1. intros [| b | z | f | s | l | m].
  - exact Hnil.
  - apply Hbool.
  - apply Hint.
  - apply Hfloat.
  - apply Hstring.
  - apply Hslice. induction l as [|v l IHl]; constructor; [apply IH | exact IHl].
  - apply Hmap. induction m as [|kv m IHm]; constructor; [apply IH | exact IHm].
Qed.

Lemma sequence_map_inverse {A B} (f : A → option B) (g : B → A) (l : list A) :
  Forall (λ x, ∃ y, f x = Some y ∧ g y = x) l →
  ∃ ys, sequence (map f l) = Some ys ∧ map g ys = l.
Proof.
  induction 1 as [|x l (y & Hy & Hg) _ (ys & Hys & Hgs)].
  - exists []. split; reflexivity.
  - exists (y :: ys). unfold sequence in *. simpl. rewrite Hy, Hys. simpl.
    split; [reflexivity | congruence].
Qed.

(** Encoding then decoding a JSON-native value gives the value back. *)
Lemma marshalValue_native v :
  jsonNative v = true →
  ∃ j, marshalValue v = Some j ∧ unmarshalValue j = v.
Proof.
  induction v as [| b | z | f | s | l IH | m IH] using GoValue_nested_ind;
    simpl; intros Hn; try discriminate; try (eexists; split; reflexivity).
  - rewrite Hn. eexists; split; reflexivity.
  - destruct (sequence_map_inverse marshalValue unmarshalValue l) as (js & Hjs & Hl).
    { rewrite List.forallb_forall in Hn. rewrite List.Forall_forall in IH.
      apply List.Forall_forall. intros v Hv. apply IH; auto. }
    exists (JArray js). rewrite Hjs. simpl. split; [reflexivity | congruence].
  - destruct (sequence_map_inverse
                (λ kv : string * GoValue, pair (fst kv) <$> marshalValue (snd kv))
                (λ kv : string * JSON, (fst kv, unmarshalValue (snd kv))) m)
      as (js & Hjs & Hl).
    { rewrite List.forallb_forall in Hn. rewrite List.Forall_forall in IH.
      apply List.Forall_forall. intros [k v] Hv. simpl.
      destruct (IH (k, v) Hv (Hn (k, v) Hv)) as (j & Hj & Hu).
      simpl in Hj, Hu. exists (k, j). rewrite Hj. simpl.
      split; [reflexivity | congruence]. }
    exists (JObject js). rewrite Hjs. simpl. split; [reflexivity | congruence].
Qed.

Lemma marshalMap_native m :
  forallb (λ kv, jsonNative (snd kv)) m = true →
  ∃ js, marshalMap m = Some js ∧ unmarshalMap js = m.
Proof.
  intros Hn.
  destruct (marshalValue_native (VMap m) Hn) as (j & Hj & Hu).
  simpl in Hj. fold (marshalMap m) in Hj.
  destruct (marshalMap m) as [js|]; [|discriminate].
  simpl in Hj. injection Hj as <-. simpl in Hu.
  exists js. split; [reflexivity|]. unfold unmarshalMap. congruence.
Qed.

(** ** task.go *)

Module task_facts.
Import task api props examples.

Lemma omitempty_default s : default "" (omitempty s) = s.
Proof.
  unfold omitempty. destruct (String.eqb_spec s ""); simpl; [subst|]; reflexivity.
Qed.

Lemma marshalTimePtr_Some p st : marshalTimePtr p = Some st → st = p.
Proof.
  destruct p as [t|]; simpl; [destruct (timeMarshalable t)|];
    intros Heq; inversion Heq; reflexivity.
Qed.

(** Whatever [ToJSON] manages to write, [FromJSON] reads back every
    attribute but the payload unchanged; the payload comes back decoded. *)
Lemma FromJSON_ToJSON_fields t data :
  ToJSON t = Some data →
  ∃ t', FromJSON data = Some t' ∧
    ID t' = ID t ∧ Type_ t' = Type_ t ∧ Priority t' = Priority t ∧
    Status t' = Status t ∧ MaxRetries t' = MaxRetries t ∧
    RetryCount t' = RetryCount t ∧ CreatedAt t' = CreatedAt t ∧
    StartedAt t' = StartedAt t ∧ CompletedAt t' = CompletedAt t ∧
    Error t' = Error t ∧ WorkerID t' = WorkerID t ∧
    Payload t' = unmarshalMap <$> w_payload data.
Proof.
  unfold ToJSON. intros Hto.
  destruct (marshalPayload (Payload t)) as [p|]; [|discriminate].
  destruct (timeMarshalable (CreatedAt t)); [|discriminate].
  destruct (marshalTimePtr (StartedAt t)) as [st|] eqn:Hst; [|discriminate].
  destruct (marshalTimePtr (CompletedAt t)) as [ct|] eqn:Hct; [|discriminate].
  apply marshalTimePtr_Some in Hst, Hct. subst st ct.
  injection Hto as <-. eexists. split; [reflexivity|]. simpl.
  rewrite !omitempty_default. repeat split; reflexivity.
Qed.

Lemma lifecycle_bounds t :
  lifecycle t → 0 <= RetryCount t <= MaxRetries t ∧ MaxRetries t <= maxInt64.
Proof.
  induction 1 as [| uuid now req Hreq | | | | t Ht IH Hcan]; simpl;
    try (unfold maxInt64; lia); try assumption.
  - unfold requestTask.
    unfold isInt64, minInt64, maxInt64 in Hreq.
    destruct (0 <? req_MaxRetries req) eqn:Hpos; simpl; unfold maxInt64; lia.
  - unfold CanRetry in Hcan. apply Z.ltb_lt in Hcan.
    rewrite wrap64_id; unfold minInt64, maxInt64 in *; lia.
Qed.

(** C3: on every trajectory of a task made by [NewTask] (or by the HTTP
    handler) and changed only by [MarkStarted], [MarkCompleted],
    [MarkFailed] and, when [CanRetry] holds, [MarkRetrying], the retry
    count never exceeds [max_retries]. *)
Theorem retry_count_bounded t :
  lifecycle t → RetryCount t <= MaxRetries t.
Proof. intros Ht. apply lifecycle_bounds in Ht. lia. Qed.

Lemma lifecycle_retriedTask : lifecycle retriedTask.
Proof.
  apply lc_MarkRetrying; [|reflexivity]. apply lc_MarkStarted, lc_NewTask.
Qed.

Lemma retry_count_bounded_witness :
  lifecycle retriedTask ∧ RetryCount retriedTask <= MaxRetries retriedTask.
Proof.
  split; [exact lifecycle_retriedTask|].
  exact (retry_count_bounded retriedTask lifecycle_retriedTask).
Defined.

(** The copy a store keeps of a task, and hands out, has the same
    counters, or is the zero task when the task cannot be serialised:
    the bound holds for the stored records too. *)
Lemma jsonCopy_counters t :
  jsonCopy t = zeroTask ∨
  (RetryCount (jsonCopy t) = RetryCount t ∧ MaxRetries (jsonCopy t) = MaxRetries t ∧
   Status (jsonCopy t) = Status t ∧ ID (jsonCopy t) = ID t).
Proof.
  unfold jsonCopy. destruct (ToJSON t) as [data|] eqn:Hdata; [|by left].
  destruct (FromJSON_ToJSON_fields t data Hdata)
    as (t' & Ht' & Hid & _ & _ & Hstatus & Hmax & Hcount & _).
  rewrite Ht'. simpl. right. by rewrite Hid, Hstatus, Hmax, Hcount.
Qed.

Lemma stored_retry_count_bounded t :
  lifecycle t → RetryCount (jsonCopy t) <= MaxRetries (jsonCopy t).
Proof.
  intros Ht. apply lifecycle_bounds in Ht.
  destruct (jsonCopy_counters t) as [-> | (-> & -> & _)]; [done | lia].
Qed.

(** [CanRetry] is the comparison of the two counters. *)
Lemma CanRetry_spec t : CanRetry t = true ↔ RetryCount t < MaxRetries t.
Proof. unfold CanRetry. apply Z.ltb_lt. Qed.

(** C9, refuted as stated: the integer 12345 of the payload comes back
    as the [float64] 12345, so the decoded task differs from the
    original. *)
Lemma roundtrip_payload_int_changes :
  ∃ data t', ToJSON benchTask = Some data ∧ FromJSON data = Some t' ∧
    Payload t' = Some [("key1", VString "value1");
                       ("key2", VFloat (float64_of_int 12345))] ∧
    t' ≠ benchTask.
Proof.
  eexists; eexists. split; [reflexivity|]. split; [reflexivity|].
  split; [vm_compute; reflexivity|].
  intros Heq. apply (f_equal Payload) in Heq. vm_compute in Heq. discriminate.
Qed.

(** C9, amended: a task whose payload holds JSON-native values only and
    whose timestamps lie in the years 0..9999 is serialised, and reading
    the wire form back gives a task equal to it in every attribute. *)
Theorem FromJSON_ToJSON t :
  nativePayload (Payload t) = true →
  timesMarshalable t = true →
  ∃ data, ToJSON t = Some data ∧ FromJSON data = Some t.
Proof.
  intros Hp Ht. unfold timesMarshalable in Ht.
  apply andb_prop in Ht as [Ht Hc]. apply andb_prop in Ht as [Hcr Hs].
  assert (∃ p, marshalPayload (Payload t) = Some p
               ∧ unmarshalMap <$> p = Payload t) as (p & Hmp & Hup).
  { destruct (Payload t) as [m|]; simpl in *.
    - destruct (marshalMap_native m Hp) as (js & Hjs & Hu).
      exists (Some js). rewrite Hjs. simpl. split; congruence.
    - exists None. split; reflexivity. }
  assert (marshalTimePtr (StartedAt t) = Some (StartedAt t)) as Hst.
  { destruct (StartedAt t); simpl in *; [rewrite Hs|]; reflexivity. }
  assert (marshalTimePtr (CompletedAt t) = Some (CompletedAt t)) as Hct.
  { destruct (CompletedAt t); simpl in *; [rewrite Hc|]; reflexivity. }
  unfold ToJSON. rewrite Hmp, Hcr, Hst, Hct.
  eexists. split; [reflexivity|].
  unfold FromJSON. simpl. rewrite Hup, !omitempty_default.
  destruct t; reflexivity.
Qed.

Lemma FromJSON_ToJSON_witness :
  nativePayload (Payload startedTask) = true ∧
  timesMarshalable startedTask = true ∧
  ∃ data, ToJSON startedTask = Some data ∧ FromJSON data = Some startedTask.
Proof.
  split; [reflexivity|]. split; [reflexivity|].
  apply (FromJSON_ToJSON startedTask); reflexivity.
Defined.

End task_facts.

(** ** The Redis model *)

Module redis_facts.
Import redis props.

Lemma entry_empty key member sc : ¬ entry empty key member sc.
Proof. intros (z & Hz & _). simpl in Hz. by rewrite lookup_empty in Hz. Qed.

Lemma entry_Set k v c key member sc :
  entry (Set_ k v c) key member sc ↔ entry c key member sc.
Proof. reflexivity. Qed.

Lemma entry_Del k c key member sc :
  entry (Del k c) key member sc → entry c key member sc.
Proof.
  intros (z & Hz & Hm). simpl in Hz.
  apply lookup_delete_Some in Hz as [_ Hz]. by exists z.
Qed.

Lemma entry_ZAdd k s m c key member sc :
  entry (ZAdd k s m c) key member sc ↔
  (key = k ∧ member = m ∧ sc = s) ∨
  ((key ≠ k ∨ member ≠ m) ∧ entry c key member sc).
Proof.
  unfold entry, ZAdd; simpl. split.
  - intros (z & Hz & Hm).
    destruct (decide (key = k)) as [->|Hk].
    + rewrite lookup_insert_eq in Hz. injection Hz as <-.
      destruct (decide (member = m)) as [->|Hne].
      * rewrite lookup_insert_eq in Hm. left. naive_solver.
      * rewrite lookup_insert_ne in Hm by done. right. split; [by right|].
        destruct (zsets c !! k) as [z0|]; simpl in Hm; [by exists z0|].
        by rewrite lookup_empty in Hm.
    + rewrite lookup_insert_ne in Hz by done. right. split; [by left|]. by exists z.
  - intros [(-> & -> & ->) | (Hne & z & Hz & Hm)].
    + eexists. rewrite lookup_insert_eq. split; [done|]. by rewrite lookup_insert_eq.
    + destruct (decide (key = k)) as [->|Hk].
      * eexists. rewrite lookup_insert_eq. split; [done|].
        destruct Hne as [?|Hne]; [done|].
        rewrite lookup_insert_ne by done. by rewrite Hz.
      * exists z. by rewrite lookup_insert_ne.
Qed.

Lemma entry_ZRem k m c key member sc :
  entry (ZRem k m c) key member sc ↔
  (key ≠ k ∨ member ≠ m) ∧ entry c key member sc.
Proof.
  unfold entry, ZRem.
  destruct (zsets c !! k) as [z0|] eqn:Hk; simpl.
  - split.
    + intros (z & Hz & Hm). case_decide as He.
      * apply lookup_delete_Some in Hz as [Hne Hz]. split; [by left|]. by exists z.
      * destruct (decide (key = k)) as [->|Hne].
        -- rewrite lookup_insert_eq in Hz. injection Hz as <-.
           apply lookup_delete_Some in Hm as [Hne Hm].
           split; [by right|]. by exists z0.
        -- rewrite lookup_insert_ne in Hz by done. split; [by left|]. by exists z.
    + intros (Hne & z & Hz & Hm). case_decide as He.
      * destruct (decide (key = k)) as [->|Hkk].
        -- destruct Hne as [?|Hne]; [done|].
           assert (z = z0) as -> by congruence.
           assert (delete m z0 !! member = Some sc) as Hd
             by by rewrite lookup_delete_ne.
           rewrite He in Hd. by rewrite lookup_empty in Hd.
        -- exists z. by rewrite lookup_delete_ne.
      * destruct (decide (key = k)) as [->|Hkk].
        -- destruct Hne as [?|Hne]; [done|].
           assert (z = z0) as -> by congruence.
           eexists. rewrite lookup_insert_eq. split; [done|].
           by rewrite lookup_delete_ne.
        -- exists z. by rewrite lookup_insert_ne.
  - split.
    + intros (z & Hz & Hm). split; [|by exists z].
      destruct (decide (key = k)) as [->|]; [congruence | by left].
    + intros (_ & He). exact He.
Qed.

#[global] Instance zrev_trans : Transitive zrev.
Proof.
  intros a b c [Hab | [Hab Hab']] [Hbc | [Hbc Hbc']]; unfold zrev.
  - left; lia.
  - left; lia.
  - left; lia.
  - right. split; [lia|]. by transitivity (fst b).
Qed.

#[global] Instance zrev_total : Total zrev.
Proof.
  intros a b. unfold zrev.
  destruct (Z.lt_trichotomy (snd a) (snd b)) as [Hlt | [Heq | Hgt]].
  - right. by left.
  - destruct (String.le_total (fst a) (fst b)).
    + right. right. by split.
    + left. right. by split.
  - left. by left.
Qed.

Lemma StronglySorted_take {A} (R : relation A) n l :
  StronglySorted R l → StronglySorted R (take n l).
Proof.
  intros Hl. revert n. induction Hl as [|x l Hl IH Hx]; intros [|n]; simpl;
    try constructor; auto.
  apply Forall_take. exact Hx.
Qed.

Lemma ZRevRange_members key stop c :
  ZRevRange key stop c = (ZRevRangeWithScores key stop c).*1.
Proof.
  unfold ZRevRange, ZRevRangeWithScores. simpl.
  repeat case_match; reflexivity.
Qed.

Lemma ZRevRangeWithScores_sorted key stop c :
  StronglySorted zrev (ZRevRangeWithScores key stop c).
Proof.
  unfold ZRevRangeWithScores. simpl.
  destruct (_ <? 0); [constructor|].
  apply StronglySorted_take, StronglySorted_merge_sort; apply _.
Qed.

Lemma ZRevRangeWithScores_entry key stop c member sc :
  (member, sc) ∈ ZRevRangeWithScores key stop c → entry c key member sc.
Proof.
  unfold ZRevRangeWithScores. simpl. intros Hin.
  assert ((member, sc) ∈ merge_sort zrev (map_to_list (default ∅ (zsets c !! key))))
    as Hm.
  { destruct (_ <? 0); [by apply elem_of_nil in Hin|].
    apply elem_of_take in Hin as (i & Hi & _).
    apply list_elem_of_lookup. by exists i. }
  rewrite merge_sort_Permutation in Hm.
  apply elem_of_map_to_list in Hm.
  unfold entry. destruct (zsets c !! key) as [z|]; simpl in Hm.
  - exists z. split; [reflexivity | exact Hm].
  - rewrite lookup_empty in Hm. discriminate.
Qed.

Lemma ZRevRangeWithScores_length key stop c :
  0 <= stop → Z.of_nat (length (ZRevRangeWithScores key stop c)) <= stop + 1.
Proof.
  intros Hs. unfold ZRevRangeWithScores. simpl.
  destruct (stop <? 0) eqn:Hneg; [apply Z.ltb_lt in Hneg; lia|].
  rewrite Hneg. rewrite length_take. lia.
Qed.

End redis_facts.

(** ** storage.go *)

Module storage_facts.
Import task storage props redis_facts task_facts.

Lemma taskKey_inj id id' : taskKey id = taskKey id' → id = id'.
Proof. unfold taskKey. apply (inj (String.append "task:")). Qed.

Lemma statusKey_inj s s' : statusKey s = statusKey s' → s = s'.
Proof. unfold statusKey. apply (inj (String.append "tasks:status:")). Qed.

(** The two key families never meet. *)
Lemma taskKey_statusKey id s : taskKey id ≠ statusKey s.
Proof.
  unfold taskKey, statusKey. simpl. intros Heq. simplify_eq.
Qed.

(** *** RedisStorage: the status index *)

Lemma GetTask_Set c key data id :
  RedisStorage_GetTask (mkRedisStorage (redis.Set_ (taskKey key) data c)) id =
    if decide (id = key)
    then match FromJSON data with Some t => inl t | None => inr "invalid task record" end
    else RedisStorage_GetTask (mkRedisStorage c) id.
Proof.
  unfold RedisStorage_GetTask, redis.Get. simpl.
  case_decide as Hid.
  - subst. by rewrite lookup_insert_eq.
  - rewrite lookup_insert_ne; [done|]. intros Heq. by apply taskKey_inj in Heq.
Qed.

Lemma GetTask_ZAdd c k s m id :
  RedisStorage_GetTask (mkRedisStorage (redis.ZAdd k s m c)) id =
    RedisStorage_GetTask (mkRedisStorage c) id.
Proof. reflexivity. Qed.

Lemma GetTask_ZRem c k m id :
  RedisStorage_GetTask (mkRedisStorage (redis.ZRem k m c)) id =
    RedisStorage_GetTask (mkRedisStorage c) id.
Proof.
  unfold RedisStorage_GetTask, redis.Get, redis.ZRem. simpl.
  destruct (redis.zsets c !! k); reflexivity.
Qed.

Lemma indexed_empty : indexed (mkRedisStorage redis.empty).
Proof. intros key id sc He. by apply entry_empty in He. Qed.

Lemma indexed_unique r key key' id sc sc' :
  indexed r → entry (client r) key id sc → entry (client r) key' id sc' →
  key = key'.
Proof.
  intros Hr He He'.
  destruct (Hr _ _ _ He) as (t & Ht & -> & _).
  destruct (Hr _ _ _ He') as (t' & Ht' & -> & _).
  congruence.
Qed.

(** [SaveTask] keeps the index right when the id has no entry under
    another status. *)
Lemma indexed_SaveTask_gen r t :
  indexed r →
  (∀ key sc, entry (client r) key (ID t) sc → key = statusKey (Status t)) →
  indexed (fst (RedisStorage_SaveTask r t)).
Proof.
  destruct r as [c]. intros Hr Hfresh. unfold RedisStorage_SaveTask.
  destruct (ToJSON t) as [data|] eqn:Hdata; [|exact Hr]. simpl.
  destruct (FromJSON_ToJSON_fields t data Hdata)
    as (t' & Ht' & _ & _ & Hprio & Hstatus & _ & _ & Hcreated & _).
  intros key id sc He. simpl in He.
  apply entry_ZAdd in He. rewrite GetTask_ZAdd, GetTask_Set.
  destruct He as [(-> & -> & ->) | (Hne & He)].
  - rewrite decide_True by done. rewrite Ht'. exists t'.
    split; [done|]. unfold score. rewrite Hstatus, Hprio, Hcreated. done.
  - apply entry_Set in He.
    case_decide as Hid.
    + subst id. pose proof (Hfresh _ _ He) as ->. by destruct Hne.
    + by apply Hr.
Qed.

Lemma indexed_SaveTask r t :
  indexed r →
  (∀ old, RedisStorage_GetTask r (ID t) = inl old → Status old = Status t) →
  indexed (fst (RedisStorage_SaveTask r t)).
Proof.
  intros Hr Hold. apply indexed_SaveTask_gen; [done|].
  intros key sc He. destruct (Hr _ _ _ He) as (old & Hget & -> & _).
  by rewrite (Hold _ Hget).
Qed.

Lemma indexed_UpdateTask r t :
  indexed r → indexed (fst (RedisStorage_UpdateTask r t)).
Proof.
  destruct r as [c]. intros Hr. unfold RedisStorage_UpdateTask.
  destruct (RedisStorage_GetTask _ (ID t)) as [old|err] eqn:Hget; [|exact Hr].
  destruct (String.eqb_spec (Status old) (Status t)) as [Heq|Hne]; simpl.
  - apply indexed_SaveTask; [done|]. intros old' Hold'. congruence.
  - apply indexed_SaveTask_gen.
    + intros key id sc He. simpl in He. apply entry_ZRem in He as [_ He].
      rewrite GetTask_ZRem. by apply Hr.
    + intros key sc He. simpl in He. apply entry_ZRem in He as [Hk He].
      destruct (Hr _ _ _ He) as (old' & Hget' & -> & _).
      assert (old' = old) as -> by congruence. by destruct Hk.
Qed.


(** *** RedisStorage.GetTasksByStatus *)

Lemma StronglySorted_Forall2 {A B} (R : relation A) (R' : relation B)
    (Q : A → B → Prop) l l' :
  (∀ a b a' b', R a b → Q a a' → Q b b' → R' a' b') →
  Forall2 Q l l' → StronglySorted R l → StronglySorted R' l'.
Proof.
  intros HR HQ. induction HQ as [|a a' l l' Ha HQ IH]; intros Hs.
  - constructor.
  - apply StronglySorted_inv in Hs as [Hs Hall]. constructor; [by apply IH|].
    clear IH Hs. induction HQ as [|b b' l l' Hb HQ IH]; [constructor|].
    apply Forall_cons in Hall as [Hab Hall]. constructor; [eauto | by apply IH].
Qed.

Lemma collect_indexed r status (es : list (string * Z)) :
  (∀ id sc, (id, sc) ∈ es → entry (client r) (statusKey status) id sc) →
  indexed r →
  Forall2 (λ e t, Status t = status ∧ score t = snd e) es
          (RedisStorage_collect r es.*1).
Proof.
  intros Hes Hr. induction es as [|[id sc] es IH]; simpl; [constructor|].
  destruct (Hr _ _ _ (Hes id sc ltac:(left))) as (t & Hget & Hkey & ->).
  rewrite Hget. apply statusKey_inj in Hkey. constructor; [done|].
  apply IH. intros id' sc' Hin. apply Hes. by right.
Qed.

Lemma RedisStorage_GetTasksByStatus_spec r status limit :
  indexed r → 1 <= limit <= maxInt64 →
  ∃ ts, RedisStorage_GetTasksByStatus r status limit = inl ts ∧
        Z.of_nat (length ts) <= limit ∧
        Forall (λ t, Status t = status) ts ∧
        descending ts.
Proof.
  intros Hr Hlimit. unfold RedisStorage_GetTasksByStatus.
  rewrite wrap64_id by (unfold minInt64, maxInt64 in *; lia).
  rewrite ZRevRange_members.
  set (es := ZRevRangeWithScores (statusKey status) (limit - 1) (client r)).
  assert (Forall2 (λ e t, Status t = status ∧ score t = snd e) es
                  (RedisStorage_collect r es.*1)) as Hcol.
  { apply collect_indexed; [|done].
    intros id sc Hin. by eapply ZRevRangeWithScores_entry. }
  eexists. split; [reflexivity|]. split; [|split].
  - rewrite <- (Forall2_length _ _ _ Hcol).
    pose proof (ZRevRangeWithScores_length (statusKey status) (limit - 1) (client r))
      as Hlen.
    fold es in Hlen. lia.
  - eapply Forall2_Forall_r; [exact Hcol|].
    apply Forall_forall. by intros e _ t [? _].
  - eapply (StronglySorted_Forall2 redis.zrev); [| exact Hcol |].
    + intros a b a' b' Hab [_ Ha] [_ Hb]. rewrite Ha, Hb.
      destruct Hab as [?|[? _]]; lia.
    + apply ZRevRangeWithScores_sorted.
Qed.

(** *** MemoryStorage.GetTasksByStatus *)

Lemma MemoryStorage_range_spec status limit m acc :
  Z.of_nat (length acc) < limit →
  MemoryStorage_range status limit m acc =
    take (Z.to_nat limit) (acc ++ filter (λ t, Status t = status) m.*2).
Proof.
  revert acc. induction m as [|[k t] m IH]; intros acc Hacc; simpl.
  - rewrite filter_nil, app_nil_r, take_ge; [done | lia].
  - rewrite filter_cons. destruct (String.eqb_spec (Status t) status) as [Heq|Hne].
    + rewrite decide_True by done.
      destruct (limit <=? Z.of_nat (length (acc ++ [t]))) eqn:Hfull.
      * apply Z.leb_le in Hfull. rewrite length_app in Hfull. simpl in Hfull.
        set (rest := filter _ _).
        change (acc ++ t :: rest)%list with (acc ++ [t] ++ rest)%list.
        rewrite app_assoc.
        rewrite take_app_le by (rewrite length_app; simpl; lia).
        rewrite take_ge; [done|]. rewrite length_app. simpl. lia.
      * apply Z.leb_gt in Hfull. rewrite IH by done.
        by rewrite <- app_assoc.
    + rewrite decide_False by done. by apply IH.
Qed.

Lemma MemoryStorage_GetTasksByStatus_spec m status limit :
  1 <= limit →
  ∃ ts, MemoryStorage_GetTasksByStatus m status limit = inl ts ∧
        ts = take (Z.to_nat limit) (filter (λ t, Status t = status) (tasks m).*2) ∧
        Z.of_nat (length ts) <= limit ∧
        Forall (λ t, Status t = status) ts.
Proof.
  intros Hlimit. unfold MemoryStorage_GetTasksByStatus.
  rewrite MemoryStorage_range_spec by (simpl; lia). simpl.
  eexists. split; [reflexivity|]. split; [reflexivity|]. split.
  - rewrite length_take. lia.
  - apply Forall_take. apply Forall_forall. intros t Ht.
    by apply list_elem_of_filter in Ht as [? _].
Qed.

End storage_facts.

Module storage_claims.
Import task storage props examples redis_facts task_facts storage_facts.

(** C1, refuted as stated: [MemoryStorage] returns the tasks in the
    order its map is visited.  With the low-priority task visited first
    the result is not in descending score order. *)
Lemma MemoryStorage_GetTasksByStatus_unordered :
  ∃ ts, GetTasksByStatus twoInMemory StatusPending 2 = inl ts ∧
        map ID ts = ["low-1"; "high-1"] ∧
        map score ts = [1700000000; 1702000000] ∧
        ¬ descending ts.
Proof.
  eexists. split; [reflexivity|]. split; [reflexivity|]. split; [reflexivity|].
  intros Hd. apply StronglySorted_inv in Hd as [_ Hd].
  apply Forall_cons in Hd as [Hd _]. vm_compute in Hd. by apply Hd.
Qed.

(** With a limit of 0 [MemoryStorage] still returns one task and
    [RedisStorage] returns every task of the status. *)
Lemma GetTasksByStatus_limit_zero :
  (∃ ts, GetTasksByStatus twoInMemory StatusPending 0 = inl ts ∧ length ts = 1%nat) ∧
  (∃ ts, GetTasksByStatus twoInRedis StatusPending 0 = inl ts ∧ length ts = 2%nat).
Proof. split; eexists; (split; [vm_compute; reflexivity | reflexivity]). Qed.

(** C1, amended: for a limit [n >= 1], [GetTasksByStatus(s, n)] returns
    at most [n] tasks, all with status [s].  [MemoryStorage] returns the
    first [n] such tasks in the iteration order of its map;
    [RedisStorage], on a status index that agrees with the records,
    returns them in descending score order. *)
Theorem GetTasksByStatus_limit_status_order
    (m : MemoryStorage) (r : RedisStorage) (status : Status_t) (limit : Z) :
  1 <= limit <= maxInt64 →
  indexed r →
  (∃ ts, GetTasksByStatus m status limit = inl ts ∧
         ts = take (Z.to_nat limit) (filter (λ t, Status t = status) (tasks m).*2) ∧
         Z.of_nat (length ts) <= limit ∧
         Forall (λ t, Status t = status) ts) ∧
  (∃ ts, GetTasksByStatus r status limit = inl ts ∧
         Z.of_nat (length ts) <= limit ∧
         Forall (λ t, Status t = status) ts ∧
         descending ts).
Proof.
  intros Hlimit Hr. split.
  - apply MemoryStorage_GetTasksByStatus_spec. lia.
  - by apply RedisStorage_GetTasksByStatus_spec.
Qed.

Lemma indexed_twoInRedis : indexed twoInRedis.
Proof.
  apply indexed_SaveTask; [apply indexed_SaveTask; [apply indexed_empty|]|];
    intros old Hold; vm_compute in Hold; discriminate.
Qed.

Lemma GetTasksByStatus_limit_status_order_witness :
  1 <= 2 <= maxInt64 ∧ indexed twoInRedis ∧
  (∃ ts, GetTasksByStatus twoInMemory StatusPending 2 = inl ts ∧
         ts = take (Z.to_nat 2)
                (filter (λ t, Status t = StatusPending) (tasks twoInMemory).*2) ∧
         Z.of_nat (length ts) <= 2 ∧
         Forall (λ t, Status t = StatusPending) ts) ∧
  (∃ ts, GetTasksByStatus twoInRedis StatusPending 2 = inl ts ∧
         Z.of_nat (length ts) <= 2 ∧
         Forall (λ t, Status t = StatusPending) ts ∧
         descending ts).
Proof.
  assert (1 <= 2 <= maxInt64) as Hlimit by (unfold maxInt64; lia).
  split; [exact Hlimit|]. split; [exact indexed_twoInRedis|].
  exact (GetTasksByStatus_limit_status_order twoInMemory twoInRedis StatusPending 2
           Hlimit indexed_twoInRedis).
Defined.

(** On the same two tasks [RedisStorage] puts the high-priority one first. *)
Lemma RedisStorage_GetTasksByStatus_example :
  ∃ ts, GetTasksByStatus twoInRedis StatusPending 2 = inl ts ∧
        map ID ts = ["high-1"; "low-1"].
Proof. eexists. split; [vm_compute; reflexivity | reflexivity]. Qed.

(** C5, refuted as stated: [RedisStorage.DeleteTask] of an id that is
    not stored returns an error. *)
Lemma RedisStorage_DeleteTask_absent_fails :
  DeleteTask (mkRedisStorage redis.empty) "no-such-id" =
    (mkRedisStorage redis.empty, Some "task not found: no-such-id").
Proof. reflexivity. Qed.

Lemma mapDelete_idemp id m : mapDelete id (mapDelete id m) = mapDelete id m.
Proof.
  unfold mapDelete. rewrite list_filter_filter.
  apply list_filter_iff. intros kv. tauto.
Qed.

Lemma RedisStorage_GetTask_inr r id err :
  RedisStorage_GetTask r id = inr err → err = ("task not found: " ++ id)%string.
Proof.
  unfold RedisStorage_GetTask, redis.Get.
  destruct (redis.strings (client r) !! taskKey id) as [data|]; simpl.
  - discriminate.
  - by intros [= <-].
Qed.

Lemma RedisStorage_DeleteTask_absent r id :
  (∀ t, RedisStorage_GetTask r id ≠ inl t) →
  RedisStorage_DeleteTask r id = (r, Some ("task not found: " ++ id)%string).
Proof.
  intros Hno. unfold RedisStorage_DeleteTask.
  destruct (RedisStorage_GetTask r id) as [t|err] eqn:Hget.
  - by destruct (Hno t).
  - by rewrite (RedisStorage_GetTask_inr _ _ _ Hget).
Qed.

Lemma RedisStorage_GetTask_deleted r id t :
  RedisStorage_GetTask (fst (RedisStorage_DeleteTask r id)) id ≠ inl t.
Proof.
  unfold RedisStorage_DeleteTask.
  destruct (RedisStorage_GetTask r id) as [t'|err] eqn:Hget; simpl.
  - rewrite GetTask_ZRem. unfold RedisStorage_GetTask, redis.Get. simpl.
    by rewrite lookup_delete_eq.
  - by rewrite Hget.
Qed.

(** C5, amended: a second [DeleteTask] of the same id leaves the store
    as the first one left it, in both implementations.
    [MemoryStorage.DeleteTask] always succeeds; [RedisStorage.DeleteTask]
    succeeds exactly when the record exists, and for an absent id (so
    also the second time) it returns "task not found" and changes
    nothing. *)
Theorem DeleteTask_twice (m : MemoryStorage) (r : RedisStorage) (id : string) :
  (snd (DeleteTask m id) = None ∧
   DeleteTask (fst (DeleteTask m id)) id = (fst (DeleteTask m id), None)) ∧
  ((snd (DeleteTask r id) = None ↔ ∃ t, GetTask r id = inl t) ∧
   DeleteTask (fst (DeleteTask r id)) id =
     (fst (DeleteTask r id), Some ("task not found: " ++ id)%string) ∧
   ((∀ t, GetTask r id ≠ inl t) →
    DeleteTask r id = (r, Some ("task not found: " ++ id)%string))).
Proof.
  split; [split|split; [|split]].
  - reflexivity.
  - simpl. unfold MemoryStorage_DeleteTask. simpl. by rewrite mapDelete_idemp.
  - simpl. unfold RedisStorage_DeleteTask.
    destruct (RedisStorage_GetTask r id) as [t|err]; simpl; split; eauto.
    + discriminate.
    + by intros [t ?].
  - simpl. apply RedisStorage_DeleteTask_absent.
    intros t. apply RedisStorage_GetTask_deleted.
  - simpl. apply RedisStorage_DeleteTask_absent.
Qed.

End storage_claims.

(** ** queue.go *)

Module queue_facts.
Import task storage queue props task_facts.

(** Unfolds [processTask] down to the record it builds. *)
Ltac unfold_queue :=
  unfold processTask, updateTask, incProcessed, incRetries, afterHandler, Sleep,
    withStorage, withHandlers, withChannels, withRegistry, withClock,
    withInvocations; cbn.

Section with_storage.
Context {S : Type} `{Storage S}.

Implicit Types (q : Queue S) (t : Task).

Lemma NewQueue_channel (store : S) reg now p :
  PriorityLow <= p <= PriorityCritical →
  taskChannels (NewQueue store reg now) !! p = Some [].
Proof.
  unfold PriorityLow, PriorityCritical. intros Hp.
  assert (p = 0 ∨ p = 1 ∨ p = 2 ∨ p = 3) as [-> | [-> | [-> | ->]]] by lia;
    reflexivity.
Qed.

Lemma trySend_room chans t buf :
  chans !! Priority t = Some buf → (length buf < channelCapacity)%nat →
  trySend chans t = Some (<[Priority t := (buf ++ [t])%list]> chans).
Proof.
  intros Hbuf Hroom. unfold trySend. rewrite Hbuf.
  apply Nat.ltb_lt in Hroom. by rewrite Hroom.
Qed.

Lemma trySend_full chans t buf :
  chans !! Priority t = Some buf → (channelCapacity <= length buf)%nat →
  trySend chans t = None.
Proof.
  intros Hbuf Hfull. unfold trySend. rewrite Hbuf.
  apply Nat.ltb_ge in Hfull. by rewrite Hfull.
Qed.

(** What [Submit] does when the store accepts the task. *)
Lemma Submit_saved q t s :
  SaveTask (storage q) t = (s, None) →
  ∃ q', Submit q t = (q', None) ∧ storage q' = s ∧
    handlers q' = handlers q ∧ invocations q' = invocations q ∧
    clock q' = clock q ∧
    taskChannels q' = default (taskChannels q) (trySend (taskChannels q) t) ∧
    metrics.QueueSize (registry q') =
      metrics.Inc (Sprintf_d (Priority t)) (metrics.QueueSize (registry q)).
Proof.
  intros Hsave. unfold Submit. rewrite Hsave. simpl.
  destruct (trySend (taskChannels q) t) as [chans|]; simpl;
    eexists; (split; [reflexivity|]); simpl; auto 10.
Qed.

(** [processTask] when no handler is registered for the type. *)
Lemma processTask_no_handler q t w :
  handlers q !! Type_ t = None →
  ∃ q', processTask q t w =
          Returned q' (MarkFailed (clock q)
                         ("no handler for task type: " ++ Type_ t)%string
                         (MarkStarted (clock q) w t)) ∧
    handlers q' = handlers q ∧ taskChannels q' = taskChannels q ∧
    invocations q' = invocations q ∧ clock q' = clock q ∧
    metrics.QueueSize (registry q') = metrics.QueueSize (registry q).
Proof.
  intros Hh. unfold_queue. rewrite Hh.
  eexists. split; [reflexivity|]. simpl. auto.
Qed.

(** [processTask] when the handler returns [nil]. *)
Lemma processTask_success q t w h :
  handlers q !! Type_ t = Some h →
  h (default 0%nat (invocations q !! Type_ t)) (MarkStarted (clock q) w t) = None →
  ∃ q', processTask q t w =
          Returned q' (MarkCompleted (clock q) (MarkStarted (clock q) w t)) ∧
    handlers q' = handlers q ∧ taskChannels q' = taskChannels q ∧
    invocations q' =
      <[Type_ t := Datatypes.S (default 0%nat (invocations q !! Type_ t))]>
        (invocations q) ∧
    clock q' = clock q ∧
    metrics.QueueSize (registry q') =
      metrics.Dec (Sprintf_d (Priority t)) (metrics.QueueSize (registry q)).
Proof.
  intros Hh Hok. unfold_queue. rewrite Hh, Hok.
  eexists. split; [reflexivity|]. simpl. auto.
Qed.

(** [processTask] when the handler fails and no retry is left. *)
Lemma processTask_failure q t w h msg :
  handlers q !! Type_ t = Some h →
  h (default 0%nat (invocations q !! Type_ t)) (MarkStarted (clock q) w t) = Some msg →
  CanRetry t = false →
  ∃ q', processTask q t w =
          Returned q' (MarkFailed (clock q) msg (MarkStarted (clock q) w t)) ∧
    handlers q' = handlers q ∧ taskChannels q' = taskChannels q ∧
    invocations q' =
      <[Type_ t := Datatypes.S (default 0%nat (invocations q !! Type_ t))]>
        (invocations q) ∧
    clock q' = clock q ∧
    metrics.QueueSize (registry q') =
      metrics.Dec (Sprintf_d (Priority t)) (metrics.QueueSize (registry q)).
Proof.
  intros Hh Herr Hcan. unfold_queue. rewrite Hh, Herr.
  change (CanRetry (MarkStarted (clock q) w t)) with (CanRetry t). rewrite Hcan.
  eexists. split; [reflexivity|]. simpl. auto.
Qed.

(** [processTask] when the handler fails and the task can be retried:
    the task is sent back to its channel if that has room. *)
Lemma processTask_retry q t w h msg buf :
  handlers q !! Type_ t = Some h →
  h (default 0%nat (invocations q !! Type_ t)) (MarkStarted (clock q) w t) = Some msg →
  CanRetry t = true →
  taskChannels q !! Priority t = Some buf → (length buf < channelCapacity)%nat →
  ∃ q', processTask q t w =
          Returned q' (MarkRetrying (MarkStarted (clock q) w t)) ∧
    handlers q' = handlers q ∧
    taskChannels q' =
      <[Priority t := (buf ++ [MarkRetrying (MarkStarted (clock q) w t)])%list]>
        (taskChannels q) ∧
    invocations q' =
      <[Type_ t := Datatypes.S (default 0%nat (invocations q !! Type_ t))]>
        (invocations q) ∧
    metrics.QueueSize (registry q') =
      metrics.Dec (Sprintf_d (Priority t)) (metrics.QueueSize (registry q)).
Proof.
  intros Hh Herr Hcan Hbuf Hroom. unfold_queue. rewrite Hh, Herr.
  change (CanRetry (MarkStarted (clock q) w t)) with (CanRetry t). rewrite Hcan.
  erewrite (trySend_room _ (MarkRetrying (MarkStarted (clock q) w t)));
    [| exact Hbuf | exact Hroom]. simpl.
  eexists. split; [reflexivity|]. simpl. auto.
Qed.

(** [processTask] drives a task along the lifecycle: [MarkRetrying] is
    reached only under [CanRetry]. *)
Lemma processTask_lifecycle q t w :
  lifecycle t →
  match processTask q t w with
  | Returned _ t' | Blocked _ t' => lifecycle t'
  end.
Proof.
  intros Ht. unfold_queue.
  destruct (handlers q !! Type_ t) as [h|].
  - destruct (h _ _) as [msg|].
    + destruct (CanRetry (MarkStarted (clock q) w t)) eqn:Hcan.
      * assert (lifecycle (MarkRetrying (MarkStarted (clock q) w t))) as Hl
          by (apply lc_MarkRetrying; [by apply lc_MarkStarted | exact Hcan]).
        by destruct (trySend _ _).
      * by apply lc_MarkFailed, lc_MarkStarted.
    + by apply lc_MarkCompleted, lc_MarkStarted.
  - by apply lc_MarkFailed, lc_MarkStarted.
Qed.

Lemma worker_receive rounds q p name t buf :
  taskChannels q !! p = Some (t :: buf) →
  worker (Datatypes.S rounds) q p name =
    match processTask (withChannels (<[p := buf]> (taskChannels q)) q) t name with
    | Returned q t =>
        let '(q, done, st) := worker rounds q p name in (q, t :: done, st)
    | Blocked q t => (q, [t], Stuck)
    end.
Proof. intros Hbuf. simpl. by rewrite Hbuf. Qed.

Lemma worker_waiting rounds q p name :
  taskChannels q !! p = Some [] → worker rounds q p name = (q, [], Waiting).
Proof. intros Hbuf. destruct rounds; simpl; by rewrite Hbuf. Qed.

End with_storage.

(** The engine keeps the status index of a [RedisStorage] in agreement
    with the records: [processTask] writes through [UpdateTask] only,
    the poller does not write, and [Submit] saves a task whose id is new
    (or already stored under the same status). *)
Lemma processTask_indexed (q : Queue RedisStorage) t w :
  indexed (storage q) →
  match processTask q t w with
  | Returned q' _ | Blocked q' _ => indexed (storage q')
  end.
Proof.
  intros Hq. unfold_queue.
  pose proof storage_facts.indexed_UpdateTask as Hup.
  destruct (handlers q !! Type_ t) as [h|].
  - destruct (h _ _) as [msg|].
    + destruct (CanRetry _).
      * destruct (trySend _ _); simpl; by do 2 apply Hup.
      * simpl. by do 2 apply Hup.
    + simpl. by do 2 apply Hup.
  - simpl. by do 2 apply Hup.
Qed.

Lemma pollPendingTasks_indexed (q : Queue RedisStorage) :
  indexed (storage q) → indexed (storage (pollPendingTasks q)).
Proof. intros Hq. exact Hq. Qed.

Lemma Submit_indexed (q : Queue RedisStorage) t :
  indexed (storage q) →
  (∀ old, GetTask (storage q) (ID t) = inl old → Status old = Status t) →
  indexed (storage (fst (Submit q t))).
Proof.
  intros Hq Hnew.
  pose proof (storage_facts.indexed_SaveTask (storage q) t Hq Hnew) as Hs.
  unfold Submit. simpl in *.
  destruct (RedisStorage_SaveTask (storage q) t) as [s [err|]]; simpl in *;
    [exact Hs|].
  by destruct (trySend _ _).
Qed.

End queue_facts.

Module queue_claims.
Import task storage queue api props examples task_facts queue_facts.

Section with_storage.
Context {S : Type} `{Storage S}.

Implicit Types (q : Queue S) (t : Task).

(** One round of a worker whose channel holds exactly [t], when the
    handler fails and a retry is left: the retried task is alone in the
    channel again. *)
Lemma worker_round_retry rounds q p name t h msg :
  taskChannels q !! p = Some [t] → Priority t = p →
  handlers q !! Type_ t = Some h → (∀ n t', h n t' = Some msg) →
  CanRetry t = true →
  ∃ q' t',
    worker (Datatypes.S rounds) q p name =
      (let '(q'', done, st) := worker rounds q' p name in (q'', t' :: done, st)) ∧
    t' = MarkRetrying (MarkStarted (clock q) name t) ∧
    taskChannels q' !! p = Some [t'] ∧ handlers q' = handlers q ∧
    invocations q' !! Type_ t =
      Some (Datatypes.S (default 0%nat (invocations q !! Type_ t))).
Proof.
  intros Hchan Hp Hh Herr Hcan.
  rewrite (worker_receive _ _ _ _ _ _ Hchan).
  set (q1 := withChannels (<[p:=[]]> (taskChannels q)) q).
  destruct (processTask_retry q1 t name h msg []) as (q' & Hq' & Hh' & Hc' & Hi' & _);
    try done.
  - subst p. simpl. by rewrite lookup_insert_eq.
  - unfold channelCapacity. simpl. lia.
  - exists q', (MarkRetrying (MarkStarted (clock q) name t)).
    rewrite Hq'. split; [reflexivity|]. split; [reflexivity|].
    rewrite Hc', Hh', Hi'. subst p. simpl.
    by rewrite !lookup_insert_eq.
Qed.

(** The same round when no retry is left: the task is marked failed and
    the channel stays empty. *)
Lemma worker_round_failure rounds q p name t h msg :
  taskChannels q !! p = Some [t] → Priority t = p →
  handlers q !! Type_ t = Some h → (∀ n t', h n t' = Some msg) →
  CanRetry t = false →
  ∃ q' t',
    worker (Datatypes.S rounds) q p name =
      (let '(q'', done, st) := worker rounds q' p name in (q'', t' :: done, st)) ∧
    t' = MarkFailed (clock q) msg (MarkStarted (clock q) name t) ∧
    taskChannels q' !! p = Some [] ∧ handlers q' = handlers q ∧
    invocations q' !! Type_ t =
      Some (Datatypes.S (default 0%nat (invocations q !! Type_ t))).
Proof.
  intros Hchan Hp Hh Herr Hcan.
  rewrite (worker_receive _ _ _ _ _ _ Hchan).
  set (q1 := withChannels (<[p:=[]]> (taskChannels q)) q).
  destruct (processTask_failure q1 t name h msg) as (q' & Hq' & Hh' & Hc' & Hi' & _);
    try done.
  exists q', (MarkFailed (clock q) msg (MarkStarted (clock q) name t)).
  rewrite Hq'. split; [reflexivity|]. split; [reflexivity|].
  rewrite Hc', Hh', Hi'. simpl. by rewrite !lookup_insert_eq.
Qed.

(** The worker's own retries, taken alone.  In a run in which the
    poller sends nothing while the task is retrying, a task submitted
    with [max_retries = 2] to a new queue whose handler for its type
    fails on every call is processed three times by the worker of its
    priority: retried twice, then marked failed with retry count 2 and
    the handler's message; the handler has then been called three times
    and the worker waits on an empty channel.  [Start] always launches
    the poller, whose ticks during the back-offs add further attempts:
    see the module on the poller's ticks below. *)
Theorem permanent_failure (store : S) reg now h msg t name rounds :
  (∀ n t', h n t' = Some msg) →
  MaxRetries t = 2 → RetryCount t = 0 →
  PriorityLow <= Priority t <= PriorityCritical →
  snd (SaveTask store t) = None →
  (3 <= rounds)%nat →
  ∃ q' t1 t2 t3,
    worker rounds
      (fst (Submit (RegisterHandler (Type_ t) h (NewQueue store reg now)) t))
      (Priority t) name = (q', [t1; t2; t3], Waiting) ∧
    Status t1 = StatusRetrying ∧ RetryCount t1 = 1 ∧
    Status t2 = StatusRetrying ∧ RetryCount t2 = 2 ∧
    Status t3 = StatusFailed ∧ RetryCount t3 = 2 ∧ Error t3 = msg ∧
    ID t3 = ID t ∧ CompletedAt t3 ≠ None ∧
    invocations q' !! Type_ t = Some 3%nat ∧
    taskChannels q' !! Priority t = Some [].
Proof.
  intros Herr Hmax Hcount Hprio Hsave Hrounds.
  set (q0 := RegisterHandler (Type_ t) h (NewQueue store reg now)).
  destruct (SaveTask store t) as [s e] eqn:Hs. simpl in Hsave. subst e.
  destruct (Submit_saved q0 t s Hs) as (q1 & Hq1 & _ & Hh1 & Hi1 & _ & Hc1 & _).
  rewrite Hq1. simpl.
  assert (taskChannels q0 !! Priority t = Some []) as Hc0
    by (by apply NewQueue_channel).
  rewrite (trySend_room _ _ [] Hc0) in Hc1 by (unfold channelCapacity; simpl; lia).
  simpl in Hc1.
  assert (handlers q1 !! Type_ t = Some h) as Hh
    by (rewrite Hh1; simpl; apply lookup_insert_eq).
  destruct rounds as [|[|[|rounds]]]; try lia.
  (* first attempt *)
  destruct (worker_round_retry (Datatypes.S (Datatypes.S rounds)) q1 (Priority t)
              name t h msg)
    as (q2 & t1 & Hw1 & Ht1 & Hc2 & Hh2 & Hi2); try done.
  { rewrite Hc1. apply lookup_insert_eq. }
  { unfold CanRetry. rewrite Hmax, Hcount. reflexivity. }
  (* second attempt *)
  destruct (worker_round_retry (Datatypes.S rounds) q2 (Priority t) name t1 h msg)
    as (q3 & t2 & Hw2 & Ht2 & Hc3 & Hh3 & Hi3); try done.
  { by subst t1. }
  { subst t1. simpl. by rewrite Hh2. }
  { subst t1. unfold CanRetry. simpl. rewrite Hmax, Hcount. reflexivity. }
  (* third attempt *)
  destruct (worker_round_failure rounds q3 (Priority t) name t2 h msg)
    as (q4 & t3 & Hw3 & Ht3 & Hc4 & Hh4 & Hi4); try done.
  { by subst t2 t1. }
  { subst t2 t1. simpl. by rewrite Hh3, Hh2. }
  { subst t2 t1. unfold CanRetry. simpl. rewrite Hmax, Hcount. reflexivity. }
  exists q4, t1, t2, t3.
  rewrite Hw1, Hw2, Hw3, (worker_waiting _ _ _ _ Hc4).
  split; [reflexivity|].
  assert (Type_ t2 = Type_ t ∧ Type_ t1 = Type_ t) as [Hty2 Hty1]
    by (by subst t2 t1).
  rewrite Hty2 in Hi4. rewrite Hty1 in Hi3.
  rewrite Hi3, Hi2, Hi1 in Hi4. simpl in Hi4. rewrite lookup_empty in Hi4.
  simpl in Hi4.
  subst t3 t2 t1. simpl. rewrite Hcount.
  repeat split; try reflexivity; try done.
Qed.


(** The poller's loop treats each priority on its own: the channel of
    priority [p] receives the tasks of that priority, in order, as long
    as it has room. *)
Lemma pollLoop_channel chans tasks (p : Priority_t) (buf : list Task) :
  chans !! p = Some buf →
  pollLoop chans tasks !! p =
    Some (buf ++ take (channelCapacity - length buf)
                   (filter (λ t, Priority t = p) tasks))%list.
Proof.
  revert chans buf. induction tasks as [|t tasks IH]; intros chans buf Hbuf; simpl.
  - by rewrite filter_nil, take_nil, app_nil_r.
  - rewrite filter_cons. case_decide as Hp.
    + unfold trySend. rewrite Hp, Hbuf.
      destruct (length buf <? channelCapacity)%nat eqn:Hroom.
      * apply Nat.ltb_lt in Hroom.
        rewrite (IH _ (buf ++ [t])%list) by apply lookup_insert_eq.
        rewrite length_app. simpl.
        replace (channelCapacity - length buf)%nat
          with (Datatypes.S (channelCapacity - (length buf + 1)))%nat by lia.
        simpl. by rewrite <- app_assoc.
      * apply Nat.ltb_ge in Hroom.
        rewrite (IH _ buf Hbuf).
        replace (channelCapacity - length buf)%nat with 0%nat by lia.
        by rewrite !take_0.
    + assert (∀ chans', trySend chans t = Some chans' → chans' !! p = Some buf)
        as Hother.
      { unfold trySend. intros chans'.
        destruct (chans !! Priority t) as [buf'|]; [|discriminate].
        destruct (_ <? _)%nat; [|discriminate].
        intros [= <-]. by rewrite lookup_insert_ne. }
      destruct (trySend chans t) as [chans'|]; apply IH; auto.
Qed.

Lemma pollLoop_app chans tasks tasks' :
  pollLoop chans (tasks ++ tasks')%list = pollLoop (pollLoop chans tasks) tasks'.
Proof.
  revert chans. induction tasks as [|t tasks IH]; intros chans; simpl; [done|].
  destruct (trySend chans t); apply IH.
Qed.

(** C2, amended: a tick asks the store for up to 50 pending and then up
    to 20 retrying tasks and attempts one non-blocking send per task, in
    the order the store returned them.  A task whose channel is full is
    skipped and the loop goes on: each channel receives the tasks of its
    priority until it is full, whatever happened to tasks of other
    priorities earlier in the batch.  Nothing but the channels changes. *)
Theorem pollPendingTasks_enqueues q pending retrying (p : Priority_t)
    (buf : list Task) :
  GetTasksByStatus (storage q) StatusPending 50 = inl pending →
  GetTasksByStatus (storage q) StatusRetrying 20 = inl retrying →
  taskChannels q !! p = Some buf →
  taskChannels (pollPendingTasks q) !! p =
    Some (buf ++ take (channelCapacity - length buf)
                   (filter (λ t, Priority t = p) (pending ++ retrying)))%list ∧
  storage (pollPendingTasks q) = storage q ∧
  registry (pollPendingTasks q) = registry q ∧
  handlers (pollPendingTasks q) = handlers q.
Proof.
  intros Hpending Hretrying Hbuf. unfold pollPendingTasks.
  rewrite Hpending. simpl. rewrite Hretrying. simpl.
  rewrite <- pollLoop_app. by rewrite (pollLoop_channel _ _ _ _ Hbuf).
Qed.

(** C7, amended: the HTTP handler answers a request whose type is empty
    with 400 "task type is required" and leaves the queue and the store
    as they were; [Submit] itself checks nothing and fails only when
    [SaveTask] fails. *)
Theorem empty_type_rejected_by_handler q uuid priority payload maxRetries :
  handleSubmitTask q uuid (Some (mkSubmitRequest "" priority payload maxRetries)) =
    (q, respondError StatusBadRequest "task type is required") ∧
  (∀ t, snd (Submit q t) = None ↔ snd (SaveTask (storage q) t) = None).
Proof.
  split; [reflexivity|].
  intros t. unfold Submit.
  destruct (SaveTask (storage q) t) as [s [err|]]; simpl.
  - split; discriminate.
  - by destruct (trySend _ _).
Qed.

(** C10: a request with a type is turned into a pending task whose
    priority is the requested one when that lies in Low..Critical and
    Medium otherwise, and whose [max_retries] is the requested one when
    that is positive and 3 otherwise; the task is handed to [Submit] and
    the answer is 201 unless the store fails. *)
Theorem handleSubmitTask_defaults q uuid req :
  req_Type req ≠ "" →
  ∃ t,
    ID t = uuid ∧ Type_ t = req_Type req ∧ Status t = StatusPending ∧
    RetryCount t = 0 ∧ Payload t = req_Payload req ∧
    Priority t =
      (if decide (PriorityLow <= req_Priority req <= PriorityCritical)
       then req_Priority req else PriorityMedium) ∧
    MaxRetries t =
      (if decide (0 < req_MaxRetries req) then req_MaxRetries req else 3) ∧
    handleSubmitTask q uuid (Some req) =
      (fst (Submit q t),
       match snd (Submit q t) with
       | None => respondJSON StatusCreated [("task_id", uuid); ("status", "submitted")]
       | Some _ => respondError StatusInternalServerError "failed to submit task"
       end).
Proof.
  intros Hty. exists (requestTask uuid (clock q) req).
  assert (ID (requestTask uuid (clock q) req) = uuid) as Hid.
  { unfold requestTask. by destruct (0 <? req_MaxRetries req). }
  repeat split.
  - exact Hid.
  - unfold requestTask. by destruct (0 <? req_MaxRetries req).
  - unfold requestTask. by destruct (0 <? req_MaxRetries req).
  - unfold requestTask. by destruct (0 <? req_MaxRetries req).
  - unfold requestTask. by destruct (0 <? req_MaxRetries req).
  - unfold requestTask, PriorityLow, PriorityCritical.
    assert (Priority (if 0 <? req_MaxRetries req
                      then setMaxRetries (req_MaxRetries req)
                             (NewTask uuid (clock q) (req_Type req)
                                (if (req_Priority req <? 0) || (3 <? req_Priority req)
                                 then PriorityMedium else req_Priority req)
                                (req_Payload req))
                      else NewTask uuid (clock q) (req_Type req)
                             (if (req_Priority req <? 0) || (3 <? req_Priority req)
                              then PriorityMedium else req_Priority req)
                             (req_Payload req))
            = if (req_Priority req <? 0) || (3 <? req_Priority req)
              then PriorityMedium else req_Priority req) as ->
      by (by destruct (0 <? req_MaxRetries req)).
    case_decide as Hr.
    + destruct (Z.ltb_spec (req_Priority req) 0); [lia|].
      destruct (Z.ltb_spec 3 (req_Priority req)); [lia|]. done.
    + destruct (Z.ltb_spec (req_Priority req) 0); [done|].
      destruct (Z.ltb_spec 3 (req_Priority req)); [done|]. lia.
  - unfold requestTask.
    destruct (Z.ltb_spec 0 (req_MaxRetries req)); case_decide; try lia; done.
  - unfold handleSubmitTask.
    destruct (String.eqb_spec (req_Type req) ""); [done|].
    rewrite Hid. by destruct (Submit q _) as [q' [err|]].
Qed.

End with_storage.

End queue_claims.

(** ** The claims on the in-memory queue of the tests *)

Module queue_examples.
Import task storage queue api props examples task_facts queue_facts queue_claims.

Lemma permanent_failure_witness :
  (∀ (n : nat) (t' : Task), alwaysFails n t' = Some "permanent failure") ∧
  MaxRetries twoRetriesTask = 2 ∧ RetryCount twoRetriesTask = 0 ∧
  PriorityLow <= Priority twoRetriesTask <= PriorityCritical ∧
  snd (SaveTask NewMemoryStorage twoRetriesTask) = None ∧
  (3 <= 5)%nat ∧
  ∃ q' t1 t2 t3,
    worker 5
      (fst (Submit (RegisterHandler (Type_ twoRetriesTask) alwaysFails
                      (NewQueue NewMemoryStorage metrics.empty t0))
              twoRetriesTask))
      (Priority twoRetriesTask) "worker-2-0" = (q', [t1; t2; t3], Waiting) ∧
    Status t1 = StatusRetrying ∧ RetryCount t1 = 1 ∧
    Status t2 = StatusRetrying ∧ RetryCount t2 = 2 ∧
    Status t3 = StatusFailed ∧ RetryCount t3 = 2 ∧
    Error t3 = "permanent failure" ∧
    ID t3 = ID twoRetriesTask ∧ CompletedAt t3 ≠ None ∧
    invocations q' !! Type_ twoRetriesTask = Some 3%nat ∧
    taskChannels q' !! Priority twoRetriesTask = Some [].
Proof.
  assert (PriorityLow <= Priority twoRetriesTask <= PriorityCritical) as Hprio
    by (vm_compute; split; discriminate).
  assert (3 <= 5)%nat as Hrounds by lia.
  repeat (split; [first [reflexivity | exact Hprio | exact Hrounds]|]).
  exact (permanent_failure NewMemoryStorage metrics.empty t0 alwaysFails
           "permanent failure" twoRetriesTask "worker-2-0" 5%nat
           (λ _ _, eq_refl) eq_refl eq_refl Hprio eq_refl Hrounds).
Defined.

(** The same run read from the store, as the test does. *)
Lemma permanent_failure_stored :
  let q := fst (Submit (RegisterHandler "test_task" alwaysFails freshQueue)
                  twoRetriesTask) in
  let q' := fst (fst (worker 5 q PriorityHigh "worker-2-0")) in
  ∃ t, GetTask (storage q') "high-1" = inl t ∧
       Status t = StatusFailed ∧ RetryCount t = 2 ∧
       Error t = "permanent failure".
Proof. eexists. split; [vm_compute; reflexivity|]. by repeat split. Qed.

(** Delivery is at least once.  When the poller ticks after the first
    retry has been re-enqueued, the store still lists the task as
    retrying and a copy joins the channel; both are processed to the
    end, and the handler has been called five times when the worker
    comes to rest.  The record ends failed with retry count 2 all the
    same. *)
Lemma poller_copy_is_processed_too :
  let q := fst (Submit (RegisterHandler "test_task" alwaysFails freshQueue)
                  twoRetriesTask) in
  let q := pollPendingTasks (fst (fst (worker 1 q PriorityHigh "worker-2-0"))) in
  let '(q, done, st) := worker 10 q PriorityHigh "worker-2-0" in
  map Status done =
    [StatusRetrying; StatusRetrying; StatusFailed; StatusFailed] ∧
  st = Waiting ∧
  invocations q !! "test_task" = Some 5%nat ∧
  ∃ t, GetTask (storage q) "high-1" = inl t ∧
       Status t = StatusFailed ∧ RetryCount t = 2.
Proof.
  vm_compute. repeat (split; [reflexivity|]). eexists. by repeat split.
Qed.



(** C2, refuted as stated: the batch is the high-priority task, then the
    low-priority one.  The send of the first fails, the High channel
    being full, and the second is enqueued all the same. *)
Lemma poll_continues_after_full_channel :
  GetTasksByStatus (storage highChannelFull) StatusPending 50
    = inl [highTask; lowTask] ∧
  trySend (taskChannels highChannelFull) highTask = None ∧
  taskChannels highChannelFull !! PriorityLow = Some [] ∧
  taskChannels (pollPendingTasks highChannelFull) !! PriorityLow = Some [lowTask].
Proof. repeat split; vm_compute; reflexivity. Qed.

Lemma pollPendingTasks_enqueues_witness :
  GetTasksByStatus (storage highChannelFull) StatusPending 50
    = inl [highTask; lowTask] ∧
  GetTasksByStatus (storage highChannelFull) StatusRetrying 20 = inl [] ∧
  taskChannels highChannelFull !! PriorityLow = Some [] ∧
  taskChannels (pollPendingTasks highChannelFull) !! PriorityLow =
    Some ([] ++ take (channelCapacity - length ([] : list Task))
                  (filter (λ t, Priority t = PriorityLow)
                     ([highTask; lowTask] ++ [])))%list ∧
  storage (pollPendingTasks highChannelFull) = storage highChannelFull ∧
  registry (pollPendingTasks highChannelFull) = registry highChannelFull ∧
  handlers (pollPendingTasks highChannelFull) = handlers highChannelFull.
Proof.
  assert (GetTasksByStatus (storage highChannelFull) StatusPending 50
          = inl [highTask; lowTask]) as Hp by (vm_compute; reflexivity).
  assert (GetTasksByStatus (storage highChannelFull) StatusRetrying 20 = inl [])
    as Hr by (vm_compute; reflexivity).
  assert (taskChannels highChannelFull !! PriorityLow = Some []) as Hc
    by (vm_compute; reflexivity).
  split; [exact Hp|]. split; [exact Hr|]. split; [exact Hc|].
  exact (pollPendingTasks_enqueues highChannelFull [highTask; lowTask] []
           PriorityLow [] Hp Hr Hc).
Defined.

(** C7, refuted as stated: [Submit] takes a task without a type and
    stores it. *)
Lemma Submit_accepts_empty_type :
  Type_ emptyTypeTask = "" ∧
  ∃ q', Submit freshQueue emptyTypeTask = (q', None) ∧
        GetTask (storage q') "e-1" = inl emptyTypeTask.
Proof.
  split; [reflexivity|]. eexists. split; [reflexivity|]. vm_compute. reflexivity.
Qed.

Lemma empty_type_rejected_by_handler_witness :
  handleSubmitTask freshQueue "u-1" (Some (mkSubmitRequest "" 2 None 3)) =
    (freshQueue, respondError StatusBadRequest "task type is required") ∧
  (∀ t, snd (Submit freshQueue t) = None ↔
        snd (SaveTask (storage freshQueue) t) = None).
Proof. exact (empty_type_rejected_by_handler freshQueue "u-1" 2 None 3). Defined.

(** C8, the code at the failing inputs.  A task that fails once and then
    succeeds decrements the gauge of its priority twice for the single
    increment of [Submit]: the gauge ends at -1.  A task without a
    handler is marked failed and the gauge is not decremented: it stays
    at 1. *)
Theorem queue_size_gauge_drifts :
  (let q1 := fst (Submit (RegisterHandler "test_task" failsOnce freshQueue) highTask) in
   let '(q2, done, st) := worker 5 q1 PriorityHigh "worker-2-0" in
   map Status done = [StatusRetrying; StatusCompleted] ∧ st = Waiting ∧
   metrics.value "2" (metrics.QueueSize (registry q1)) = 1 ∧
   metrics.value "2" (metrics.QueueSize (registry q2)) = -1) ∧
  (let q1 := fst (Submit freshQueue highTask) in
   let '(q2, done, st) := worker 5 q1 PriorityHigh "worker-2-0" in
   map Status done = [StatusFailed] ∧ st = Waiting ∧
   metrics.value "2" (metrics.QueueSize (registry q1)) = 1 ∧
   metrics.value "2" (metrics.QueueSize (registry q2)) = 1).
Proof. split; vm_compute; repeat split; reflexivity. Qed.

Lemma handleSubmitTask_defaults_witness :
  req_Type outOfRangeRequest ≠ "" ∧
  ∃ t,
    ID t = "u-1" ∧ Type_ t = req_Type outOfRangeRequest ∧
    Status t = StatusPending ∧ RetryCount t = 0 ∧
    Payload t = req_Payload outOfRangeRequest ∧
    Priority t =
      (if decide (PriorityLow <= req_Priority outOfRangeRequest <= PriorityCritical)
       then req_Priority outOfRangeRequest else PriorityMedium) ∧
    MaxRetries t =
      (if decide (0 < req_MaxRetries outOfRangeRequest)
       then req_MaxRetries outOfRangeRequest else 3) ∧
    handleSubmitTask freshQueue "u-1" (Some outOfRangeRequest) =
      (fst (Submit freshQueue t),
       match snd (Submit freshQueue t) with
       | None => respondJSON StatusCreated [("task_id", "u-1"); ("status", "submitted")]
       | Some _ => respondError StatusInternalServerError "failed to submit task"
       end).
Proof.
  assert (req_Type outOfRangeRequest ≠ "") as Hty by discriminate.
  split; [exact Hty|].
  exact (handleSubmitTask_defaults freshQueue "u-1" outOfRangeRequest Hty).
Defined.

(** The two requests on the in-memory queue: both are answered 201; the
    out-of-range one is stored with priority Medium and three retries,
    the other one as requested. *)
Lemma handleSubmitTask_examples :
  (let '(q, resp) := handleSubmitTask freshQueue "u-1" (Some outOfRangeRequest) in
   code resp = StatusCreated ∧
   ∃ t, GetTask (storage q) "u-1" = inl t ∧
        Priority t = PriorityMedium ∧ MaxRetries t = 3) ∧
  (let '(q, resp) := handleSubmitTask freshQueue "u-2" (Some plainRequest) in
   code resp = StatusCreated ∧
   ∃ t, GetTask (storage q) "u-2" = inl t ∧
        Priority t = PriorityHigh ∧ MaxRetries t = 5).
Proof.
  split; vm_compute; (split; [reflexivity|]); eexists; repeat split; reflexivity.
Qed.

End queue_examples.

(** ** Copies through JSON *)

Module json_more.
Import task storage props task_facts.

(** A task with a JSON-native payload and timestamps in range is its own
    copy. *)
Lemma jsonCopy_native t :
  nativePayload (Payload t) = true → timesMarshalable t = true →
  jsonCopy t = t.
Proof.
  intros Hp Ht. unfold timesMarshalable in Ht.
  apply andb_prop in Ht as [Ht Hc]. apply andb_prop in Ht as [Hcr Hs].
  assert (∃ p, marshalPayload (Payload t) = Some p
               ∧ unmarshalMap <$> p = Payload t) as (p & Hmp & Hup).
  { destruct (Payload t) as [m|]; simpl in *.
    - destruct (marshalMap_native m Hp) as (js & Hjs & Hu).
      exists (Some js). rewrite Hjs. simpl. split; congruence.
    - exists None. split; reflexivity. }
  assert (marshalTimePtr (StartedAt t) = Some (StartedAt t)) as Hst.
  { destruct (StartedAt t); simpl in *; [rewrite Hs|]; reflexivity. }
  assert (marshalTimePtr (CompletedAt t) = Some (CompletedAt t)) as Hct.
  { destruct (CompletedAt t); simpl in *; [rewrite Hc|]; reflexivity. }
  unfold jsonCopy, ToJSON. rewrite Hmp, Hcr, Hst, Hct.
  unfold FromJSON. simpl. rewrite Hup, !omitempty_default.
  destruct t; reflexivity.
Qed.

End json_more.

(** ** More on task.go *)

Module task_more.
Import task api props examples task_facts.

(** X11: along every trajectory (a task made by [NewTask] or by the HTTP
    handler, then changed by the four lifecycle operations) the status
    is one of the five constants; a pending task is untouched (no retry
    counted, no timestamps, no error, no worker); a processing task has
    its start time; a completed or failed task has its completion time;
    and the task allows at least one retry. *)
Theorem lifecycle_shape t :
  lifecycle t →
  (Status t = StatusPending ∨ Status t = StatusProcessing ∨
   Status t = StatusCompleted ∨ Status t = StatusFailed ∨
   Status t = StatusRetrying) ∧
  (Status t = StatusPending →
   RetryCount t = 0 ∧ StartedAt t = None ∧ CompletedAt t = None ∧
   Error t = "" ∧ WorkerID t = "") ∧
  (Status t = StatusProcessing → StartedAt t ≠ None) ∧
  (terminal t → CompletedAt t ≠ None) ∧
  0 <= RetryCount t ∧ 1 <= MaxRetries t.
Proof.
  unfold terminal.
  induction 1 as [| uuid now req Hreq | now w t Ht IH | now t Ht IH
                  | now err t Ht IH | t Ht IH Hcan]; simpl.
  - repeat split; try discriminate; try lia; auto.
    intros [?|?]; discriminate.
  - unfold requestTask.
    destruct (Z.ltb_spec 0 (req_MaxRetries req)); simpl;
      (repeat split; try discriminate; try lia; auto);
      intros [?|?]; discriminate.
  - destruct IH as (_ & _ & _ & _ & Hrc & Hmax).
    repeat split; try discriminate; try lia; auto.
    intros [?|?]; discriminate.
  - destruct IH as (_ & _ & _ & _ & Hrc & Hmax).
    repeat split; try discriminate; try lia; auto.
  - destruct IH as (_ & _ & _ & _ & Hrc & Hmax).
    repeat split; try discriminate; try lia; auto 6.
  - destruct IH as (_ & _ & _ & _ & Hrc & Hmax).
    pose proof (lifecycle_bounds t Ht) as [Hb Hm].
    apply CanRetry_spec in Hcan.
    rewrite wrap64_id by (unfold minInt64, maxInt64 in *; lia).
    repeat split; try discriminate; try lia; auto 6.
    intros [?|?]; discriminate.
Qed.

Lemma lifecycle_shape_witness :
  lifecycle retriedTask ∧
  (Status retriedTask = StatusPending ∨ Status retriedTask = StatusProcessing ∨
   Status retriedTask = StatusCompleted ∨ Status retriedTask = StatusFailed ∨
   Status retriedTask = StatusRetrying) ∧
  (Status retriedTask = StatusPending →
   RetryCount retriedTask = 0 ∧ StartedAt retriedTask = None ∧
   CompletedAt retriedTask = None ∧ Error retriedTask = "" ∧
   WorkerID retriedTask = "") ∧
  (Status retriedTask = StatusProcessing → StartedAt retriedTask ≠ None) ∧
  (terminal retriedTask → CompletedAt retriedTask ≠ None) ∧
  0 <= RetryCount retriedTask ∧ 1 <= MaxRetries retriedTask.
Proof.
  split; [exact lifecycle_retriedTask|].
  exact (lifecycle_shape retriedTask lifecycle_retriedTask).
Defined.

End task_more.

(** ** More on storage.go *)

Module storage_more.
Import task storage props examples examples_more.
Import task_facts redis_facts storage_facts storage_claims json_more.

Lemma mapIndex_mapAssign_eq k v m : mapIndex k (mapAssign k v m) = Some v.
Proof.
  induction m as [|[k' v'] m IH]; simpl.
  - by rewrite String.eqb_refl.
  - destruct (String.eqb_spec k k'); simpl.
    + by rewrite String.eqb_refl.
    + destruct (String.eqb_spec k k'); [done | exact IH].
Qed.

Lemma mapIndex_mapAssign_ne k k' v m :
  k' ≠ k → mapIndex k' (mapAssign k v m) = mapIndex k' m.
Proof.
  intros Hne. induction m as [|[k0 v0] m IH]; simpl.
  - destruct (String.eqb_spec k' k); [done | reflexivity].
  - destruct (String.eqb_spec k k0) as [->|Hk]; simpl.
    + destruct (String.eqb_spec k' k0); [done | reflexivity].
    + destruct (String.eqb_spec k' k0); [reflexivity | exact IH].
Qed.

Lemma mapIndex_mapDelete_eq k m : mapIndex k (mapDelete k m) = None.
Proof.
  unfold mapDelete. induction m as [|[k' v'] m IH]; simpl; [done|].
  rewrite filter_cons. simpl. case_decide as Hk; simpl; [|exact IH].
  destruct (String.eqb_spec k k'); [congruence | exact IH].
Qed.

Lemma mapIndex_mapDelete_ne k k' m :
  k' ≠ k → mapIndex k' (mapDelete k m) = mapIndex k' m.
Proof.
  intros Hne. unfold mapDelete. induction m as [|[k0 v0] m IH]; simpl; [done|].
  rewrite filter_cons. simpl. case_decide as Hk; simpl.
  - destruct (String.eqb_spec k' k0); [reflexivity | exact IH].
  - subst k0. destruct (String.eqb_spec k' k); [done | exact IH].
Qed.

Lemma RedisStorage_SaveTask_ok r t data :
  ToJSON t = Some data →
  RedisStorage_SaveTask r t =
    (mkRedisStorage
       (redis.ZAdd (statusKey (Status t)) (score t) (ID t)
          (redis.Set_ (taskKey (ID t)) data (client r))), None).
Proof. intros Hdata. unfold RedisStorage_SaveTask. by rewrite Hdata. Qed.

Lemma ToJSON_native t :
  nativePayload (Payload t) = true → timesMarshalable t = true →
  ∃ data, ToJSON t = Some data ∧ FromJSON data = Some t.
Proof.
  intros Hp Ht. pose proof (jsonCopy_native t Hp Ht) as Hcopy.
  unfold jsonCopy in Hcopy. destruct (ToJSON t) as [data|] eqn:Hdata.
  - exists data. split; [done|]. unfold FromJSON in *. simpl in Hcopy. by rewrite Hcopy.
  - unfold timesMarshalable in Ht. unfold ToJSON in Hdata.
    apply andb_prop in Ht as [Ht Hc]. apply andb_prop in Ht as [Hcr Hs].
    rewrite Hcr in Hdata.
    destruct (Payload t) as [m|]; simpl in *.
    + destruct (marshalMap_native m Hp) as (js & Hjs & _). rewrite Hjs in Hdata.
      simpl in Hdata.
      destruct (StartedAt t); simpl in *; rewrite ?Hs in Hdata;
        destruct (CompletedAt t); simpl in *; rewrite ?Hc in Hdata; discriminate.
    + destruct (StartedAt t); simpl in *; rewrite ?Hs in Hdata;
        destruct (CompletedAt t); simpl in *; rewrite ?Hc in Hdata; discriminate.
Qed.

(** X1: a task with a JSON-native payload and timestamps in range that is
    saved can be read back unchanged under its id, from either store, and
    saving it leaves what is stored under the other ids as it was. *)
Theorem SaveTask_then_GetTask (m : MemoryStorage) (r : RedisStorage) t :
  nativePayload (Payload t) = true → timesMarshalable t = true →
  (snd (SaveTask m t) = None ∧
   GetTask (fst (SaveTask m t)) (ID t) = inl t ∧
   ∀ id, id ≠ ID t → GetTask (fst (SaveTask m t)) id = GetTask m id) ∧
  (snd (SaveTask r t) = None ∧
   GetTask (fst (SaveTask r t)) (ID t) = inl t ∧
   ∀ id, id ≠ ID t → GetTask (fst (SaveTask r t)) id = GetTask r id).
Proof.
  intros Hp Ht. pose proof (jsonCopy_native t Hp Ht) as Hcopy. split.
  - split; [reflexivity|]. simpl. unfold MemoryStorage_GetTask. simpl. split.
    + by rewrite mapIndex_mapAssign_eq, Hcopy, Hcopy.
    + intros id Hid. by rewrite mapIndex_mapAssign_ne.
  - destruct (ToJSON_native t Hp Ht) as (data & Hdata & Hfrom).
    simpl. rewrite (RedisStorage_SaveTask_ok r t data Hdata). simpl.
    destruct r as [c]. simpl.
    split; [reflexivity|]. split.
    + rewrite GetTask_ZAdd, GetTask_Set, decide_True by done. by rewrite Hfrom.
    + intros id Hid. by rewrite GetTask_ZAdd, GetTask_Set, decide_False.
Qed.

Lemma SaveTask_then_GetTask_witness :
  nativePayload (Payload startedTask) = true ∧
  timesMarshalable startedTask = true ∧
  (snd (SaveTask twoInMemory startedTask) = None ∧
   GetTask (fst (SaveTask twoInMemory startedTask)) (ID startedTask)
     = inl startedTask ∧
   ∀ id, id ≠ ID startedTask →
     GetTask (fst (SaveTask twoInMemory startedTask)) id = GetTask twoInMemory id) ∧
  (snd (SaveTask twoInRedis startedTask) = None ∧
   GetTask (fst (SaveTask twoInRedis startedTask)) (ID startedTask)
     = inl startedTask ∧
   ∀ id, id ≠ ID startedTask →
     GetTask (fst (SaveTask twoInRedis startedTask)) id = GetTask twoInRedis id).
Proof.
  split; [reflexivity|]. split; [reflexivity|].
  exact (SaveTask_then_GetTask twoInMemory twoInRedis startedTask eq_refl eq_refl).
Defined.

(** X2: a task that cannot be serialised is refused by
    [RedisStorage.SaveTask], which reports the failure and writes
    nothing; [MemoryStorage.SaveTask] drops both errors of its copy,
    reports success and files the zero task under the id. *)
Theorem SaveTask_unserialisable (m : MemoryStorage) (r : RedisStorage) t :
  ToJSON t = None →
  SaveTask r t = (r, Some "failed to serialize task") ∧
  snd (SaveTask m t) = None ∧
  GetTask (fst (SaveTask m t)) (ID t) = inl zeroTask.
Proof.
  intros Hdata. split; [|split].
  - simpl. unfold RedisStorage_SaveTask. by rewrite Hdata.
  - reflexivity.
  - simpl. unfold MemoryStorage_GetTask. simpl.
    rewrite mapIndex_mapAssign_eq. unfold jsonCopy at 2. rewrite Hdata.
    reflexivity.
Qed.

Lemma SaveTask_unserialisable_witness :
  ToJSON nanTask = None ∧
  SaveTask twoInRedis nanTask = (twoInRedis, Some "failed to serialize task") ∧
  snd (SaveTask twoInMemory nanTask) = None ∧
  GetTask (fst (SaveTask twoInMemory nanTask)) (ID nanTask) = inl zeroTask.
Proof.
  split; [reflexivity|].
  exact (SaveTask_unserialisable twoInMemory twoInRedis nanTask eq_refl).
Defined.

(** X3: after [DeleteTask] the id is not found, in either store, and
    what is stored under the other ids is as before. *)
Theorem DeleteTask_then_GetTask (m : MemoryStorage) (r : RedisStorage) id :
  (GetTask (fst (DeleteTask m id)) id = inr ("task not found: " ++ id)%string ∧
   ∀ id', id' ≠ id → GetTask (fst (DeleteTask m id)) id' = GetTask m id') ∧
  (GetTask (fst (DeleteTask r id)) id = inr ("task not found: " ++ id)%string ∧
   ∀ id', id' ≠ id → GetTask (fst (DeleteTask r id)) id' = GetTask r id').
Proof.
  split; split.
  - simpl. unfold MemoryStorage_GetTask. simpl. by rewrite mapIndex_mapDelete_eq.
  - intros id' Hid. simpl. unfold MemoryStorage_GetTask. simpl.
    by rewrite mapIndex_mapDelete_ne.
  - simpl. destruct (RedisStorage_GetTask (fst (RedisStorage_DeleteTask r id)) id)
      as [t|err] eqn:Hget.
    + by apply RedisStorage_GetTask_deleted in Hget.
    + by rewrite (RedisStorage_GetTask_inr _ _ _ Hget).
  - intros id' Hid. simpl. unfold RedisStorage_DeleteTask.
    destruct (RedisStorage_GetTask r id) as [t|err]; [|done]. simpl.
    rewrite GetTask_ZRem. unfold RedisStorage_GetTask, redis.Get. simpl.
    rewrite lookup_delete_ne; [done|]. intros Heq. by apply taskKey_inj in Heq.
Qed.


(** The keys of the sorted sets of an agreeing index are status keys. *)
Lemma indexed_key r key id sc :
  indexed r → entry (client r) key id sc → ∃ status, key = statusKey status.
Proof. intros Hr He. destruct (Hr _ _ _ He) as (t & _ & -> & _). by eexists. Qed.

Lemma entry_Del_ne k c key member sc :
  key ≠ k → entry c key member sc → entry (redis.Del k c) key member sc.
Proof.
  intros Hne (z & Hz & Hm). exists z. split; [|done]. simpl.
  by rewrite lookup_delete_ne.
Qed.

(** X4: on an index that agrees with the records, a successful
    [RedisStorage.DeleteTask] leaves the id in no status index and the
    entries of all other ids as they were. *)
Theorem RedisStorage_DeleteTask_clears_index r id t :
  indexed r → GetTask r id = inl t →
  snd (DeleteTask r id) = None ∧
  (∀ key sc, ¬ entry (client (fst (DeleteTask r id))) key id sc) ∧
  (∀ id' key sc, id' ≠ id →
     entry (client (fst (DeleteTask r id))) key id' sc ↔ entry (client r) key id' sc).
Proof.
  intros Hr Hget. simpl in *. unfold RedisStorage_DeleteTask. rewrite Hget. simpl.
  split; [reflexivity|]. split.
  - intros key sc He. apply entry_ZRem in He as [Hk He]. apply entry_Del in He.
    destruct (Hr _ _ _ He) as (t' & Hget' & -> & _).
    assert (t' = t) as -> by congruence. by destruct Hk.
  - intros id' key sc Hid. rewrite entry_ZRem. split.
    + intros [_ He]. by apply entry_Del in He.
    + intros He. split; [by right|].
      apply entry_Del_ne; [|done].
      destruct (indexed_key _ _ _ _ Hr He) as [status ->].
      intros Heq. symmetry in Heq. by apply taskKey_statusKey in Heq.
Qed.

Lemma GetTask_twoInRedis_high : GetTask twoInRedis "high-1" = inl highTask.
Proof. vm_compute. reflexivity. Qed.

Lemma RedisStorage_DeleteTask_clears_index_witness :
  indexed twoInRedis ∧ GetTask twoInRedis "high-1" = inl highTask ∧
  snd (DeleteTask twoInRedis "high-1") = None ∧
  (∀ key sc, ¬ entry (client (fst (DeleteTask twoInRedis "high-1"))) key "high-1" sc) ∧
  (∀ id' key sc, id' ≠ "high-1" →
     entry (client (fst (DeleteTask twoInRedis "high-1"))) key id' sc
     ↔ entry (client twoInRedis) key id' sc).
Proof.
  split; [exact indexed_twoInRedis|]. split; [exact GetTask_twoInRedis_high|].
  exact (RedisStorage_DeleteTask_clears_index twoInRedis "high-1" highTask
           indexed_twoInRedis GetTask_twoInRedis_high).
Defined.

Lemma MemoryStorage_range_nonpositive status limit m :
  limit <= 0 →
  MemoryStorage_range status limit m [] =
    take 1 (filter (λ t, Status t = status) m.*2).
Proof.
  intros Hlimit. induction m as [|[k t] m IH]; [done|].
  rewrite fmap_cons. simpl MemoryStorage_range. simpl (snd _).
  destruct (String.eqb_spec (Status t) status) as [Heq|Hne].
  - rewrite filter_cons_True by done.
    destruct (Z.leb_spec limit (Z.of_nat 1)) as [_|Hgt];
      [reflexivity | simpl in Hgt; lia].
  - rewrite filter_cons_False by done. exact IH.
Qed.

(** X5: with a limit of zero or less [MemoryStorage.GetTasksByStatus]
    does not return an empty list: the limit is tested after the
    append, so the first task with the status, if there is one, is
    returned. *)
Theorem MemoryStorage_GetTasksByStatus_nonpositive_limit
    (m : MemoryStorage) (status : Status_t) (limit : Z) :
  limit <= 0 →
  GetTasksByStatus m status limit =
    inl (take 1 (filter (λ t, Status t = status) (tasks m).*2)).
Proof.
  intros Hlimit. simpl. unfold MemoryStorage_GetTasksByStatus.
  by rewrite MemoryStorage_range_nonpositive.
Qed.

Lemma MemoryStorage_GetTasksByStatus_nonpositive_limit_witness :
  -3 <= 0 ∧
  GetTasksByStatus twoInMemory StatusPending (-3) =
    inl (take 1 (filter (λ t, Status t = StatusPending) (tasks twoInMemory).*2)).
Proof.
  assert (-3 <= 0) as Hlimit by lia. split; [exact Hlimit|].
  exact (MemoryStorage_GetTasksByStatus_nonpositive_limit twoInMemory
           StatusPending (-3) Hlimit).
Defined.

(** X6: [UpdateTask] of a task whose id was never saved:
    [RedisStorage] reports "task not found" and stores nothing, whereas
    [MemoryStorage], which does not look the id up, stores the task and
    reports success. *)
Theorem UpdateTask_unknown_id (m : MemoryStorage) (r : RedisStorage) t :
  nativePayload (Payload t) = true → timesMarshalable t = true →
  (∀ old, GetTask r (ID t) ≠ inl old) →
  (snd (UpdateTask m t) = None ∧ GetTask (fst (UpdateTask m t)) (ID t) = inl t) ∧
  UpdateTask r t = (r, Some ("task not found: " ++ ID t)%string).
Proof.
  intros Hp Ht Hr. split.
  - split; [reflexivity|]. simpl. unfold MemoryStorage_UpdateTask. simpl.
    unfold MemoryStorage_GetTask. simpl.
    by rewrite mapIndex_mapAssign_eq, !(jsonCopy_native t Hp Ht).
  - simpl in *. unfold RedisStorage_UpdateTask.
    destruct (RedisStorage_GetTask r (ID t)) as [old|err] eqn:Hget.
    + by destruct (Hr old).
    + by rewrite (RedisStorage_GetTask_inr _ _ _ Hget).
Qed.

Lemma UpdateTask_unknown_id_witness :
  nativePayload (Payload startedTask) = true ∧
  timesMarshalable startedTask = true ∧
  (∀ old, GetTask twoInRedis (ID startedTask) ≠ inl old) ∧
  (snd (UpdateTask twoInMemory startedTask) = None ∧
   GetTask (fst (UpdateTask twoInMemory startedTask)) (ID startedTask)
     = inl startedTask) ∧
  UpdateTask twoInRedis startedTask =
    (twoInRedis, Some ("task not found: " ++ ID startedTask)%string).
Proof.
  assert (∀ old, GetTask twoInRedis (ID startedTask) ≠ inl old) as Hr
    by (intros old Hold; vm_compute in Hold; discriminate).
  split; [reflexivity|]. split; [reflexivity|]. split; [exact Hr|].
  exact (UpdateTask_unknown_id twoInMemory twoInRedis startedTask
           eq_refl eq_refl Hr).
Defined.


Lemma ToJSON_highCompleted :
  ∃ data, ToJSON highCompleted = Some data.
Proof. eexists. reflexivity. Qed.





(** X9: [RedisStorage.SaveTask] removes nothing from the index.  Saving
    a task whose id is still listed under another status leaves that
    entry behind, and the index no longer agrees with the records: the
    status query of the old status returns the task with its new
    status.  A change of status has to go through [UpdateTask]. *)
Theorem RedisStorage_SaveTask_stale_entry r t key sc data :
  entry (client r) key (ID t) sc → key ≠ statusKey (Status t) →
  ToJSON t = Some data →
  entry (client (fst (SaveTask r t))) key (ID t) sc ∧
  (∃ t', GetTask (fst (SaveTask r t)) (ID t) = inl t' ∧ Status t' = Status t) ∧
  ¬ indexed (fst (SaveTask r t)).
Proof.
  intros He Hkey Hdata. simpl. rewrite (RedisStorage_SaveTask_ok r t data Hdata).
  simpl. destruct r as [c]. simpl in *.
  assert (entry (redis.ZAdd (statusKey (Status t)) (score t) (ID t)
                   (redis.Set_ (taskKey (ID t)) data c)) key (ID t) sc) as He'.
  { apply entry_ZAdd. right. split; [by left|]. by apply entry_Set. }
  destruct (FromJSON_ToJSON_fields t data Hdata)
    as (t' & Ht' & _ & _ & _ & Hstatus & _).
  assert (RedisStorage_GetTask
            (mkRedisStorage
               (redis.ZAdd (statusKey (Status t)) (score t) (ID t)
                  (redis.Set_ (taskKey (ID t)) data c))) (ID t) = inl t') as Hget.
  { rewrite GetTask_ZAdd, GetTask_Set, decide_True by done. by rewrite Ht'. }
  split; [exact He'|]. split; [by exists t'|].
  intros Hidx. destruct (Hidx _ _ _ He') as (t'' & Hget'' & -> & _).
  simpl in Hget''. rewrite Hget in Hget''. injection Hget'' as <-.
  by rewrite Hstatus in Hkey.
Qed.

Lemma entry_twoInRedis_high :
  entry (client twoInRedis) (statusKey StatusPending) "high-1" (score highTask).
Proof.
  assert (∃ z, redis.zsets (client twoInRedis) !! statusKey StatusPending = Some z
               ∧ z !! "high-1" = Some (score highTask)) as He.
  { eexists. split; vm_compute; reflexivity. }
  exact He.
Qed.

Lemma RedisStorage_SaveTask_stale_entry_witness :
  entry (client twoInRedis) (statusKey StatusPending) (ID highCompleted)
    (score highTask) ∧
  statusKey StatusPending ≠ statusKey (Status highCompleted) ∧
  ∃ data, ToJSON highCompleted = Some data ∧
  entry (client (fst (SaveTask twoInRedis highCompleted)))
    (statusKey StatusPending) (ID highCompleted) (score highTask) ∧
  (∃ t', GetTask (fst (SaveTask twoInRedis highCompleted)) (ID highCompleted)
           = inl t' ∧ Status t' = Status highCompleted) ∧
  ¬ indexed (fst (SaveTask twoInRedis highCompleted)).
Proof.
  assert (statusKey StatusPending ≠ statusKey (Status highCompleted)) as Hkey
    by discriminate.
  split; [exact entry_twoInRedis_high|]. split; [exact Hkey|].
  eexists. split; [reflexivity|].
  exact (RedisStorage_SaveTask_stale_entry twoInRedis highCompleted
           (statusKey StatusPending) (score highTask) _
           entry_twoInRedis_high Hkey eq_refl).
Defined.

Lemma collect_length r status (es : list (string * Z)) :
  (∀ id sc, (id, sc) ∈ es → entry (client r) (statusKey status) id sc) →
  indexed r →
  length (RedisStorage_collect r es.*1) = length es.
Proof.
  intros Hes Hr. symmetry. eapply Forall2_length.
  by apply (collect_indexed r status es).
Qed.

(** X10: on an index that agrees with the records,
    [RedisStorage.GetTasksByStatus] returns as many tasks as the limit
    allows: [min limit n] of the [n] tasks indexed under the status for
    a limit of 1 or more, and all [n] of them for a limit of 0, which
    turns into the range end -1. *)
Theorem RedisStorage_GetTasksByStatus_count r status limit :
  indexed r → 0 <= limit <= maxInt64 →
  ∃ ts, GetTasksByStatus r status limit = inl ts ∧
    Z.of_nat (length ts) =
      let n := Z.of_nat (size (default ∅ (redis.zsets (client r) !! statusKey status))) in
      if limit =? 0 then n else Z.min limit n.
Proof.
  intros Hr Hlimit. simpl. unfold RedisStorage_GetTasksByStatus.
  rewrite wrap64_id by (unfold minInt64, maxInt64 in *; lia).
  rewrite ZRevRange_members.
  eexists. split; [reflexivity|].
  rewrite (collect_length r status).
  - unfold ZRevRangeWithScores. simpl.
    set (members := merge_sort redis.zrev _).
    assert (length members
            = size (default ∅ (redis.zsets (client r) !! statusKey status)))
      as Hlen.
    { unfold members. rewrite merge_sort_Permutation. apply length_map_to_list. }
    rewrite <- Hlen.
    destruct (Z.eqb_spec limit 0) as [->|Hne].
    + simpl. destruct (Z.ltb_spec (Z.of_nat (length members) + (0 - 1)) 0) as [Hz|Hz].
      * simpl. lia.
      * rewrite length_take. lia.
    + destruct (Z.ltb_spec (limit - 1) 0) as [Hz|Hz]; [lia|].
      destruct (Z.ltb_spec (limit - 1) 0); [lia|].
      rewrite length_take. lia.
  - intros id sc Hin. by eapply ZRevRangeWithScores_entry.
  - exact Hr.
Qed.

Lemma RedisStorage_GetTasksByStatus_count_witness :
  indexed twoInRedis ∧ 0 <= 0 <= maxInt64 ∧
  ∃ ts, GetTasksByStatus twoInRedis StatusPending 0 = inl ts ∧
    Z.of_nat (length ts) =
      let n := Z.of_nat (size (default ∅ (redis.zsets (client twoInRedis)
                                            !! statusKey StatusPending))) in
      if 0 =? 0 then n else Z.min 0 n.
Proof.
  assert (0 <= 0 <= maxInt64) as Hlimit by (unfold maxInt64; lia).
  split; [exact indexed_twoInRedis|]. split; [exact Hlimit|].
  exact (RedisStorage_GetTasksByStatus_count twoInRedis StatusPending 0
           indexed_twoInRedis Hlimit).
Defined.

End storage_more.

(** ** More on queue.go *)

Module queue_more.
Import task storage queue api props examples examples_more.
Import task_facts queue_facts queue_claims json_more.

Section with_storage.
Context {S : Type} `{Storage S}.

Implicit Types (q : Queue S) (t : Task).

Lemma value_Inc {K} `{Countable K} (l l' : K) (vec : gmap K Z) :
  metrics.value l' (metrics.Inc l vec) =
    if decide (l' = l) then metrics.value l vec + 1 else metrics.value l' vec.
Proof.
  unfold metrics.value at 1, metrics.Inc. case_decide as Hl.
  - subst. by rewrite lookup_insert_eq.
  - by rewrite lookup_insert_ne.
Qed.

Lemma value_Dec {K} `{Countable K} (l l' : K) (vec : gmap K Z) :
  metrics.value l' (metrics.Dec l vec) =
    if decide (l' = l) then metrics.value l vec - 1 else metrics.value l' vec.
Proof.
  unfold metrics.value at 1, metrics.Dec. case_decide as Hl.
  - subst. by rewrite lookup_insert_eq.
  - by rewrite lookup_insert_ne.
Qed.

(** X12: when the store accepts the task, [Submit] returns [nil], keeps
    what the store saved and counts the task once in
    [tasks_submitted_total] and in [queue_size]; the task joins the
    channel of its own priority if that has room and is dropped from
    the hand-off otherwise; no other channel changes. *)
Theorem Submit_drops_on_full q t s :
  SaveTask (storage q) t = (s, None) →
  ∃ q', Submit q t = (q', None) ∧ storage q' = s ∧
    metrics.value (Sprintf_d (Priority t)) (metrics.QueueSize (registry q')) =
      metrics.value (Sprintf_d (Priority t)) (metrics.QueueSize (registry q)) + 1 ∧
    metrics.value (Type_ t, Sprintf_d (Priority t))
        (metrics.TasksSubmitted (registry q')) =
      metrics.value (Type_ t, Sprintf_d (Priority t))
        (metrics.TasksSubmitted (registry q)) + 1 ∧
    ∀ p, taskChannels q' !! p =
         match taskChannels q !! p with
         | Some buf =>
             if decide (p = Priority t ∧ (length buf < channelCapacity)%nat)
             then Some (buf ++ [t])%list else Some buf
         | None => None
         end.
Proof.
  intros Hsave. unfold Submit. rewrite Hsave. cbn.
  assert (∀ chans : gmap Z (list Task), ∀ p,
            default chans (trySend chans t) !! p =
            match chans !! p with
            | Some buf =>
                if decide (p = Priority t ∧ (length buf < channelCapacity)%nat)
                then Some (buf ++ [t])%list else Some buf
            | None => None
            end) as Hchan.
  { intros chans p. unfold trySend.
    destruct (decide (p = Priority t)) as [->|Hp].
    - destruct (chans !! Priority t) as [buf|] eqn:Hbuf; simpl; [|by rewrite Hbuf].
      destruct (Nat.ltb_spec (length buf) channelCapacity); simpl.
      + rewrite lookup_insert_eq. by rewrite decide_True.
      + rewrite Hbuf. rewrite decide_False; [done | lia].
    - assert (default chans
                match chans !! Priority t with
                | Some buf =>
                    if (length buf <? channelCapacity)%nat
                    then Some (<[Priority t:=(buf ++ [t])%list]> chans) else None
                | None => None
                end !! p = chans !! p) as ->.
      { destruct (chans !! Priority t) as [buf|]; simpl; [|done].
        destruct (_ <? _)%nat; simpl; [|done]. by rewrite lookup_insert_ne. }
      destruct (chans !! p); [|done]. rewrite decide_False; [done | tauto]. }
  destruct (trySend (taskChannels q) t) as [chans|] eqn:Hsend;
    (eexists; split; [reflexivity|]); cbn;
    rewrite !value_Inc, !decide_True by done;
    (repeat split; try reflexivity);
    intros p; specialize (Hchan (taskChannels q) p); rewrite Hsend in Hchan;
    exact Hchan.
Qed.

(** X13: whatever the handler does, [processTask] leaves the id, type,
    priority, payload, [max_retries] and creation time of the task as
    they were, stamps it with the start time and the worker, registers
    no handler, and ends with the task completed, failed or retrying;
    the retry count is untouched except on the retry branch, where it
    grows by one. *)
Theorem processTask_frame q t w :
  match processTask q t w with
  | Returned q' t' | Blocked q' t' =>
      ID t' = ID t ∧ Type_ t' = Type_ t ∧ Priority t' = Priority t ∧
      Payload t' = Payload t ∧ MaxRetries t' = MaxRetries t ∧
      CreatedAt t' = CreatedAt t ∧
      StartedAt t' = Some (clock q) ∧ WorkerID t' = w ∧
      handlers q' = handlers q ∧
      ((Status t' = StatusRetrying ∧ CanRetry t = true ∧
        RetryCount t' = wrap64 (RetryCount t + 1)) ∨
       ((Status t' = StatusCompleted ∨ Status t' = StatusFailed) ∧
        RetryCount t' = RetryCount t ∧ CompletedAt t' = Some (clock q)))
  end.
Proof.
  unfold_queue.
  destruct (handlers q !! Type_ t) as [h|].
  - destruct (h _ _) as [msg|].
    + change (CanRetry (MarkStarted (clock q) w t)) with (CanRetry t).
      destruct (CanRetry t) eqn:Hcan.
      * destruct (trySend _ _); simpl; repeat split; auto.
      * simpl. repeat split; auto.
    + simpl. repeat split; auto.
  - simpl. repeat split; auto.
Qed.

(** X14: a task whose type has no handler is failed at once, whatever
    retries it has left: [processTask] returns with the task failed,
    the error naming the type, the retry count unchanged and no handler
    called; it counts one "failed" in [tasks_processed_total], no
    retry, and sends nothing to the channels. *)
Theorem processTask_without_handler q t w :
  handlers q !! Type_ t = None →
  ∃ q' t', processTask q t w = Returned q' t' ∧
    Status t' = StatusFailed ∧
    Error t' = ("no handler for task type: " ++ Type_ t)%string ∧
    RetryCount t' = RetryCount t ∧ CompletedAt t' = Some (clock q) ∧
    invocations q' = invocations q ∧ taskChannels q' = taskChannels q ∧
    clock q' = clock q ∧
    metrics.value (Type_ t, "failed") (metrics.TasksProcessed (registry q')) =
      metrics.value (Type_ t, "failed") (metrics.TasksProcessed (registry q)) + 1 ∧
    metrics.TaskRetries (registry q') = metrics.TaskRetries (registry q) ∧
    storage q' =
      fst (UpdateTask (fst (UpdateTask (storage q) (MarkStarted (clock q) w t))) t').
Proof.
  intros Hh. unfold_queue. rewrite Hh.
  eexists; eexists. split; [reflexivity|]. cbn.
  repeat split; try reflexivity.
  unfold metrics.value, metrics.Inc. by rewrite lookup_insert_eq.
Qed.

(** X15: when the handler fails and a retry is left, [processTask]
    marks the task retrying with one more retry counted, keeps the
    error and completion fields as they were (the handler's message is
    not recorded), counts one retry for the type, sleeps the square of
    the new retry count in seconds and then puts the task back on its
    channel. *)
Theorem processTask_retry_backoff q t w h msg (buf : list Task) :
  handlers q !! Type_ t = Some h →
  h (default 0%nat (invocations q !! Type_ t)) (MarkStarted (clock q) w t) = Some msg →
  CanRetry t = true →
  0 <= RetryCount t < 96038 →
  taskChannels q !! Priority t = Some buf → (length buf < channelCapacity)%nat →
  ∃ q' t', processTask q t w = Returned q' t' ∧
    Status t' = StatusRetrying ∧ RetryCount t' = RetryCount t + 1 ∧
    Error t' = Error t ∧ CompletedAt t' = CompletedAt t ∧
    clock q' = clock q + (RetryCount t + 1) * (RetryCount t + 1) * 10 ^ 9 ∧
    taskChannels q' = <[Priority t := (buf ++ [t'])%list]> (taskChannels q) ∧
    metrics.value (Type_ t) (metrics.TaskRetries (registry q')) =
      metrics.value (Type_ t) (metrics.TaskRetries (registry q)) + 1 ∧
    metrics.TasksProcessed (registry q') = metrics.TasksProcessed (registry q).
Proof.
  intros Hh Herr Hcan Hrc Hbuf Hroom. unfold_queue. rewrite Hh, Herr.
  change (CanRetry (MarkStarted (clock q) w t)) with (CanRetry t). rewrite Hcan.
  erewrite (trySend_room _ (MarkRetrying (MarkStarted (clock q) w t)));
    [| exact Hbuf | exact Hroom].
  eexists; eexists. split; [reflexivity|]. cbn.
  assert (wrap64 (RetryCount t + 1) = RetryCount t + 1) as Hw1
    by (apply wrap64_id; unfold minInt64, maxInt64; lia).
  rewrite Hw1.
  assert (wrap64 ((RetryCount t + 1) * (RetryCount t + 1))
          = (RetryCount t + 1) * (RetryCount t + 1)) as Hw2
    by (apply wrap64_id; unfold minInt64, maxInt64; nia).
  rewrite Hw2.
  assert (wrap64 ((RetryCount t + 1) * (RetryCount t + 1) * 10 ^ 9)
          = (RetryCount t + 1) * (RetryCount t + 1) * 10 ^ 9) as Hw3
    by (apply wrap64_id; unfold minInt64, maxInt64; nia).
  rewrite Hw3.
  repeat split; try reflexivity; [lia|].
  unfold metrics.value, metrics.Inc. by rewrite lookup_insert_eq.
Qed.

(** X16: a worker takes the tasks of its channel in the order they were
    sent.  When every task waiting has a handler that succeeds, the
    worker completes them one after the other, in that order, each
    stamped with its name, and comes to rest on the empty channel; the
    other channels and the clock are as before. *)
Theorem worker_fifo q (p : Priority_t) name (buf : list Task) rounds :
  taskChannels q !! p = Some buf →
  Forall (λ t, ∃ h, handlers q !! Type_ t = Some h ∧ ∀ n t', h n t' = None) buf →
  (length buf <= rounds)%nat →
  ∃ q', worker rounds q p name =
          (q', map (λ t, MarkCompleted (clock q) (MarkStarted (clock q) name t)) buf,
           Waiting) ∧
    taskChannels q' = <[p := []]> (taskChannels q) ∧
    clock q' = clock q ∧ handlers q' = handlers q.
Proof.
  revert q rounds. induction buf as [|t buf IH]; intros q rounds Hbuf Hall Hrounds.
  - exists q. rewrite (worker_waiting _ _ _ _ Hbuf). split; [reflexivity|].
    split; [|done]. by rewrite insert_id.
  - apply Forall_cons in Hall as [(h & Hh & Hok) Hall].
    destruct rounds as [|rounds]; [simpl in Hrounds; lia|].
    rewrite (worker_receive _ _ _ _ _ _ Hbuf).
    set (q1 := withChannels (<[p:=buf]> (taskChannels q)) q).
    destruct (processTask_success q1 t name h Hh (Hok _ _))
      as (q2 & Hq2 & Hh2 & Hc2 & _ & Hclock2 & _).
    rewrite Hq2.
    destruct (IH q2 rounds) as (q3 & Hq3 & Hc3 & Hclock3 & Hh3).
    + rewrite Hc2. simpl. apply lookup_insert_eq.
    + rewrite Hh2. exact Hall.
    + simpl in Hrounds. lia.
    + exists q3. rewrite Hq3, Hclock2. simpl.
      split; [reflexivity|]. rewrite Hc3, Hc2, Hclock3, Hclock2, Hh3, Hh2. simpl.
      split; [by rewrite insert_insert_eq | done].
Qed.

(** X17: the poller does not remember what it enqueued.  Two ticks with
    the store unchanged in between send every task of the batch twice:
    a task still pending or retrying at the next tick joins its channel
    again, as long as the channel has room. *)
Theorem pollPendingTasks_twice q pending retrying (p : Priority_t)
    (buf : list Task) :
  GetTasksByStatus (storage q) StatusPending 50 = inl pending →
  GetTasksByStatus (storage q) StatusRetrying 20 = inl retrying →
  taskChannels q !! p = Some buf →
  taskChannels (pollPendingTasks (pollPendingTasks q)) !! p =
    Some (buf ++ take (channelCapacity - length buf)
                   (filter (λ t, Priority t = p)
                      ((pending ++ retrying) ++ (pending ++ retrying))))%list.
Proof.
  intros Hpending Hretrying Hbuf.
  assert (∀ q0 : Queue S, storage q0 = storage q →
            taskChannels (pollPendingTasks q0) =
              pollLoop (taskChannels q0) (pending ++ retrying)
            ∧ storage (pollPendingTasks q0) = storage q) as Hpoll.
  { intros q0 Hs. unfold pollPendingTasks. rewrite Hs, Hpending. simpl.
    rewrite Hs, Hretrying. simpl. by rewrite pollLoop_app. }
  destruct (Hpoll q eq_refl) as [Hc1 Hs1].
  destruct (Hpoll (pollPendingTasks q) Hs1) as [Hc2 _].
  rewrite Hc2, Hc1, <- pollLoop_app.
  by apply pollLoop_channel.
Qed.

(** What [Submit] leaves of a new queue with one handler. *)
Lemma Submit_new_queue (store : S) reg now h t :
  PriorityLow <= Priority t <= PriorityCritical →
  snd (SaveTask store t) = None →
  ∃ q1, fst (Submit (RegisterHandler (Type_ t) h (NewQueue store reg now)) t) = q1 ∧
    taskChannels q1 !! Priority t = Some [t] ∧
    handlers q1 !! Type_ t = Some h ∧
    invocations q1 = ∅ ∧ clock q1 = now ∧
    metrics.QueueSize (registry q1) =
      metrics.Inc (Sprintf_d (Priority t)) (metrics.QueueSize reg).
Proof.
  intros Hprio Hsave.
  set (q0 := RegisterHandler (Type_ t) h (NewQueue store reg now)).
  destruct (SaveTask store t) as [s e] eqn:Hs. simpl in Hsave. subst e.
  destruct (Submit_saved q0 t s Hs) as (q1 & Hq1 & _ & Hh1 & Hi1 & Hk1 & Hc1 & Hg1).
  rewrite Hq1. simpl. exists q1. split; [reflexivity|].
  assert (taskChannels q0 !! Priority t = Some []) as Hc0
    by (by apply NewQueue_channel).
  rewrite (trySend_room _ _ [] Hc0) in Hc1 by (unfold channelCapacity; simpl; lia).
  simpl in Hc1. rewrite Hc1, Hh1, Hi1, Hk1, Hg1. simpl.
  rewrite !lookup_insert_eq. repeat split; reflexivity.
Qed.

(** X18: a task submitted to a new queue whose handler succeeds on its
    first call is completed in one round: the handler is called once,
    the retry count is unchanged, the channel is empty again, and the
    [queue_size] gauge of the priority is back at the value it had
    before [Submit]. *)
Theorem first_attempt_succeeds (store : S) reg now h t name rounds :
  (∀ t', h 0%nat t' = None) →
  PriorityLow <= Priority t <= PriorityCritical →
  snd (SaveTask store t) = None →
  (1 <= rounds)%nat →
  ∃ q' t1,
    worker rounds
      (fst (Submit (RegisterHandler (Type_ t) h (NewQueue store reg now)) t))
      (Priority t) name = (q', [t1], Waiting) ∧
    Status t1 = StatusCompleted ∧ RetryCount t1 = RetryCount t ∧
    CompletedAt t1 = Some now ∧
    invocations q' !! Type_ t = Some 1%nat ∧
    taskChannels q' !! Priority t = Some [] ∧
    metrics.value (Sprintf_d (Priority t)) (metrics.QueueSize (registry q')) =
      metrics.value (Sprintf_d (Priority t)) (metrics.QueueSize reg).
Proof.
  intros Hok Hprio Hsave Hrounds.
  destruct (Submit_new_queue store reg now h t Hprio Hsave)
    as (q1 & -> & Hc1 & Hh1 & Hi1 & Hk1 & Hg1).
  destruct rounds as [|rounds]; [lia|].
  rewrite (worker_receive _ _ _ _ _ _ Hc1).
  set (q2 := withChannels (<[Priority t:=[]]> (taskChannels q1)) q1).
  assert (invocations q2 !! Type_ t = None) as Hi2
    by (unfold q2; simpl; rewrite Hi1; apply lookup_empty).
  destruct (processTask_success q2 t name h) as (q3 & Hq3 & Hh3 & Hc3 & Hi3 & Hk3 & Hg3).
  { exact Hh1. }
  { rewrite Hi2. apply Hok. }
  rewrite Hq3.
  assert (taskChannels q3 !! Priority t = Some []) as Hc3'
    by (rewrite Hc3; simpl; apply lookup_insert_eq).
  rewrite (worker_waiting _ _ _ _ Hc3').
  eexists; eexists. split; [reflexivity|].
  rewrite Hi3, Hi2, Hg3. simpl. rewrite Hk1, Hg1, lookup_insert_eq.
  repeat split; try reflexivity; [exact Hc3'|].
  rewrite (value_Dec (Sprintf_d (Priority t))), decide_True by done.
  rewrite (value_Inc (Sprintf_d (Priority t))), decide_True by done. lia.
Qed.

End with_storage.

End queue_more.
(** ** queue.go: GetStats; server.go: the read handlers *)

Module api_more.
Import task storage queue api stats api_read props examples examples_more.
Import task_facts redis_facts storage_facts queue_facts json_more storage_more.

(** *** GetStats *)

Lemma statsLoop_memory (m : MemoryStorage) order stats :
  ∃ out, statsLoop m order stats = inl out ∧
    ∀ k, out !! k =
      if decide (k ∈ order)
      then Some (Z.min 1000
                   (Z.of_nat (length (filter (λ t, Status t = k) (tasks m).*2))))
      else stats !! k.
Proof.
  revert stats. induction order as [|status order IH]; intros stats.
  - exists stats. split; [reflexivity|]. intros k.
    rewrite decide_False; [done | apply not_elem_of_nil].
  - cbn [statsLoop]. change (GetTasksByStatus m status 1000)
      with (MemoryStorage_GetTasksByStatus m status 1000).
    destruct (MemoryStorage_GetTasksByStatus_spec m status 1000)
      as (ts & -> & Hts & _); [lia|].
    destruct (IH (<[status := Z.of_nat (length ts)]> stats)) as (out & -> & Hout).
    exists out. split; [reflexivity|]. intros k. rewrite Hout.
    destruct (decide (k ∈ order)) as [Hin|Hnin].
    + rewrite decide_True; [done | rewrite elem_of_cons; tauto].
    + destruct (decide (k = status)) as [->|Hne].
      * rewrite decide_True by (rewrite elem_of_cons; tauto).
        rewrite lookup_insert_eq, Hts, length_take. f_equal. lia.
      * rewrite decide_False by (rewrite elem_of_cons; tauto).
        by rewrite lookup_insert_ne.
Qed.

(** X21: over [MemoryStorage], [GetStats] never fails and its result
    does not depend on the order in which the four keys of its map
    literal are visited: for pending, processing, completed and failed
    it reports the number of stored tasks of that status, capped at
    1000; retrying tasks (and any other status) are not reported.  The
    handler answers 200 with that map. *)
Theorem GetStats_memory (q : Queue MemoryStorage) order :
  order ≡ₚ reported →
  ∃ stats, GetStats order q = inl stats ∧
    GetStats reported q = inl stats ∧
    handleGetStats order q = mkReply StatusOK (BodyStats stats) ∧
    (∀ status, status ∈ reported →
       stats !! status =
         Some (Z.min 1000
                 (Z.of_nat (length (filter (λ t, Status t = status)
                                      (tasks (storage q)).*2))))) ∧
    stats !! StatusRetrying = None ∧
    ∀ k, k ∉ reported → stats !! k = None.
Proof.
  intros Hperm.
  destruct (statsLoop_memory (storage q) order ∅) as (stats & Hstats & Hlook).
  destruct (statsLoop_memory (storage q) reported ∅) as (stats' & Hstats' & Hlook').
  assert (stats' = stats) as ->.
  { apply map_eq. intros k. rewrite Hlook, Hlook'.
    destruct (decide (k ∈ reported)) as [Hin|Hnin].
    - rewrite decide_True; [done | by rewrite Hperm].
    - rewrite decide_False; [done | by rewrite Hperm]. }
  exists stats. unfold handleGetStats, GetStats. rewrite Hstats, Hstats'.
  repeat split; try reflexivity.
  - intros status Hin. by rewrite Hlook', decide_True.
  - rewrite Hlook', decide_False; [apply lookup_empty|].
    unfold reported. rewrite !elem_of_cons, elem_of_nil.
    unfold StatusRetrying, StatusPending, StatusProcessing, StatusCompleted,
      StatusFailed. intros [?|[?|[?|[?|[]]]]]; discriminate.
  - intros k Hk. rewrite Hlook', decide_False by done. apply lookup_empty.
Qed.

(** *** strconv.Atoi on what [%d] prints *)

Lemma to_int_not_nil z :
  Z.to_int z ≠ Decimal.Pos Decimal.Nil ∧ Z.to_int z ≠ Decimal.Neg Decimal.Nil.
Proof.
  destruct z as [|p|p]; simpl; split; try discriminate;
    intros Heq; injection Heq as Heq; by apply Unsigned.to_uint_nonnil in Heq.
Qed.

Lemma Atoi_Sprintf_d z : isInt64 z = true → Atoi (Sprintf_d z) = Some z.
Proof.
  intros Hz. destruct (to_int_not_nil z) as [Hpos Hneg].
  pose proof (NilZero.isi (Z.to_int z) Hpos Hneg) as Hisi.
  unfold Atoi, Sprintf_d.
  assert (∀ s, NilZero.int_of_string s = Some (Z.to_int z) →
            match s with
            | String "+"%char rest =>
                option_map Decimal.Pos (NilZero.uint_of_string rest)
            | _ => NilZero.int_of_string s
            end = Some (Z.to_int z)) as Hplus.
  { intros s Hs. destruct s as [|a rest]; [done|].
    destruct (Ascii.eqb_spec a "+"%char) as [->|Hne].
    - exfalso. simpl in Hs. destruct (NilEmpty.uint_of_string rest); discriminate.
    - destruct a as [[] [] [] [] [] [] [] []]; try exact Hs. by destruct Hne. }
  rewrite (Hplus _ Hisi), of_to, Hz. reflexivity.
Qed.

(** X22: the listing is a placeholder that always answers 200 with no
    tasks and total 0.  The limit it echoes always lies in 1..100; a
    limit parameter that is a decimal integer [n] is echoed when
    [1 <= n <= 100] and replaced by 10 otherwise; the status echoed is
    the parameter, or pending when it is empty. *)
Theorem handleListTasks_limit statusParam limitParam n :
  isInt64 n = true →
  (∃ limit,
     handleListTasks statusParam limitParam =
       mkReply StatusOK
         (BodyList [] 0 limit
            (if String.eqb statusParam "" then StatusPending else statusParam)) ∧
     1 <= limit <= 100) ∧
  handleListTasks statusParam (Sprintf_d n) =
    mkReply StatusOK
      (BodyList [] 0 (if (1 <=? n) && (n <=? 100) then n else 10)
         (if String.eqb statusParam "" then StatusPending else statusParam)).
Proof.
  intros Hn. split.
  - unfold handleListTasks. eexists. split; [reflexivity|].
    destruct (String.eqb limitParam ""); [lia|].
    destruct (Atoi limitParam) as [l|]; [|lia].
    destruct ((0 <? l) && (l <=? 100)) eqn:Hl; [|lia].
    apply andb_prop in Hl as [Hl1 Hl2]. lia.
  - unfold handleListTasks.
    assert (String.eqb (Sprintf_d n) "" = false) as ->.
    { apply String.eqb_neq. intros Hempty.
      pose proof (Atoi_Sprintf_d n Hn) as Ha. rewrite Hempty in Ha. discriminate. }
    rewrite (Atoi_Sprintf_d n Hn).
    replace (0 <? n) with (1 <=? n) by (apply eq_true_iff_eq; rewrite Z.leb_le, Z.ltb_lt; lia).
    reflexivity.
Qed.

(** *** POST /tasks then GET /tasks/{id} *)

Lemma requestTask_fields uuid now req :
  ID (requestTask uuid now req) = uuid ∧
  Type_ (requestTask uuid now req) = req_Type req ∧
  Status (requestTask uuid now req) = StatusPending ∧
  RetryCount (requestTask uuid now req) = 0 ∧
  Payload (requestTask uuid now req) = req_Payload req ∧
  CreatedAt (requestTask uuid now req) = now ∧
  StartedAt (requestTask uuid now req) = None ∧
  CompletedAt (requestTask uuid now req) = None.
Proof. unfold requestTask. destruct (0 <? req_MaxRetries req); simpl; auto 10. Qed.

(** X23: a request with a type, a JSON-native payload and a creation
    time in range that is posted to a queue over either store is
    answered 201 with the new id, and a GET of that id then answers 200
    with the document of the task the handler built: pending, never
    retried, with the payload of the request. *)
Theorem submit_then_get (qm : Queue MemoryStorage) (qr : Queue RedisStorage)
    uuid req :
  req_Type req ≠ "" → uuid ≠ "" →
  nativePayload (req_Payload req) = true →
  timeMarshalable (clock qm) = true → timeMarshalable (clock qr) = true →
  (∃ data,
     ToJSON (requestTask uuid (clock qm) req) = Some data ∧
     snd (handleSubmitTask qm uuid (Some req)) =
       respondJSON StatusCreated [("task_id", uuid); ("status", "submitted")] ∧
     handleGetTask (fst (handleSubmitTask qm uuid (Some req))) uuid =
       mkReply StatusOK (BodyTask (Some data))) ∧
  (∃ data,
     ToJSON (requestTask uuid (clock qr) req) = Some data ∧
     snd (handleSubmitTask qr uuid (Some req)) =
       respondJSON StatusCreated [("task_id", uuid); ("status", "submitted")] ∧
     handleGetTask (fst (handleSubmitTask qr uuid (Some req))) uuid =
       mkReply StatusOK (BodyTask (Some data))).
Proof.
  intros Htype Huuid Hpayload Hm Hr.
  apply String.eqb_neq in Htype, Huuid.
  assert (∀ now, timeMarshalable now = true →
            nativePayload (Payload (requestTask uuid now req)) = true ∧
            timesMarshalable (requestTask uuid now req) = true) as Hnative.
  { intros now Hnow.
    destruct (requestTask_fields uuid now req)
      as (_ & _ & _ & _ & Hp & Hc & Hs & Hd).
    unfold timesMarshalable. rewrite Hp, Hc, Hs, Hd, Hnow. by split. }
  split.
  - destruct (Hnative _ Hm) as [Hp Ht].
    set (t := requestTask uuid (clock qm) req) in *.
    destruct (ToJSON_native t Hp Ht) as (data & Hdata & _).
    exists data. split; [exact Hdata|].
    assert (ID t = uuid) as Hid by apply requestTask_fields.
    assert (SaveTask (storage qm) t =
              (mkMemoryStorage (mapAssign (ID t) (jsonCopy t) (tasks (storage qm))),
               None)) as Hsave by reflexivity.
    destruct (Submit_saved qm t _ Hsave) as (q' & Hq' & Hs & _).
    unfold handleSubmitTask. rewrite Htype. fold t. rewrite Hq', Hid. simpl.
    split; [reflexivity|].
    unfold handleGetTask, Queue_GetTask. rewrite Huuid, Hs. simpl.
    unfold MemoryStorage_GetTask. simpl. rewrite <- Hid at 1.
    rewrite mapIndex_mapAssign_eq, !(jsonCopy_native t Hp Ht), Hdata.
    reflexivity.
  - destruct (Hnative _ Hr) as [Hp Ht].
    set (t := requestTask uuid (clock qr) req) in *.
    destruct (ToJSON_native t Hp Ht) as (data & Hdata & Hfrom).
    exists data. split; [exact Hdata|].
    assert (ID t = uuid) as Hid by apply requestTask_fields.
    assert (SaveTask (storage qr) t =
              (mkRedisStorage
                 (redis.ZAdd (statusKey (Status t)) (score t) (ID t)
                    (redis.Set_ (taskKey (ID t)) data (client (storage qr)))), None))
      as Hsave by (exact (RedisStorage_SaveTask_ok (storage qr) t data Hdata)).
    destruct (Submit_saved qr t _ Hsave) as (q' & Hq' & Hs & _).
    unfold handleSubmitTask. rewrite Htype. fold t. rewrite Hq', Hid. simpl.
    split; [reflexivity|].
    unfold handleGetTask, Queue_GetTask. rewrite Huuid, Hs. simpl.
    rewrite GetTask_ZAdd, GetTask_Set, Hid, decide_True by done.
    rewrite Hfrom, Hdata. reflexivity.
Qed.

End api_more.
(** ** The queue over the two stores *)

Module queue_stores.
Import task storage queue api props examples examples_more.
Import task_facts redis_facts storage_facts queue_facts json_more storage_more.

(** X24: [Submit] of a task that cannot be serialised.  Over
    [RedisStorage] it fails with the wrapped error of [SaveTask] and
    leaves the queue as it was: nothing stored, nothing counted, nothing
    enqueued.  Over [MemoryStorage] it reports success, counts the
    submission, and what is then read under the id is the zero task. *)
Theorem Submit_unserialisable (qm : Queue MemoryStorage) (qr : Queue RedisStorage) t :
  ToJSON t = None →
  Submit qr t = (qr, Some "failed to save task: failed to serialize task") ∧
  snd (Submit qm t) = None ∧
  Queue_GetTask (fst (Submit qm t)) (ID t) = inl zeroTask ∧
  metrics.QueueSize (registry (fst (Submit qm t))) =
    metrics.Inc (Sprintf_d (Priority t)) (metrics.QueueSize (registry qm)).
Proof.
  intros Hdata.
  assert (SaveTask (storage qm) t =
            (mkMemoryStorage (mapAssign (ID t) (jsonCopy t) (tasks (storage qm))),
             None)) as Hsave by reflexivity.
  destruct (Submit_saved qm t _ Hsave) as (q' & Hq' & Hs & _ & _ & _ & _ & Hg).
  rewrite Hq'. simpl. split; [|split; [reflexivity|split; [|exact Hg]]].
  - unfold Submit. simpl. unfold RedisStorage_SaveTask. rewrite Hdata.
    by destruct qr.
  - unfold Queue_GetTask. rewrite Hs. simpl. unfold MemoryStorage_GetTask. simpl.
    rewrite mapIndex_mapAssign_eq. unfold jsonCopy at 2. rewrite Hdata.
    reflexivity.
Qed.

Lemma Submit_unserialisable_witness :
  ToJSON nanTask = None ∧
  Submit (NewQueue twoInRedis metrics.empty t0) nanTask =
    (NewQueue twoInRedis metrics.empty t0,
     Some "failed to save task: failed to serialize task") ∧
  snd (Submit freshQueue nanTask) = None ∧
  Queue_GetTask (fst (Submit freshQueue nanTask)) (ID nanTask) = inl zeroTask ∧
  metrics.QueueSize (registry (fst (Submit freshQueue nanTask))) =
    metrics.Inc (Sprintf_d (Priority nanTask)) (metrics.QueueSize (registry freshQueue)).
Proof.
  split; [reflexivity|].
  exact (Submit_unserialisable freshQueue (NewQueue twoInRedis metrics.empty t0)
           nanTask eq_refl).
Defined.

End queue_stores.

(** ** The statements on the inputs of the tests *)

Module more_examples.
Import task storage queue api stats api_read props examples examples_more.
Import task_facts queue_facts queue_more api_more.

Lemma Submit_drops_on_full_witness :
  SaveTask (storage highChannelFull) highTask =
    (fst (SaveTask highFirst highTask), None) ∧
  ∃ q', Submit highChannelFull highTask = (q', None) ∧
    storage q' = fst (SaveTask highFirst highTask) ∧
    metrics.value (Sprintf_d (Priority highTask)) (metrics.QueueSize (registry q')) =
      metrics.value (Sprintf_d (Priority highTask))
        (metrics.QueueSize (registry highChannelFull)) + 1 ∧
    metrics.value (Type_ highTask, Sprintf_d (Priority highTask))
        (metrics.TasksSubmitted (registry q')) =
      metrics.value (Type_ highTask, Sprintf_d (Priority highTask))
        (metrics.TasksSubmitted (registry highChannelFull)) + 1 ∧
    ∀ p, taskChannels q' !! p =
         match taskChannels highChannelFull !! p with
         | Some buf =>
             if decide (p = Priority highTask ∧ (length buf < channelCapacity)%nat)
             then Some (buf ++ [highTask])%list else Some buf
         | None => None
         end.
Proof.
  split; [reflexivity|].
  exact (Submit_drops_on_full highChannelFull highTask
           (fst (SaveTask highFirst highTask)) eq_refl).
Defined.

Lemma processTask_without_handler_witness :
  handlers freshQueue !! Type_ highTask = None ∧
  ∃ q' t', processTask freshQueue highTask "worker-2-0" = Returned q' t' ∧
    Status t' = StatusFailed ∧
    Error t' = ("no handler for task type: " ++ Type_ highTask)%string ∧
    RetryCount t' = RetryCount highTask ∧ CompletedAt t' = Some (clock freshQueue) ∧
    invocations q' = invocations freshQueue ∧
    taskChannels q' = taskChannels freshQueue ∧
    clock q' = clock freshQueue ∧
    metrics.value (Type_ highTask, "failed") (metrics.TasksProcessed (registry q')) =
      metrics.value (Type_ highTask, "failed")
        (metrics.TasksProcessed (registry freshQueue)) + 1 ∧
    metrics.TaskRetries (registry q') = metrics.TaskRetries (registry freshQueue) ∧
    storage q' =
      fst (UpdateTask
             (fst (UpdateTask (storage freshQueue)
                     (MarkStarted (clock freshQueue) "worker-2-0" highTask))) t').
Proof.
  split; [reflexivity|].
  exact (processTask_without_handler freshQueue highTask "worker-2-0" eq_refl).
Defined.

Lemma processTask_retry_backoff_witness :
  handlers failingQueue !! Type_ highTask = Some alwaysFails ∧
  alwaysFails (default 0%nat (invocations failingQueue !! Type_ highTask))
    (MarkStarted (clock failingQueue) "worker-2-0" highTask) = Some "permanent failure" ∧
  CanRetry highTask = true ∧
  0 <= RetryCount highTask < 96038 ∧
  taskChannels failingQueue !! Priority highTask = Some [] ∧
  (length (@nil Task) < channelCapacity)%nat ∧
  ∃ q' t', processTask failingQueue highTask "worker-2-0" = Returned q' t' ∧
    Status t' = StatusRetrying ∧ RetryCount t' = RetryCount highTask + 1 ∧
    Error t' = Error highTask ∧ CompletedAt t' = CompletedAt highTask ∧
    clock q' = clock failingQueue
               + (RetryCount highTask + 1) * (RetryCount highTask + 1) * 10 ^ 9 ∧
    taskChannels q' =
      <[Priority highTask := ([] ++ [t'])%list]> (taskChannels failingQueue) ∧
    metrics.value (Type_ highTask) (metrics.TaskRetries (registry q')) =
      metrics.value (Type_ highTask) (metrics.TaskRetries (registry failingQueue)) + 1 ∧
    metrics.TasksProcessed (registry q') = metrics.TasksProcessed (registry failingQueue).
Proof.
  assert (0 <= RetryCount highTask < 96038) as Hcount by (simpl; lia).
  assert (length (@nil Task) < channelCapacity)%nat as Hroom
    by (unfold channelCapacity; simpl; lia).
  repeat (split; [first [reflexivity | exact Hcount | exact Hroom]|]).
  exact (processTask_retry_backoff failingQueue highTask "worker-2-0" alwaysFails
           "permanent failure" [] eq_refl eq_refl eq_refl Hcount eq_refl Hroom).
Defined.

Lemma worker_fifo_witness :
  taskChannels twoQueued !! PriorityHigh = Some [highTask; twoRetriesTask] ∧
  Forall (λ t, ∃ h, handlers twoQueued !! Type_ t = Some h ∧ ∀ n t', h n t' = None)
    [highTask; twoRetriesTask] ∧
  (length [highTask; twoRetriesTask] <= 3)%nat ∧
  ∃ q', worker 3 twoQueued PriorityHigh "worker-2-0" =
          (q', map (λ t, MarkCompleted (clock twoQueued)
                           (MarkStarted (clock twoQueued) "worker-2-0" t))
                 [highTask; twoRetriesTask],
           Waiting) ∧
    taskChannels q' = <[PriorityHigh := []]> (taskChannels twoQueued) ∧
    clock q' = clock twoQueued ∧ handlers q' = handlers twoQueued.
Proof.
  assert (Forall (λ t, ∃ h, handlers twoQueued !! Type_ t = Some h
                            ∧ ∀ n t', h n t' = None)
            [highTask; twoRetriesTask]) as Hall.
  { repeat constructor; exists succeeds; split; reflexivity. }
  assert (length [highTask; twoRetriesTask] <= 3)%nat as Hrounds by (simpl; lia).
  split; [reflexivity|]. split; [exact Hall|]. split; [exact Hrounds|].
  exact (worker_fifo twoQueued PriorityHigh "worker-2-0" [highTask; twoRetriesTask]
           3%nat eq_refl Hall Hrounds).
Defined.

Lemma pollPendingTasks_twice_witness :
  GetTasksByStatus (storage storedQueue) StatusPending 50 = inl [lowTask; highTask] ∧
  GetTasksByStatus (storage storedQueue) StatusRetrying 20 = inl [] ∧
  taskChannels storedQueue !! PriorityHigh = Some [] ∧
  taskChannels (pollPendingTasks (pollPendingTasks storedQueue)) !! PriorityHigh =
    Some ([] ++ take (channelCapacity - length (@nil Task))
                  (filter (λ t, Priority t = PriorityHigh)
                     (([lowTask; highTask] ++ []) ++ ([lowTask; highTask] ++ []))))%list.
Proof.
  assert (GetTasksByStatus (storage storedQueue) StatusPending 50
          = inl [lowTask; highTask]) as Hpending by (vm_compute; reflexivity).
  assert (GetTasksByStatus (storage storedQueue) StatusRetrying 20 = inl [])
    as Hretrying by (vm_compute; reflexivity).
  split; [exact Hpending|]. split; [exact Hretrying|]. split; [reflexivity|].
  exact (pollPendingTasks_twice storedQueue [lowTask; highTask] [] PriorityHigh []
           Hpending Hretrying eq_refl).
Defined.

Lemma first_attempt_succeeds_witness :
  (∀ t', succeeds 0%nat t' = None) ∧
  PriorityLow <= Priority highTask <= PriorityCritical ∧
  snd (SaveTask NewMemoryStorage highTask) = None ∧
  (1 <= 1)%nat ∧
  ∃ q' t1,
    worker 1
      (fst (Submit (RegisterHandler (Type_ highTask) succeeds
                      (NewQueue NewMemoryStorage metrics.empty t0)) highTask))
      (Priority highTask) "worker-2-0" = (q', [t1], Waiting) ∧
    Status t1 = StatusCompleted ∧ RetryCount t1 = RetryCount highTask ∧
    CompletedAt t1 = Some t0 ∧
    invocations q' !! Type_ highTask = Some 1%nat ∧
    taskChannels q' !! Priority highTask = Some [] ∧
    metrics.value (Sprintf_d (Priority highTask)) (metrics.QueueSize (registry q')) =
      metrics.value (Sprintf_d (Priority highTask)) (metrics.QueueSize metrics.empty).
Proof.
  assert (PriorityLow <= Priority highTask <= PriorityCritical) as Hprio
    by (vm_compute; split; discriminate).
  assert (1 <= 1)%nat as Hrounds by lia.
  repeat (split; [first [reflexivity | exact Hprio | exact Hrounds]|]).
  exact (first_attempt_succeeds NewMemoryStorage metrics.empty t0 succeeds highTask
           "worker-2-0" 1%nat (λ _, eq_refl) Hprio eq_refl Hrounds).
Defined.

Lemma GetStats_memory_witness :
  [StatusFailed; StatusPending; StatusCompleted; StatusProcessing] ≡ₚ reported ∧
  ∃ stats,
    GetStats [StatusFailed; StatusPending; StatusCompleted; StatusProcessing]
      storedQueue = inl stats ∧
    GetStats reported storedQueue = inl stats ∧
    handleGetStats [StatusFailed; StatusPending; StatusCompleted; StatusProcessing]
      storedQueue = mkReply StatusOK (BodyStats stats) ∧
    (∀ status, status ∈ reported →
       stats !! status =
         Some (Z.min 1000
                 (Z.of_nat (length (filter (λ t, Status t = status)
                                      (tasks (storage storedQueue)).*2))))) ∧
    stats !! StatusRetrying = None ∧
    ∀ k, k ∉ reported → stats !! k = None.
Proof.
  assert ([StatusFailed; StatusPending; StatusCompleted; StatusProcessing]
          ≡ₚ reported) as Hperm.
  { unfold reported.
    transitivity [StatusPending; StatusFailed; StatusCompleted; StatusProcessing];
      [apply perm_swap|]. apply perm_skip.
    transitivity [StatusCompleted; StatusFailed; StatusProcessing];
      [apply perm_swap|].
    transitivity [StatusCompleted; StatusProcessing; StatusFailed];
      [apply perm_skip, perm_swap | apply perm_swap]. }
  split; [exact Hperm|].
  exact (GetStats_memory storedQueue
           [StatusFailed; StatusPending; StatusCompleted; StatusProcessing] Hperm).
Defined.

Lemma handleListTasks_limit_witness :
  isInt64 25 = true ∧
  (∃ limit,
     handleListTasks "failed" "abc" =
       mkReply StatusOK
         (BodyList [] 0 limit
            (if String.eqb "failed" "" then StatusPending else "failed")) ∧
     1 <= limit <= 100) ∧
  handleListTasks "failed" (Sprintf_d 25) =
    mkReply StatusOK
      (BodyList [] 0 (if (1 <=? 25) && (25 <=? 100) then 25 else 10)
         (if String.eqb "failed" "" then StatusPending else "failed")).
Proof.
  split; [reflexivity|].
  exact (handleListTasks_limit "failed" "abc" 25 eq_refl).
Defined.

Lemma submit_then_get_witness :
  req_Type plainRequest ≠ "" ∧ "id-7" ≠ "" ∧
  nativePayload (req_Payload plainRequest) = true ∧
  timeMarshalable (clock freshQueue) = true ∧
  timeMarshalable (clock redisQueue) = true ∧
  (∃ data,
     ToJSON (requestTask "id-7" (clock freshQueue) plainRequest) = Some data ∧
     snd (handleSubmitTask freshQueue "id-7" (Some plainRequest)) =
       respondJSON StatusCreated [("task_id", "id-7"); ("status", "submitted")] ∧
     handleGetTask (fst (handleSubmitTask freshQueue "id-7" (Some plainRequest))) "id-7" =
       mkReply StatusOK (BodyTask (Some data))) ∧
  (∃ data,
     ToJSON (requestTask "id-7" (clock redisQueue) plainRequest) = Some data ∧
     snd (handleSubmitTask redisQueue "id-7" (Some plainRequest)) =
       respondJSON StatusCreated [("task_id", "id-7"); ("status", "submitted")] ∧
     handleGetTask (fst (handleSubmitTask redisQueue "id-7" (Some plainRequest))) "id-7" =
       mkReply StatusOK (BodyTask (Some data))).
Proof.
  assert (req_Type plainRequest ≠ "") as Htype by discriminate.
  assert ("id-7" ≠ "") as Hid by discriminate.
  split; [exact Htype|]. split; [exact Hid|].
  repeat (split; [reflexivity|]).
  exact (submit_then_get freshQueue redisQueue "id-7" plainRequest
           Htype Hid eq_refl eq_refl eq_refl).
Defined.

End more_examples.

(** ** The poller's ticks during a back-off *)

Module queue_ticks.
Import task storage queue api ticker props examples examples_more.
Import task_facts storage_facts queue_facts json_more storage_more queue_more.

Implicit Types (q : Queue MemoryStorage) (t s old : Task).

(** What [Submit] leaves of a new queue over an empty [MemoryStorage]. *)
Lemma Submit_new_memory reg now h t :
  PriorityLow <= Priority t <= PriorityCritical →
  let q1 := fst (Submit (RegisterHandler (Type_ t) h
                           (NewQueue NewMemoryStorage reg now)) t) in
  taskChannels q1 !! Priority t = Some [t] ∧
  handlers q1 !! Type_ t = Some h ∧
  invocations q1 !! Type_ t = None ∧ clock q1 = now ∧
  tasks (storage q1) = [(ID t, jsonCopy t)] ∧
  metrics.TasksProcessed (registry q1) = metrics.TasksProcessed reg.
Proof.
  intros Hprio.
  assert (snd (SaveTask NewMemoryStorage t) = None) as Hsave by reflexivity.
  destruct (Submit_new_queue NewMemoryStorage reg now h t Hprio Hsave)
    as (q1 & Hq1 & Hc1 & Hh1 & Hi1 & Hk1 & _).
  cbv zeta. rewrite Hq1. rewrite Hi1, lookup_empty.
  repeat (split; [done|]).
  rewrite <- Hq1. unfold Submit. cbn.
  destruct (trySend _ _); split; reflexivity.
Qed.

(** [processTask] on the retry branch, over a store that holds the one
    record of the task. *)
Lemma processTask_retry_state q t w h msg (buf : list Task) old :
  handlers q !! Type_ t = Some h →
  h (default 0%nat (invocations q !! Type_ t)) (MarkStarted (clock q) w t) = Some msg →
  CanRetry t = true → 0 <= RetryCount t < 96038 →
  taskChannels q !! Priority t = Some buf → (length buf < channelCapacity)%nat →
  tasks (storage q) = [(ID t, old)] →
  ∃ q', processTask q t w = Returned q' (MarkRetrying (MarkStarted (clock q) w t)) ∧
    taskChannels q' =
      <[Priority t := (buf ++ [MarkRetrying (MarkStarted (clock q) w t)])%list]>
        (taskChannels q) ∧
    handlers q' = handlers q ∧
    invocations q' =
      <[Type_ t := Datatypes.S (default 0%nat (invocations q !! Type_ t))]>
        (invocations q) ∧
    clock q' = clock q + (RetryCount t + 1) * (RetryCount t + 1) * 10 ^ 9 ∧
    tasks (storage q') = [(ID t, jsonCopy (MarkRetrying (MarkStarted (clock q) w t)))] ∧
    metrics.TasksProcessed (registry q') = metrics.TasksProcessed (registry q).
Proof.
  intros Hh Herr Hcan Hrc Hbuf Hroom Hstore. unfold_queue. rewrite Hh, Herr.
  change (CanRetry (MarkStarted (clock q) w t)) with (CanRetry t). rewrite Hcan.
  erewrite (trySend_room _ (MarkRetrying (MarkStarted (clock q) w t)));
    [| exact Hbuf | exact Hroom].
  eexists. split; [reflexivity|]. cbn.
  assert (wrap64 (RetryCount t + 1) = RetryCount t + 1) as Hw1
    by (apply wrap64_id; unfold minInt64, maxInt64; lia).
  rewrite Hw1.
  assert (wrap64 ((RetryCount t + 1) * (RetryCount t + 1))
          = (RetryCount t + 1) * (RetryCount t + 1)) as Hw2
    by (apply wrap64_id; unfold minInt64, maxInt64; nia).
  rewrite Hw2.
  assert (wrap64 ((RetryCount t + 1) * (RetryCount t + 1) * 10 ^ 9)
          = (RetryCount t + 1) * (RetryCount t + 1) * 10 ^ 9) as Hw3
    by (apply wrap64_id; unfold minInt64, maxInt64; nia).
  rewrite Hw3, Hstore. cbn. rewrite !String.eqb_refl. cbn. rewrite !String.eqb_refl.
  repeat split; try reflexivity. lia.
Qed.

(** [processTask] when the handler's answer settles the task: completed
    when it succeeds, failed when it fails and no retry is left. *)
Lemma processTask_settles q s w h (res : option string) old :
  handlers q !! Type_ s = Some h →
  h (default 0%nat (invocations q !! Type_ s)) (MarkStarted (clock q) w s) = res →
  (res ≠ None → CanRetry s = false) →
  tasks (storage q) = [(ID s, old)] →
  let s' := match res with
            | Some msg => MarkFailed (clock q) msg (MarkStarted (clock q) w s)
            | None => MarkCompleted (clock q) (MarkStarted (clock q) w s)
            end in
  let label := match res with Some _ => "failed" | None => "completed" end in
  ∃ q', processTask q s w = Returned q' s' ∧
    taskChannels q' = taskChannels q ∧ handlers q' = handlers q ∧
    invocations q' =
      <[Type_ s := Datatypes.S (default 0%nat (invocations q !! Type_ s))]>
        (invocations q) ∧
    clock q' = clock q ∧
    tasks (storage q') = [(ID s, jsonCopy s')] ∧
    metrics.value (Type_ s, label) (metrics.TasksProcessed (registry q')) =
      metrics.value (Type_ s, label) (metrics.TasksProcessed (registry q)) + 1.
Proof.
  intros Hh Hres Hcan Hstore. cbv zeta. unfold_queue. rewrite Hh, Hres.
  destruct res as [msg|].
  - change (CanRetry (MarkStarted (clock q) w s)) with (CanRetry s).
    rewrite Hcan by done.
    eexists. split; [reflexivity|]. cbn. rewrite Hstore. cbn.
    rewrite !String.eqb_refl. cbn. rewrite !String.eqb_refl.
    repeat split; try reflexivity.
    unfold metrics.value, metrics.Inc. by rewrite lookup_insert_eq.
  - eexists. split; [reflexivity|]. cbn. rewrite Hstore. cbn.
    rewrite !String.eqb_refl. cbn. rewrite !String.eqb_refl.
    repeat split; try reflexivity.
    unfold metrics.value, metrics.Inc. by rewrite lookup_insert_eq.
Qed.

(** One round of the worker that ends in a retry. *)
Lemma round_retry q t h msg name old :
  taskChannels q !! Priority t = Some [t] →
  handlers q !! Type_ t = Some h →
  h (default 0%nat (invocations q !! Type_ t)) (MarkStarted (clock q) name t) = Some msg →
  CanRetry t = true → 0 <= RetryCount t < 96038 →
  tasks (storage q) = [(ID t, old)] →
  let t1 := MarkRetrying (MarkStarted (clock q) name t) in
  let q' := round q (Priority t) name in
  taskChannels q' !! Priority t = Some [t1] ∧
  handlers q' = handlers q ∧
  invocations q' !! Type_ t =
    Some (Datatypes.S (default 0%nat (invocations q !! Type_ t))) ∧
  clock q' = clock q + (RetryCount t + 1) * (RetryCount t + 1) * 10 ^ 9 ∧
  tasks (storage q') = [(ID t, jsonCopy t1)] ∧
  metrics.TasksProcessed (registry q') = metrics.TasksProcessed (registry q).
Proof.
  intros Hchan Hh Herr Hcan Hrc Hstore. cbv zeta. unfold round.
  rewrite (worker_receive _ _ _ _ _ _ Hchan).
  set (q1 := withChannels (<[Priority t:=[]]> (taskChannels q)) q).
  destruct (processTask_retry_state q1 t name h msg [] old)
    as (q2 & Hq2 & Hc2 & Hh2 & Hi2 & Hk2 & Hs2 & Hp2); try done.
  { unfold q1. simpl. apply lookup_insert_eq. }
  { unfold channelCapacity. simpl. lia. }
  rewrite Hq2.
  assert (taskChannels q2 !! Priority t
          = Some [MarkRetrying (MarkStarted (clock q) name t)]) as Hc2'
    by (rewrite Hc2; apply lookup_insert_eq).
  simpl. rewrite Hc2'. simpl.
  rewrite Hh2, Hi2, Hk2, Hs2, Hp2. simpl. by rewrite lookup_insert_eq.
Qed.

(** The ticks of the poller while the store holds one record, retrying:
    every tick sends the record to the channel of its priority. *)
Lemma poller_retrying (k : nat) s :
  Status s = StatusRetrying →
  ∀ q (buf : list Task),
    tasks (storage q) = [(ID s, s)] →
    taskChannels q !! Priority s = Some buf →
    (length buf + k <= channelCapacity)%nat →
    taskChannels (poller k q) !! Priority s = Some (buf ++ replicate k s)%list ∧
    storage (poller k q) = storage q ∧ handlers (poller k q) = handlers q ∧
    invocations (poller k q) = invocations q ∧ clock (poller k q) = clock q ∧
    registry (poller k q) = registry q.
Proof.
  intros Hstatus. induction k as [|k IH]; intros q buf Hstore Hbuf Hroom.
  - simpl. by rewrite app_nil_r.
  - assert (pollPendingTasks q =
              withChannels (<[Priority s := (buf ++ [s])%list]> (taskChannels q)) q)
      as Htick.
    { destruct q as [[m] hs chans r c i]. simpl in Hstore, Hbuf. subst m.
      unfold pollPendingTasks. cbn. rewrite Hstatus. cbn.
      replace (if 20 <=? Z.of_nat 1 then [s] else [s]) with [s]
        by (by destruct (20 <=? Z.of_nat 1)).
      cbn [pollLoop]. rewrite (trySend_room _ _ buf Hbuf) by lia. reflexivity. }
    simpl. rewrite Htick.
    destruct (IH (withChannels (<[Priority s := (buf ++ [s])%list]> (taskChannels q)) q)
                (buf ++ [s])%list) as (Hc & Hs & Hh & Hi & Hk & Hr).
    + exact Hstore.
    + simpl. apply lookup_insert_eq.
    + rewrite length_app. simpl. lia.
    + rewrite Hc, Hs, Hh, Hi, Hk, Hr. simpl.
      by rewrite <- app_assoc.
Qed.

(** A worker on a channel that holds [n] copies of one task, when the
    handler's answer settles the task at every call from the present
    count on. *)
Lemma worker_settles s h (res : option string) name (n : nat) :
  (res ≠ None → CanRetry s = false) →
  ∀ q (c rounds : nat) old,
    taskChannels q !! Priority s = Some (replicate n s) →
    handlers q !! Type_ s = Some h →
    invocations q !! Type_ s = Some c →
    (∀ m t', (c <= m)%nat → h m t' = res) →
    tasks (storage q) = [(ID s, old)] →
    (n <= rounds)%nat →
    let s' := match res with
              | Some msg => MarkFailed (clock q) msg (MarkStarted (clock q) name s)
              | None => MarkCompleted (clock q) (MarkStarted (clock q) name s)
              end in
    let label := match res with Some _ => "failed" | None => "completed" end in
    ∃ q', worker rounds q (Priority s) name = (q', replicate n s', Waiting) ∧
      taskChannels q' !! Priority s = Some [] ∧
      invocations q' !! Type_ s = Some (c + n)%nat ∧
      clock q' = clock q ∧
      tasks (storage q') = [(ID s, if n is O then old else jsonCopy s')] ∧
      metrics.value (Type_ s, label) (metrics.TasksProcessed (registry q')) =
        metrics.value (Type_ s, label) (metrics.TasksProcessed (registry q))
        + Z.of_nat n.
Proof.
  intros Hcan. induction n as [|n IH];
    intros q c rounds old Hchan Hh Hi Hres Hstore Hrounds; cbv zeta.
  - exists q. rewrite (worker_waiting _ _ _ _ Hchan). simpl.
    rewrite Hi, Nat.add_0_r. repeat split; try done. lia.
  - destruct rounds as [|rounds]; [lia|].
    rewrite (worker_receive _ _ _ _ s (replicate n s) Hchan).
    set (q1 := withChannels (<[Priority s:=replicate n s]> (taskChannels q)) q).
    assert (h (default 0%nat (invocations q1 !! Type_ s))
              (MarkStarted (clock q1) name s) = res) as Hres1.
    { unfold q1. simpl. rewrite Hi. simpl. by apply Hres. }
    destruct (processTask_settles q1 s name h res old Hh Hres1 Hcan Hstore)
      as (q2 & Hq2 & Hc2 & Hh2 & Hi2 & Hk2 & Hs2 & Hp2).
    rewrite Hq2.
    set (s' := match res with
               | Some msg => MarkFailed (clock q1) msg (MarkStarted (clock q1) name s)
               | None => MarkCompleted (clock q1) (MarkStarted (clock q1) name s)
               end) in *.
    assert (ID s' = ID s) as Hid by (unfold s'; by destruct res).
    destruct (IH q2 (Datatypes.S c) rounds (jsonCopy s'))
      as (q3 & Hq3 & Hc3 & Hi3 & Hk3 & Hs3 & Hp3).
    + rewrite Hc2. unfold q1. simpl. apply lookup_insert_eq.
    + by rewrite Hh2.
    + rewrite Hi2. unfold q1. simpl. rewrite Hi. simpl. apply lookup_insert_eq.
    + intros m t' Hm. apply Hres. lia.
    + exact Hs2.
    + lia.
    + exists q3. rewrite Hq3, Hk2. unfold q1 at 1 2. simpl.
      split; [reflexivity|]. split; [exact Hc3|].
      split; [rewrite Hi3; f_equal; lia|].
      split; [by rewrite Hk3, Hk2|].
      split.
      * rewrite Hs3, Hk2. unfold s', q1. simpl. by destruct n.
      * rewrite Hp3, Hp2. unfold q1. simpl. lia.
Qed.

(** What [GetTask] reads when the store holds one record that is its
    own copy. *)
Lemma GetTask_single q s :
  tasks (storage q) = [(ID s, jsonCopy s)] → jsonCopy s = s →
  Queue_GetTask q (ID s) = inl s.
Proof.
  intros Hstore Hcopy. unfold Queue_GetTask. simpl. unfold MemoryStorage_GetTask.
  rewrite Hstore. simpl. by rewrite String.eqb_refl, !Hcopy.
Qed.

Lemma timesMarshalable_started s now name :
  timesMarshalable s = true → timeMarshalable now = true →
  timesMarshalable (MarkRetrying (MarkStarted now name s)) = true.
Proof.
  unfold timesMarshalable. simpl. intros Hs Hnow.
  apply andb_prop in Hs as [Hs Hc]. apply andb_prop in Hs as [Hcr _].
  by rewrite Hcr, Hnow, Hc.
Qed.

Lemma timesMarshalable_settled s now name (res : option string) :
  timesMarshalable s = true → timeMarshalable now = true →
  timesMarshalable
    match res with
    | Some msg => MarkFailed now msg (MarkStarted now name s)
    | None => MarkCompleted now (MarkStarted now name s)
    end = true.
Proof.
  unfold timesMarshalable. intros Hs Hnow.
  apply andb_prop in Hs as [Hs _]. apply andb_prop in Hs as [Hcr _].
  destruct res; simpl; by rewrite Hcr, Hnow.
Qed.

(** X19: a task whose handler fails on its first call and succeeds
    afterwards, over [MemoryStorage], with the poller running.  While
    the worker sleeps its one-second back-off the store holds the task
    as retrying, and every tick of the poller that falls in that time
    sends a further copy to the channel.  With [k] such ticks the worker
    then completes [k + 1] copies: the handler is called [k + 2] times
    and [k + 1] completions are counted; the record ends completed with
    retry count 1.  Only a run with no tick in the back-off ([k = 0])
    gives the two calls of attempts = 1 + retries. *)
Theorem retry_then_success_ticks reg now h msg t name (k rounds : nat) :
  (∀ t', h 0%nat t' = Some msg) → (∀ n t', h (Datatypes.S n) t' = None) →
  RetryCount t = 0 → 1 <= MaxRetries t →
  PriorityLow <= Priority t <= PriorityCritical →
  nativePayload (Payload t) = true → timesMarshalable t = true →
  timeMarshalable now = true → timeMarshalable (now + 10 ^ 9) = true →
  (k <= 99)%nat → (k + 1 <= rounds)%nat →
  let q0 := fst (Submit (RegisterHandler (Type_ t) h
                           (NewQueue NewMemoryStorage reg now)) t) in
  let q1 := round q0 (Priority t) name in
  let t1 := MarkRetrying (MarkStarted now name t) in
  let t2 := MarkCompleted (now + 10 ^ 9) (MarkStarted (now + 10 ^ 9) name t1) in
  Queue_GetTask q1 (ID t) = inl t1 ∧ Status t1 = StatusRetrying ∧
  invocations q1 !! Type_ t = Some 1%nat ∧
  ∃ q',
    worker rounds (poller k q1) (Priority t) name =
      (q', replicate (k + 1) t2, Waiting) ∧
    Status t2 = StatusCompleted ∧ RetryCount t2 = 1 ∧
    invocations q' !! Type_ t = Some (k + 2)%nat ∧
    taskChannels q' !! Priority t = Some [] ∧
    Queue_GetTask q' (ID t) = inl t2 ∧
    metrics.value (Type_ t, "completed") (metrics.TasksProcessed (registry q')) =
      metrics.value (Type_ t, "completed") (metrics.TasksProcessed reg)
      + Z.of_nat (k + 1).
Proof.
  intros Hfail Hok Hcount Hmax Hprio Hpayload Htimes Hnow Hnow1 Hk Hrounds.
  cbv zeta.
  destruct (Submit_new_memory reg now h t Hprio) as (Hc0 & Hh0 & Hi0 & Hk0 & Hs0 & Hp0).
  set (q0 := fst (Submit (RegisterHandler (Type_ t) h
                            (NewQueue NewMemoryStorage reg now)) t)) in *.
  (* the first attempt *)
  destruct (round_retry q0 t h msg name (jsonCopy t)) as (Hc1 & Hh1 & Hi1 & Hk1 & Hs1 & Hp1);
    try done.
  { rewrite Hi0. apply Hfail. }
  { unfold CanRetry. apply Z.ltb_lt. lia. }
  { lia. }
  set (q1 := round q0 (Priority t) name) in *.
  rewrite Hk0 in Hc1, Hs1. rewrite Hk0, Hcount in Hk1. rewrite Hi0 in Hi1.
  simpl in Hi1. replace (now + (0 + 1) * (0 + 1) * 10 ^ 9) with (now + 10 ^ 9) in Hk1 by lia.
  set (t1 := MarkRetrying (MarkStarted now name t)) in *.
  assert (jsonCopy t1 = t1) as Hcopy1
    by (apply jsonCopy_native; [exact Hpayload | by apply timesMarshalable_started]).
  rewrite Hcopy1 in Hs1.
  split; [apply (GetTask_single q1 t1); [rewrite Hcopy1; exact Hs1 | exact Hcopy1]|].
  split; [reflexivity|]. split; [exact Hi1|].
  (* the ticks during the back-off *)
  destruct (poller_retrying k t1 eq_refl q1 [t1] Hs1 Hc1)
    as (Hc2 & Hs2 & Hh2 & Hi2 & Hk2 & Hr2).
  { unfold channelCapacity. simpl. lia. }
  set (q2 := poller k q1) in *.
  (* the worker on the copies *)
  destruct (worker_settles t1 h None name (Datatypes.S k) (λ Hne, False_ind _ (Hne eq_refl))
              q2 1%nat rounds t1) as (q3 & Hq3 & Hc3 & Hi3 & Hk3 & Hs3 & Hp3).
  { exact Hc2. }
  { change (Type_ t1) with (Type_ t). by rewrite Hh2, Hh1. }
  { change (Type_ t1) with (Type_ t). by rewrite Hi2. }
  { intros [|m] t' Hm; [lia | apply Hok]. }
  { by rewrite Hs2. }
  { lia. }
  rewrite Hk2, Hk1 in Hq3, Hs3.
  set (t2 := MarkCompleted (now + 10 ^ 9) (MarkStarted (now + 10 ^ 9) name t1)) in *.
  assert (jsonCopy t2 = t2) as Hcopy2.
  { apply jsonCopy_native; [exact Hpayload|].
    apply (timesMarshalable_settled t1 (now + 10 ^ 9) name None); [|exact Hnow1].
    by apply timesMarshalable_started. }
  exists q3. replace (k + 1)%nat with (Datatypes.S k) by lia.
  split; [exact Hq3|]. split; [reflexivity|].
  split; [simpl; rewrite Hcount; apply wrap64_id; unfold minInt64, maxInt64; lia|].
  split; [change (Type_ t) with (Type_ t1); rewrite Hi3; f_equal; lia|].
  split; [exact Hc3|].
  split; [apply (GetTask_single q3 t2); [exact Hs3 | exact Hcopy2]|].
  change (Type_ t1) with (Type_ t) in Hp3. rewrite Hp3, Hr2, Hp1, Hp0. reflexivity.
Qed.

(** X20: a task with [max_retries = 2] whose handler always fails, over
    [MemoryStorage], with the poller running.  After the second failed
    attempt the worker sleeps four seconds while the store holds the
    task as retrying with retry count 2; every tick of the poller in
    that time sends a further copy to the channel.  With [k] such ticks
    the worker then fails [k + 1] copies: the handler is called [k + 3]
    times and [k + 1] failures are counted for the one task; the record
    ends failed with retry count 2 and the handler's message.  Only a
    run with no tick in the back-off ([k = 0]) gives three calls. *)
Theorem exhausted_retries_ticks reg now h msg t name (k rounds : nat) :
  (∀ n t', h n t' = Some msg) →
  MaxRetries t = 2 → RetryCount t = 0 →
  PriorityLow <= Priority t <= PriorityCritical →
  nativePayload (Payload t) = true → timesMarshalable t = true →
  timeMarshalable now = true → timeMarshalable (now + 10 ^ 9) = true →
  timeMarshalable (now + 5 * 10 ^ 9) = true →
  (k <= 99)%nat → (k + 1 <= rounds)%nat →
  let q0 := fst (Submit (RegisterHandler (Type_ t) h
                           (NewQueue NewMemoryStorage reg now)) t) in
  let q2 := round (round q0 (Priority t) name) (Priority t) name in
  let t1 := MarkRetrying (MarkStarted now name t) in
  let t2 := MarkRetrying (MarkStarted (now + 10 ^ 9) name t1) in
  let tf := MarkFailed (now + 5 * 10 ^ 9) msg
              (MarkStarted (now + 5 * 10 ^ 9) name t2) in
  Queue_GetTask q2 (ID t) = inl t2 ∧ Status t2 = StatusRetrying ∧
  RetryCount t2 = 2 ∧ invocations q2 !! Type_ t = Some 2%nat ∧
  ∃ q',
    worker rounds (poller k q2) (Priority t) name =
      (q', replicate (k + 1) tf, Waiting) ∧
    Status tf = StatusFailed ∧ RetryCount tf = 2 ∧ Error tf = msg ∧
    invocations q' !! Type_ t = Some (k + 3)%nat ∧
    taskChannels q' !! Priority t = Some [] ∧
    Queue_GetTask q' (ID t) = inl tf ∧
    metrics.value (Type_ t, "failed") (metrics.TasksProcessed (registry q')) =
      metrics.value (Type_ t, "failed") (metrics.TasksProcessed reg)
      + Z.of_nat (k + 1).
Proof.
  intros Herr Hmax Hcount Hprio Hpayload Htimes Hnow Hnow1 Hnow5 Hk Hrounds.
  cbv zeta.
  destruct (Submit_new_memory reg now h t Hprio) as (Hc0 & Hh0 & Hi0 & Hk0 & Hs0 & Hp0).
  set (q0 := fst (Submit (RegisterHandler (Type_ t) h
                            (NewQueue NewMemoryStorage reg now)) t)) in *.
  (* the first attempt *)
  destruct (round_retry q0 t h msg name (jsonCopy t)) as (Hc1 & Hh1 & Hi1 & Hk1 & Hs1 & Hp1);
    try done.
  { unfold CanRetry. apply Z.ltb_lt. lia. }
  { lia. }
  set (q1 := round q0 (Priority t) name) in *.
  rewrite Hk0 in Hc1, Hs1. rewrite Hk0, Hcount in Hk1. rewrite Hi0 in Hi1.
  simpl in Hi1. replace (now + (0 + 1) * (0 + 1) * 10 ^ 9) with (now + 10 ^ 9) in Hk1 by lia.
  set (t1 := MarkRetrying (MarkStarted now name t)) in *.
  assert (RetryCount t1 = 1) as Hcount1.
  { unfold t1. simpl. rewrite Hcount. apply wrap64_id. unfold minInt64, maxInt64. lia. }
  assert (timesMarshalable t1 = true) as Htimes1 by (by apply timesMarshalable_started).
  (* the second attempt *)
  assert (handlers q1 !! Type_ t1 = Some h) as Hh1'
    by (change (Type_ t1) with (Type_ t); by rewrite Hh1).
  assert (CanRetry t1 = true) as Hcan1.
  { unfold CanRetry. apply Z.ltb_lt. change (MaxRetries t1) with (MaxRetries t). lia. }
  assert (0 <= RetryCount t1 < 96038) as Hrange1 by lia.
  destruct (round_retry q1 t1 h msg name (jsonCopy t1) Hc1 Hh1' (Herr _ _) Hcan1
              Hrange1 Hs1) as (Hc2 & Hh2 & Hi2 & Hk2 & Hs2 & Hp2).
  change (Priority t1) with (Priority t) in *. change (Type_ t1) with (Type_ t) in *.
  change (ID t1) with (ID t) in *.
  set (q2 := round q1 (Priority t) name) in *.
  rewrite Hk1 in Hc2, Hs2. rewrite Hk1, Hcount1 in Hk2. rewrite Hi1 in Hi2.
  simpl in Hi2.
  replace (now + 10 ^ 9 + (1 + 1) * (1 + 1) * 10 ^ 9) with (now + 5 * 10 ^ 9) in Hk2 by lia.
  set (t2 := MarkRetrying (MarkStarted (now + 10 ^ 9) name t1)) in *.
  assert (RetryCount t2 = 2) as Hcount2.
  { change (RetryCount t2) with (wrap64 (RetryCount t1 + 1)). rewrite Hcount1.
    apply wrap64_id. unfold minInt64, maxInt64. lia. }
  assert (timesMarshalable t2 = true) as Htimes2 by (by apply timesMarshalable_started).
  assert (jsonCopy t2 = t2) as Hcopy2 by (by apply jsonCopy_native).
  rewrite Hcopy2 in Hs2.
  split; [apply (GetTask_single q2 t2); [rewrite Hcopy2; exact Hs2 | exact Hcopy2]|].
  split; [reflexivity|]. split; [exact Hcount2|]. split; [exact Hi2|].
  (* the ticks during the back-off *)
  destruct (poller_retrying k t2 eq_refl q2 [t2] Hs2 Hc2)
    as (Hc3 & Hs3 & Hh3 & Hi3 & Hk3 & Hr3).
  { unfold channelCapacity. simpl. lia. }
  set (q3 := poller k q2) in *.
  (* the worker on the copies *)
  assert (Some msg ≠ None → CanRetry t2 = false) as Hcan.
  { intros _. unfold CanRetry. apply Z.ltb_ge.
    change (MaxRetries t2) with (MaxRetries t). lia. }
  destruct (worker_settles t2 h (Some msg) name (Datatypes.S k) Hcan
              q3 2%nat rounds t2) as (q4 & Hq4 & Hc4 & Hi4 & Hk4 & Hs4 & Hp4).
  { exact Hc3. }
  { change (Type_ t2) with (Type_ t). by rewrite Hh3, Hh2, Hh1. }
  { change (Type_ t2) with (Type_ t). by rewrite Hi3. }
  { intros m t' _. apply Herr. }
  { by rewrite Hs3. }
  { lia. }
  rewrite Hk3, Hk2 in Hq4, Hs4.
  set (tf := MarkFailed (now + 5 * 10 ^ 9) msg
               (MarkStarted (now + 5 * 10 ^ 9) name t2)) in *.
  assert (jsonCopy tf = tf) as Hcopyf.
  { apply jsonCopy_native; [exact Hpayload|].
    by apply (timesMarshalable_settled t2 (now + 5 * 10 ^ 9) name (Some msg)). }
  exists q4. replace (k + 1)%nat with (Datatypes.S k) by lia.
  split; [exact Hq4|]. split; [reflexivity|]. split; [exact Hcount2|].
  split; [reflexivity|].
  split; [change (Type_ t) with (Type_ t2); rewrite Hi4; f_equal; lia|].
  split; [exact Hc4|].
  split; [apply (GetTask_single q4 tf); [exact Hs4 | exact Hcopyf]|].
  change (Type_ t2) with (Type_ t) in Hp4. rewrite Hp4, Hr3, Hp2, Hp1, Hp0. reflexivity.
Qed.

End queue_ticks.

(** ** The retry tests with the poller running *)

Module ticks_examples.
Import task storage queue api ticker props examples examples_more examples_ticks.
Import task_facts queue_facts queue_ticks.

(** C4, the code at the failing input.  The task of the test
    ([max_retries = 2], a handler that always fails, one worker on its
    priority) is submitted and attempted twice; the second failure
    leaves it retrying with retry count 2 in the store while the worker
    sleeps its four-second back-off.  The poller, which [Start] always
    launches on a one-second ticker, fires at least three times in
    those four seconds, and every firing sends the retrying record to
    the channel again.  The worker then fails every copy: with three
    ticks the handler is called six times and four failures are counted
    for the one task, with four ticks seven times and five.  The record
    ends failed with retry count 2 and the handler's message, over
    [MemoryStorage] and over [RedisStorage] alike. *)
Theorem attempts_exceed_retries_plus_one :
  (let q := fst (Submit exhaustingQueue twoRetriesTask) in
   let q := round (round q PriorityHigh "worker-2-0") PriorityHigh "worker-2-0" in
   (invocations q !! "test_task" = Some 2%nat ∧ clock q = t0 + 5 * 10 ^ 9 ∧
    ∃ t, Queue_GetTask q "high-1" = inl t ∧
         Status t = StatusRetrying ∧ RetryCount t = 2) ∧
   (let '(q', done, st) := worker 10 (poller 3 q) PriorityHigh "worker-2-0" in
    map Status done = [StatusFailed; StatusFailed; StatusFailed; StatusFailed] ∧
    st = Waiting ∧
    invocations q' !! "test_task" = Some 6%nat ∧
    metrics.value ("test_task", "failed") (metrics.TasksProcessed (registry q')) = 4 ∧
    ∃ t, Queue_GetTask q' "high-1" = inl t ∧
         Status t = StatusFailed ∧ RetryCount t = 2 ∧
         Error t = "permanent failure") ∧
   (let '(q', done, st) := worker 10 (poller 4 q) PriorityHigh "worker-2-0" in
    length done = 5%nat ∧ st = Waiting ∧
    invocations q' !! "test_task" = Some 7%nat ∧
    metrics.value ("test_task", "failed") (metrics.TasksProcessed (registry q')) = 5)) ∧
  (let q := fst (Submit exhaustingRedisQueue twoRetriesTask) in
   let q := round (round q PriorityHigh "worker-2-0") PriorityHigh "worker-2-0" in
   (invocations q !! "test_task" = Some 2%nat ∧ clock q = t0 + 5 * 10 ^ 9 ∧
    ∃ t, Queue_GetTask q "high-1" = inl t ∧
         Status t = StatusRetrying ∧ RetryCount t = 2) ∧
   (let '(q', done, st) := worker 10 (poller 3 q) PriorityHigh "worker-2-0" in
    map Status done = [StatusFailed; StatusFailed; StatusFailed; StatusFailed] ∧
    st = Waiting ∧
    invocations q' !! "test_task" = Some 6%nat ∧
    metrics.value ("test_task", "failed") (metrics.TasksProcessed (registry q')) = 4 ∧
    ∃ t, Queue_GetTask q' "high-1" = inl t ∧
         Status t = StatusFailed ∧ RetryCount t = 2 ∧
         Error t = "permanent failure") ∧
   (let '(q', done, st) := worker 10 (poller 4 q) PriorityHigh "worker-2-0" in
    length done = 5%nat ∧ st = Waiting ∧
    invocations q' !! "test_task" = Some 7%nat ∧
    metrics.value ("test_task", "failed") (metrics.TasksProcessed (registry q')) = 5)).
Proof.
  split; vm_compute;
    (split; [split; [reflexivity|]; split; [reflexivity|];
             eexists; by repeat split|]);
    (split; [repeat (split; [reflexivity|]); eexists; by repeat split|]);
    by repeat split.
Qed.

Lemma retry_then_success_ticks_witness :
  (∀ t', failsOnce 0%nat t' = Some "temporary failure") ∧
  (∀ n t', failsOnce (Datatypes.S n) t' = None) ∧
  RetryCount highTask = 0 ∧ 1 <= MaxRetries highTask ∧
  PriorityLow <= Priority highTask <= PriorityCritical ∧
  nativePayload (Payload highTask) = true ∧ timesMarshalable highTask = true ∧
  timeMarshalable t0 = true ∧ timeMarshalable (t0 + 10 ^ 9) = true ∧
  (1 <= 99)%nat ∧ (1 + 1 <= 5)%nat ∧
  let q0 := fst (Submit (RegisterHandler (Type_ highTask) failsOnce
                           (NewQueue NewMemoryStorage metrics.empty t0)) highTask) in
  let q1 := round q0 (Priority highTask) "worker-2-0" in
  let t1 := MarkRetrying (MarkStarted t0 "worker-2-0" highTask) in
  let t2 := MarkCompleted (t0 + 10 ^ 9) (MarkStarted (t0 + 10 ^ 9) "worker-2-0" t1) in
  Queue_GetTask q1 (ID highTask) = inl t1 ∧ Status t1 = StatusRetrying ∧
  invocations q1 !! Type_ highTask = Some 1%nat ∧
  ∃ q',
    worker 5 (poller 1 q1) (Priority highTask) "worker-2-0" =
      (q', replicate (1 + 1) t2, Waiting) ∧
    Status t2 = StatusCompleted ∧ RetryCount t2 = 1 ∧
    invocations q' !! Type_ highTask = Some (1 + 2)%nat ∧
    taskChannels q' !! Priority highTask = Some [] ∧
    Queue_GetTask q' (ID highTask) = inl t2 ∧
    metrics.value (Type_ highTask, "completed")
        (metrics.TasksProcessed (registry q')) =
      metrics.value (Type_ highTask, "completed")
        (metrics.TasksProcessed metrics.empty)
      + Z.of_nat (1 + 1).
Proof.
  assert (1 <= MaxRetries highTask) as Hmax by (simpl; lia).
  assert (PriorityLow <= Priority highTask <= PriorityCritical) as Hprio
    by (vm_compute; split; discriminate).
  assert (1 <= 99)%nat as Hk by lia.
  assert (1 + 1 <= 5)%nat as Hrounds by lia.
  do 11 (split; [first [reflexivity | exact Hmax | exact Hprio | exact Hk
                        | exact Hrounds]|]).
  exact (retry_then_success_ticks metrics.empty t0 failsOnce "temporary failure"
           highTask "worker-2-0" 1%nat 5%nat
           (λ _, eq_refl) (λ _ _, eq_refl) eq_refl Hmax Hprio eq_refl eq_refl
           eq_refl eq_refl Hk Hrounds).
Defined.

Lemma exhausted_retries_ticks_witness :
  (∀ n t', alwaysFails n t' = Some "permanent failure") ∧
  MaxRetries twoRetriesTask = 2 ∧ RetryCount twoRetriesTask = 0 ∧
  PriorityLow <= Priority twoRetriesTask <= PriorityCritical ∧
  nativePayload (Payload twoRetriesTask) = true ∧
  timesMarshalable twoRetriesTask = true ∧
  timeMarshalable t0 = true ∧ timeMarshalable (t0 + 10 ^ 9) = true ∧
  timeMarshalable (t0 + 5 * 10 ^ 9) = true ∧
  (3 <= 99)%nat ∧ (3 + 1 <= 10)%nat ∧
  let q0 := fst (Submit (RegisterHandler (Type_ twoRetriesTask) alwaysFails
                           (NewQueue NewMemoryStorage metrics.empty t0))
                   twoRetriesTask) in
  let q2 := round (round q0 (Priority twoRetriesTask) "worker-2-0")
              (Priority twoRetriesTask) "worker-2-0" in
  let t1 := MarkRetrying (MarkStarted t0 "worker-2-0" twoRetriesTask) in
  let t2 := MarkRetrying (MarkStarted (t0 + 10 ^ 9) "worker-2-0" t1) in
  let tf := MarkFailed (t0 + 5 * 10 ^ 9) "permanent failure"
              (MarkStarted (t0 + 5 * 10 ^ 9) "worker-2-0" t2) in
  Queue_GetTask q2 (ID twoRetriesTask) = inl t2 ∧ Status t2 = StatusRetrying ∧
  RetryCount t2 = 2 ∧ invocations q2 !! Type_ twoRetriesTask = Some 2%nat ∧
  ∃ q',
    worker 10 (poller 3 q2) (Priority twoRetriesTask) "worker-2-0" =
      (q', replicate (3 + 1) tf, Waiting) ∧
    Status tf = StatusFailed ∧ RetryCount tf = 2 ∧ Error tf = "permanent failure" ∧
    invocations q' !! Type_ twoRetriesTask = Some (3 + 3)%nat ∧
    taskChannels q' !! Priority twoRetriesTask = Some [] ∧
    Queue_GetTask q' (ID twoRetriesTask) = inl tf ∧
    metrics.value (Type_ twoRetriesTask, "failed")
        (metrics.TasksProcessed (registry q')) =
      metrics.value (Type_ twoRetriesTask, "failed")
        (metrics.TasksProcessed metrics.empty)
      + Z.of_nat (3 + 1).
Proof.
  assert (PriorityLow <= Priority twoRetriesTask <= PriorityCritical) as Hprio
    by (vm_compute; split; discriminate).
  assert (3 <= 99)%nat as Hk by lia.
  assert (3 + 1 <= 10)%nat as Hrounds by lia.
  do 11 (split; [first [reflexivity | exact Hprio | exact Hk | exact Hrounds]|]).
  exact (exhausted_retries_ticks metrics.empty t0 alwaysFails "permanent failure"
           twoRetriesTask "worker-2-0" 3%nat 10%nat
           (λ _ _, eq_refl) eq_refl eq_refl Hprio eq_refl eq_refl
           eq_refl eq_refl eq_refl Hk Hrounds).
Defined.

End ticks_examples.
